(** * MySelavu: the transactional ledger core of [src/lib/database.ts]

    A shallow embedding of the SQLite-backed store and of the functions
    exported by [database.ts], followed by the properties of the ledger.

    Modelling conventions.
    - A table with a primary key is a finite map from the key to the rest
      of the row: [categories] (INTEGER PRIMARY KEY), [transactions]
      (TEXT PRIMARY KEY) and [balances] (type UNIQUE, CHECKed to be one of
      'gpay' / 'cash').
    - JavaScript numbers are exact integers [Z] where the code only
      compares, stores or counts them, or adds once: ids, millisecond
      timestamps, and amounts in whole currency units. Where a statement
      depends on how sums round, the amounts are IEEE 754 doubles, as in the
      code: module [Binary64] repeats the ledger operations on them, and
      on whole numbers far enough below 2^53 the two agree.
    - Strings are byte strings; [toLowerCase] and SQL LIKE fold ASCII
      letters only.
    - [uuidv4()], [Date.now()] and [Math.random()] are inputs of the
      functions that call them.
    - A [throw] inside BEGIN TRANSACTION .. COMMIT is [None] in the [Sql]
      monad; the [catch] block's ROLLBACK restores the database the call
      started from. *)

From Stdlib Require Import ZArith QArith Qround Lia Ascii String.
From Stdlib Require SpecFloat.
From stdpp Require Import gmap strings list fin_maps sorting pretty.

Local Open Scope Z_scope.

(** ** Types of [database.ts] *)

Inductive BalanceType : Set := gpay | cash.

Abbreviation TransactionPaymentMethod := BalanceType (only parsing).

Global Instance BalanceType_eq_dec : EqDecision BalanceType.
Proof. solve_decision. Defined.

Global Instance BalanceType_countable : Countable BalanceType.
Proof.
  refine (inj_countable' (λ m, match m with gpay => true | cash => false end)
                         (λ b : bool, if b then gpay else cash) _).
  by intros [].
Defined.

(** A row of [categories] without its key [id]. *)
Record CategoryRow : Type := mkCategoryRow {
  cr_name : string;
  cr_monthlyLimit : option Z
}.

(** [type Category]. *)
Record Category : Type := mkCategory {
  c_id : Z;
  c_name : string;
  c_monthlyLimit : option Z
}.

(** A row of [transactions] without its key [id]. *)
Record TransactionRow : Type := mkTransactionRow {
  tr_timestamp : Z;
  tr_paymentMethod : BalanceType;
  tr_categoryId : Z;
  tr_amount : Z;
  tr_reason : option string
}.

(** [type Transaction], with the optional [categoryName] of the JOIN. *)
Record Transaction : Type := mkTransaction {
  t_id : string;
  t_timestamp : Z;
  t_paymentMethod : BalanceType;
  t_categoryId : Z;
  t_amount : Z;
  t_reason : option string;
  t_categoryName : option string
}.

(** [type NewTransactionData]. *)
Record NewTransactionData : Type := mkNewTransactionData {
  d_paymentMethod : BalanceType;
  d_categoryId : Z;
  d_amount : Z;
  d_reason : option string
}.

(** The three tables. *)
Record Db : Type := mkDb {
  categories : gmap Z CategoryRow;
  balances : gmap BalanceType Z;
  transactions : gmap string TransactionRow
}.

Definition with_balances (b : gmap BalanceType Z) (db : Db) : Db :=
  mkDb (categories db) b (transactions db).

Definition with_transactions (t : gmap string TransactionRow) (db : Db) : Db :=
  mkDb (categories db) (balances db) t.

Definition with_categories (c : gmap Z CategoryRow) (db : Db) : Db :=
  mkDb c (balances db) (transactions db).

(** ** Strings *)

Definition is_upper (c : ascii) : bool :=
  let n := nat_of_ascii c in (65 <=? n)%nat && (n <=? 90)%nat.

Definition lower_ascii (c : ascii) : ascii :=
  if is_upper c then ascii_of_nat (nat_of_ascii c + 32) else c.

(** [String.prototype.toLowerCase] on ASCII letters. *)
Fixpoint toLowerCase (s : string) : string :=
  match s with
  | EmptyString => EmptyString
  | String c s' => String (lower_ascii c) (toLowerCase s')
  end.

(** [name.toLowerCase() === 'gain'] *)
Definition is_gain_name (name : string) : bool :=
  String.eqb (toLowerCase name) "gain".

(** [name?.toLowerCase() === 'gain'] on a row that may be missing. *)
Definition is_gain_opt (name : option string) : bool :=
  match name with
  | Some n => is_gain_name n
  | None => false
  end.

(** ** The [Sql] monad: a statement reads and writes the database or throws *)

Definition Sql (A : Type) : Type := Db → option (A * Db).

Global Instance Sql_ret : MRet Sql := λ A a db, Some (a, db).

Global Instance Sql_bind : MBind Sql := λ A B f m db,
  match m db with
  | Some (a, db') => f a db'
  | None => None
  end.

Definition throw {A : Type} : Sql A := λ _, None.

(** [SELECT name FROM categories WHERE id = ?] *)
Definition select_category_name (cid : Z) : Sql (option string) := λ db,
  Some (cr_name <$> categories db !! cid, db).

(** [SELECT amount FROM balances WHERE type = ?] *)
Definition select_balance (m : BalanceType) : Sql (option Z) := λ db,
  Some (balances db !! m, db).

(** [UPDATE balances SET amount = ? WHERE type = ?]; the result is
    [changes]. *)
Definition update_balance (v : Z) (m : BalanceType) : Sql Z := λ db,
  match balances db !! m with
  | Some _ => Some (1, with_balances (<[m := v]> (balances db)) db)
  | None => Some (0, db)
  end.

(** [UPDATE balances SET amount = amount + ? WHERE type = ?] *)
Definition increment_balance (delta : Z) (m : BalanceType) : Sql Z := λ db,
  match balances db !! m with
  | Some b => Some (1, with_balances (<[m := b + delta]> (balances db)) db)
  | None => Some (0, db)
  end.

(** [SELECT amount, paymentMethod, categoryId FROM transactions WHERE id = ?] *)
Definition select_transaction (tid : string) : Sql (option TransactionRow) := λ db,
  Some (transactions db !! tid, db).

(** [INSERT INTO transactions ... VALUES ...]: throws on a duplicate primary
    key and on a [categoryId] that references no category. *)
Definition insert_transaction (tid : string) (row : TransactionRow) : Sql unit := λ db,
  match transactions db !! tid, categories db !! tr_categoryId row with
  | None, Some _ => Some (tt, with_transactions (<[tid := row]> (transactions db)) db)
  | _, _ => None
  end.

(** [DELETE FROM transactions WHERE id = ?]; the result is [changes]. *)
Definition delete_transaction_row (tid : string) : Sql Z := λ db,
  match transactions db !! tid with
  | Some _ => Some (1, with_transactions (delete tid (transactions db)) db)
  | None => Some (0, db)
  end.

(** [UPDATE transactions SET amount = ?, reason = ?, paymentMethod = ?,
    categoryId = ?, timestamp = ? WHERE id = ?]; throws when the new
    [categoryId] violates the foreign key. *)
Definition update_transaction_row (tid : string) (row : TransactionRow) : Sql Z := λ db,
  match transactions db !! tid with
  | None => Some (0, db)
  | Some _ =>
      match categories db !! tr_categoryId row with
      | Some _ => Some (1, with_transactions (<[tid := row]> (transactions db)) db)
      | None => None
      end
  end.

(** [x ?? 0] *)
Definition orZero (x : option Z) : Z := default 0 x.

(** ** Balance functions *)

(** [getBalance]: [result?.amount ?? 0]. *)
Definition getBalance (db : Db) (type : BalanceType) : Z :=
  orZero (balances db !! type).

(** [updateBalance]: the direct overwrite; [changes > 0]. *)
Definition updateBalance (type : BalanceType) (newAmount : Z) (db : Db) : bool * Db :=
  match update_balance newAmount type db with
  | Some (changes, db') => (bool_decide (0 < changes), db')
  | None => (false, db)
  end.

(** ** Transaction functions *)

(** The body of [addTransaction] between BEGIN TRANSACTION and COMMIT. *)
Definition addTransaction_body (newId : string) (timestamp : Z)
    (data : NewTransactionData) : Sql Transaction :=
  categoryDetails ← select_category_name (d_categoryId data);
  match categoryDetails with
  | None => throw
  | Some name =>
      let isGain := is_gain_name name in
      currentBalanceResult ← select_balance (d_paymentMethod data);
      let currentBalance := orZero currentBalanceResult in
      let newBalance :=
        if isGain then currentBalance + d_amount data
        else currentBalance - d_amount data in
      changes ← update_balance newBalance (d_paymentMethod data);
      if bool_decide (changes = 0) then throw
      else
        _ ← insert_transaction newId
              (mkTransactionRow timestamp (d_paymentMethod data)
                 (d_categoryId data) (d_amount data) (d_reason data));
        mret (mkTransaction newId timestamp (d_paymentMethod data)
                (d_categoryId data) (d_amount data) (d_reason data) None)
  end.

(** [addTransaction]: [newId] is [uuidv4()], [timestamp] is [Date.now()].
    [None] is the [null] returned after ROLLBACK. *)
Definition addTransaction (newId : string) (timestamp : Z)
    (data : NewTransactionData) (db : Db) : option Transaction * Db :=
  match addTransaction_body newId timestamp data db with
  | Some (t, db') => (Some t, db')
  | None => (None, db)
  end.

(** The row fetched by the JOIN of [deleteTransaction]:
    [SELECT t.amount, t.paymentMethod, t.categoryId, c.name as categoryName
     FROM transactions t JOIN categories c ON t.categoryId = c.id
     WHERE t.id = ?]. *)
Definition select_transaction_join (tid : string)
    : Sql (option (TransactionRow * string)) := λ db,
  Some (row ← transactions db !! tid;
        c ← categories db !! tr_categoryId row;
        Some (row, cr_name c), db).

Definition deleteTransaction_body (transactionId : string) : Sql bool :=
  transactionToDelete ← select_transaction_join transactionId;
  match transactionToDelete with
  | None => mret false
  | Some (row, categoryName) =>
      changes ← delete_transaction_row transactionId;
      if bool_decide (changes = 0) then throw
      else
        currentBalanceResult ← select_balance (tr_paymentMethod row);
        let currentBalance := orZero currentBalanceResult in
        let isGain := is_gain_name categoryName in
        let newBalance :=
          if isGain then currentBalance - tr_amount row
          else currentBalance + tr_amount row in
        changes' ← update_balance newBalance (tr_paymentMethod row);
        if bool_decide (changes' = 0) then throw else mret true
  end.

(** [deleteTransaction] *)
Definition deleteTransaction (transactionId : string) (db : Db) : bool * Db :=
  match deleteTransaction_body transactionId db with
  | Some (r, db') => (r, db')
  | None => (false, db)
  end.

(** [data.reason || null]: the empty string is falsy. *)
Definition reason_or_null (r : option string) : option string :=
  match r with
  | Some EmptyString => None
  | _ => r
  end.

Definition updateTransaction_body (tid : string) (now : Z)
    (data : NewTransactionData) : Sql bool :=
  oldTransaction ← select_transaction tid;
  match oldTransaction with
  | None => throw
  | Some old =>
      oldCategory ← select_category_name (tr_categoryId old);
      newCategory ← select_category_name (d_categoryId data);
      match newCategory with
      | None => throw
      | Some _ =>
          let wasGain := is_gain_opt oldCategory in
          let isGain := is_gain_opt newCategory in
          _ ← (if bool_decide (tr_paymentMethod old ≠ d_paymentMethod data) then
                 let revertAmount :=
                   if wasGain then - tr_amount old else tr_amount old in
                 oldBalanceResult ← select_balance (tr_paymentMethod old);
                 let oldBalance := orZero oldBalanceResult in
                 _ ← update_balance (oldBalance + revertAmount) (tr_paymentMethod old);
                 let applyAmount :=
                   if isGain then d_amount data else - d_amount data in
                 newBalanceResult ← select_balance (d_paymentMethod data);
                 let newBalanceValue := orZero newBalanceResult in
                 update_balance (newBalanceValue + applyAmount) (d_paymentMethod data)
               else
                 let oldEffect :=
                   if wasGain then tr_amount old else - tr_amount old in
                 let newEffect :=
                   if isGain then d_amount data else - d_amount data in
                 let balanceAdjustment := newEffect - oldEffect in
                 currentBalanceResult ← select_balance (d_paymentMethod data);
                 let currentBalance := orZero currentBalanceResult in
                 update_balance (currentBalance + balanceAdjustment) (d_paymentMethod data));
          changes ← update_transaction_row tid
                      (mkTransactionRow now (d_paymentMethod data)
                         (d_categoryId data) (d_amount data)
                         (reason_or_null (d_reason data)));
          if bool_decide (changes = 0) then throw else mret true
      end
  end.

(** [updateTransaction]: [now] is the [Date.now()] of the row update. *)
Definition updateTransaction (tid : string) (now : Z)
    (data : NewTransactionData) (db : Db) : bool * Db :=
  match updateTransaction_body tid now data db with
  | Some (r, db') => (r, db')
  | None => (false, db)
  end.

(** ** The ledger: effects, their sum, and the operations as a state machine *)

(** Whether the category a row references is the Gain category: the name is
    re-resolved by id, as every operation does. *)
Definition row_is_gain (cats : gmap Z CategoryRow) (row : TransactionRow) : bool :=
  is_gain_opt (cr_name <$> cats !! tr_categoryId row).

(** The signed contribution of a row to the balance of its payment method. *)
Definition effect (cats : gmap Z CategoryRow) (row : TransactionRow) : Z :=
  if row_is_gain cats row then tr_amount row else - tr_amount row.

(** The contribution of a row to the balance of method [m]. *)
Definition effect_on (cats : gmap Z CategoryRow) (m : BalanceType)
    (row : TransactionRow) : Z :=
  if bool_decide (tr_paymentMethod row = m) then effect cats row else 0.

(** Sum of [effect] over the rows of [txs] whose payment method is [m]. *)
Definition sum_effects (cats : gmap Z CategoryRow) (m : BalanceType)
    (txs : gmap string TransactionRow) : Z :=
  map_fold (λ _ row acc, effect_on cats m row + acc) 0 txs.

Definition ledger_sum (db : Db) (m : BalanceType) : Z :=
  sum_effects (categories db) m (transactions db).

(** The global invariant of the data model. *)
Definition ledger_invariant (db : Db) : Prop :=
  ∀ m, getBalance db m = ledger_sum db m.

(** Exactly one balance row per payment method, as the initialisation
    leaves them ([INSERT OR IGNORE INTO balances ... ('gpay', 0.0),
    ('cash', 0.0)]). *)
Definition balances_initialised (db : Db) : Prop :=
  ∀ m, is_Some (balances db !! m).

(** The mutating operations of the ledger, with the values the runtime
    supplies to each call. *)
Inductive LedgerOp : Type :=
  | OpAdd (newId : string) (timestamp : Z) (data : NewTransactionData)
  | OpUpdate (tid : string) (now : Z) (data : NewTransactionData)
  | OpDelete (tid : string).

Definition apply_op (op : LedgerOp) (db : Db) : Db :=
  match op with
  | OpAdd newId timestamp data => (addTransaction newId timestamp data db).2
  | OpUpdate tid now data => (updateTransaction tid now data db).2
  | OpDelete tid => (deleteTransaction tid db).2
  end.

(** The states observable after each operation of a sequence. *)
Fixpoint ledger_trace (ops : list LedgerOp) (db : Db) : list Db :=
  match ops with
  | [] => []
  | op :: ops' => let db' := apply_op op db in db' :: ledger_trace ops' db'
  end.

(** ** Category functions *)

Definition is_space (c : ascii) : bool :=
  let n := nat_of_ascii c in
  (n =? 32)%nat || ((9 <=? n)%nat && (n <=? 13)%nat).

Fixpoint trimStart (s : string) : string :=
  match s with
  | EmptyString => EmptyString
  | String c s' => if is_space c then trimStart s' else s
  end.

Fixpoint trimEnd (s : string) : string :=
  match s with
  | EmptyString => EmptyString
  | String c s' =>
      match trimEnd s' with
      | EmptyString => if is_space c then EmptyString else String c EmptyString
      | r => String c r
      end
  end.

(** [String.prototype.trim] for ASCII white space. *)
Definition trim (s : string) : string := trimEnd (trimStart s).

(** [UPDATE categories SET name = ?, monthlyLimit = ? WHERE id = ?]; throws
    when another row already has the name (name TEXT UNIQUE). *)
Definition update_category_row (id : Z) (name : string) (limit : option Z) : Sql Z := λ db,
  match categories db !! id with
  | None => Some (0, db)
  | Some _ =>
      if bool_decide (map_Exists (λ k c, k ≠ id ∧ cr_name c = name) (categories db))
      then None
      else Some (1, with_categories (<[id := mkCategoryRow name limit]> (categories db)) db)
  end.

(** [DELETE FROM categories WHERE id = ?]; throws when a transaction
    references the row (FOREIGN KEY ... ON DELETE RESTRICT). *)
Definition delete_category_row (id : Z) : Sql Z := λ db,
  match categories db !! id with
  | None => Some (0, db)
  | Some _ =>
      if bool_decide (map_Exists (λ _ row, tr_categoryId row = id) (transactions db))
      then None
      else Some (1, with_categories (delete id (categories db)) db)
  end.

(** [updateCategory]: every [throw] is caught and turned into [false]. *)
Definition updateCategory (id : Z) (name : string) (limit : option Z) (db : Db)
    : bool * Db :=
  let trimmedName := trim name in
  if bool_decide (trimmedName = EmptyString) then (false, db)
  else if String.eqb (toLowerCase trimmedName) "all" then (false, db)
  else
    match update_category_row id trimmedName limit db with
    | Some (changes, db') => (bool_decide (0 < changes), db')
    | None => (false, db)
    end.

(** [deleteCategory] *)
Definition deleteCategory (id : Z) (db : Db) : bool * Db :=
  match delete_category_row id db with
  | Some (changes, db') => (bool_decide (0 < changes), db')
  | None => (false, db)
  end.

Definition category_of (kv : Z * CategoryRow) : Category :=
  mkCategory kv.1 (cr_name kv.2) (cr_monthlyLimit kv.2).

(** The order of [ORDER BY name ASC] (bytewise). *)
Definition name_le (a b : Category) : Prop := String.leb (c_name a) (c_name b) = true.

Global Instance name_le_dec a b : Decision (name_le a b).
Proof. unfold name_le. apply _. Defined.

(** [getAllCategories]: [SELECT * FROM categories ORDER BY name ASC]. *)
Definition getAllCategories (db : Db) : list Category :=
  merge_sort name_le (category_of <$> map_to_list (categories db)).

(** ** The category screen (ManageCategoriesScreen and CategoryModal) *)

(** [name.toLowerCase() === 'uncategorized' || name.toLowerCase() === 'gain'] *)
Definition is_reserved_name (name : string) : bool :=
  String.eqb (toLowerCase name) "uncategorized" || String.eqb (toLowerCase name) "gain".

Inductive DeleteOutcome : Set :=
  | CannotDelete        (* alert "Cannot Delete" *)
  | DeleteCancelled     (* the confirmation was dismissed *)
  | DeleteSuccess       (* alert "Success" *)
  | DeleteError.        (* alert "Error" *)

(** [handleDelete]; [confirmed] says whether the user presses "Delete" in
    the confirmation alert. *)
Definition handleDelete (category : Category) (confirmed : bool) (db : Db)
    : DeleteOutcome * Db :=
  if is_reserved_name (c_name category) then (CannotDelete, db)
  else if confirmed then
    let r := deleteCategory (c_id category) db in
    (if r.1 then DeleteSuccess else DeleteError, r.2)
  else (DeleteCancelled, db).

(** [openEditModal]: the category that becomes [editingCategory], if any. *)
Definition openEditModal (category : Category) : option Category :=
  if is_reserved_name (c_name category) then None else Some category.

(** What the limit field of the modal holds after [trim] and [parseFloat]. *)
Inductive LimitInput : Set :=
  | LimitBlank
  | LimitNaN
  | LimitNumber (v : Z).

Inductive SaveOutcome : Set :=
  | SaveValidationError   (* alert "Validation Error" *)
  | SaveCannotRename      (* alert "Cannot Rename" *)
  | SaveCalled (success : bool).

(** [handleSave] of CategoryModal; [onSave] is the callback prop. *)
Definition handleSave (initialData : option Category) (name : string)
    (limitInput : LimitInput)
    (onSave : string → option Z → Db → bool * Db) (db : Db) : SaveOutcome * Db :=
  let trimmedName := trim name in
  if bool_decide (trimmedName = EmptyString) then (SaveValidationError, db)
  else
    let checked : option (option Z) :=
      match limitInput with
      | LimitBlank => Some None
      | LimitNaN => None
      | LimitNumber v => if bool_decide (v < 0) then None else Some (Some v)
      end in
    match checked with
    | None => (SaveValidationError, db)
    | Some numericLimit =>
        match initialData with
        | Some initial =>
            if is_reserved_name (c_name initial)
               && negb (String.eqb (toLowerCase (c_name initial)) (toLowerCase trimmedName))
            then (SaveCannotRename, db)
            else let r := onSave trimmedName numericLimit db in (SaveCalled r.1, r.2)
        | None => let r := onSave trimmedName numericLimit db in (SaveCalled r.1, r.2)
        end
    end.

(** The [if (editingCategory)] branch of [handleSaveCategory], the [onSave]
    the screen passes to the modal while a category is being edited. *)
Definition handleSaveCategory_editing (editingCategory : Category)
    (name : string) (limit : option Z) (db : Db) : bool * Db :=
  updateCategory (c_id editingCategory) name limit db.

(** ** JavaScript [Date] in a zone at a fixed offset from UTC

    A [Date] is its time value (milliseconds since the epoch); local time is
    UTC plus [tz] milliseconds. *)

Definition msPerDay : Z := 86400000.

(** Days from 1970-01-01 to the first of month [m] (1..12) of year [y]. *)
Definition days_from_civil (y m : Z) : Z :=
  let y' := if m <=? 2 then y - 1 else y in
  let era := y' / 400 in
  let yoe := y' - era * 400 in
  let mp := if 2 <? m then m - 3 else m + 9 in
  let doy := (153 * mp + 2) / 5 in
  let doe := yoe * 365 + yoe / 4 - yoe / 100 + doy in
  era * 146097 + doe - 719468.

(** [new Date(year, monthIndex, day).getTime()]: the month index and the day
    overflow into the neighbouring months and years, and a year in 0..99
    means 1900 + year. *)
Definition newDate (tz year monthIndex day : Z) : Z :=
  let yr := if (0 <=? year) && (year <=? 99) then 1900 + year else year in
  let ym := yr + monthIndex / 12 in
  let mn := monthIndex mod 12 in
  (days_from_civil ym (mn + 1) + (day - 1)) * msPerDay - tz.

(** [d.setHours(h, m, s, ms); d.getTime()] *)
Definition setHours (tz d h m s ms : Z) : Z :=
  let local := d + tz in
  local - local mod msPerDay + (((h * 60 + m) * 60 + s) * 1000 + ms) - tz.

(** ** SQL LIKE (ASCII case folding, [%] and [_] wildcards, no ESCAPE) *)

Fixpoint like_match (p s : list ascii) : bool :=
  match p with
  | [] => match s with [] => true | _ => false end
  | c :: p' =>
      if Ascii.eqb c "%" then
        (fix skip (s : list ascii) : bool :=
           like_match p' s
           || match s with
              | [] => false
              | _ :: s' => skip s'
              end) s
      else
        match s with
        | [] => false
        | d :: s' =>
            (Ascii.eqb c "_" || Ascii.eqb (lower_ascii c) (lower_ascii d))
            && like_match p' s'
        end
  end.

(** [reason LIKE pattern]; NULL LIKE anything is not true. *)
Definition sql_like (reason : option string) (pattern : string) : bool :=
  match reason with
  | Some r => like_match (list_ascii_of_string pattern) (list_ascii_of_string r)
  | None => false
  end.

(** ** [getAllTransactions] *)

Inductive PaymentMethodFilter : Set :=
  | AllMethods                       (* 'all' *)
  | OnlyMethod (m : BalanceType).

(** [type TransactionFilters]; [None] is an absent (or null) key. *)
Record TransactionFilters : Type := mkTransactionFilters {
  f_startDate : option Z;
  f_endDate : option Z;
  f_paymentMethod : option PaymentMethodFilter;
  f_category : option string;
  f_searchText : option string;
  f_year : option Z;
  f_month : option Z;
  f_limit : option Z
}.

Definition with_limit (l : option Z) (f : TransactionFilters) : TransactionFilters :=
  mkTransactionFilters (f_startDate f) (f_endDate f) (f_paymentMethod f)
    (f_category f) (f_searchText f) (f_year f) (f_month f) l.

(** A row of [transactions t JOIN categories c ON t.categoryId = c.id]. *)
Definition join_category (cats : gmap Z CategoryRow) (kv : string * TransactionRow)
    : option Transaction :=
  c ← cats !! tr_categoryId kv.2;
  Some (mkTransaction kv.1 (tr_timestamp kv.2) (tr_paymentMethod kv.2)
          (tr_categoryId kv.2) (tr_amount kv.2) (tr_reason kv.2) (Some (cr_name c))).

Definition joined_rows (db : Db) : list Transaction :=
  omap (join_category (categories db)) (map_to_list (transactions db)).

(** One element of [whereClauses], with its parameters bound. *)
Definition WhereClause : Type := Transaction → bool.

(** 1. Date filter: [startDate], then [endDate] or else [year] and [month]. *)
Definition date_clauses (tz : Z) (filters : TransactionFilters) : list WhereClause :=
  match f_startDate filters with
  | Some startDate =>
      let startOfDay := setHours tz startDate 0 0 0 0 in
      [λ t, startOfDay <=? t_timestamp t]
  | None => []
  end
  ++
  match f_endDate filters with
  | Some endDate =>
      let endOfDay := setHours tz endDate 23 59 59 999 in
      [λ t, t_timestamp t <=? endOfDay]
  | None =>
      match f_year filters, f_month filters with
      | Some year, Some month =>
          if bool_decide (year ≠ 0) && bool_decide (month ≠ 0) then
            let startTimestamp := newDate tz year (month - 1) 1 in
            let endTimestamp := newDate tz year month 0 + (24 * 60 * 60 * 1000 - 1) in
            [λ t, (startTimestamp <=? t_timestamp t) && (t_timestamp t <=? endTimestamp)]
          else []
      | _, _ => []
      end
  end.

(** 2. Payment method filter. *)
Definition method_clauses (filters : TransactionFilters) : list WhereClause :=
  match f_paymentMethod filters with
  | Some (OnlyMethod m) => [λ t, bool_decide (t_paymentMethod t = m)]
  | _ => []
  end.

(** 3. Category filter: [filters.category && filters.category !== 'all']. *)
Definition category_clauses (filters : TransactionFilters) : list WhereClause :=
  match f_category filters with
  | Some category =>
      if bool_decide (category ≠ EmptyString) && bool_decide (category ≠ "all")
      then [λ t, bool_decide (t_categoryName t = Some category)]
      else []
  | None => []
  end.

(** 4. Search text filter. *)
Definition search_clauses (filters : TransactionFilters) : list WhereClause :=
  match f_searchText filters with
  | Some searchText =>
      if bool_decide (searchText ≠ EmptyString) && bool_decide (trim searchText ≠ EmptyString)
      then [λ t, sql_like (t_reason t) ("%" +:+ trim searchText +:+ "%")]
      else []
  | None => []
  end.

Definition whereClauses (tz : Z) (filters : TransactionFilters) : list WhereClause :=
  date_clauses tz filters ++ method_clauses filters
  ++ category_clauses filters ++ search_clauses filters.

(** [whereClauses.join(' AND ')] *)
Definition where_holds (clauses : list WhereClause) (t : Transaction) : Prop :=
  Forall (λ clause, clause t = true) clauses.

Global Instance where_holds_dec clauses t : Decision (where_holds clauses t).
Proof. unfold where_holds. apply _. Defined.

(** [ORDER BY t.timestamp DESC] *)
Definition newest_first (a b : Transaction) : Prop := t_timestamp b ≤ t_timestamp a.

Global Instance newest_first_dec a b : Decision (newest_first a b).
Proof. unfold newest_first. apply _. Defined.

(** [LIMIT ?], appended when [filters.limit && filters.limit > 0]. *)
Definition apply_limit (limit : option Z) (rows : list Transaction) : list Transaction :=
  match limit with
  | Some l => if bool_decide (l ≠ 0) && bool_decide (0 < l) then take (Z.to_nat l) rows else rows
  | None => rows
  end.

Definition getAllTransactions (tz : Z) (filters : TransactionFilters) (db : Db)
    : list Transaction :=
  apply_limit (f_limit filters)
    (merge_sort newest_first
       (filter (where_holds (whereClauses tz filters)) (joined_rows db))).

(** ** Test data generation

    [Math.random()] is a stream [rng] of integers read at a position that
    advances with every call; the number returned is [rng k mod 2^53] over
    [2^53], a rational in [0, 1). [uuidv4()] is a stream [uuids] read at
    [insertedCount]. *)

Definition two53 : Z := 9007199254740992.

Definition random (rng : nat → Z) (k : nat) : Q :=
  Qmake (rng k mod two53) (Z.to_pos two53).

(** [a < b] on rationals. *)
Definition Qltb (a b : Q) : bool :=
  Qnum a * Z.pos (Qden b) <? Qnum b * Z.pos (Qden a).

(** [Math.floor(r * n)] *)
Definition floor_times (r : Q) (n : Z) : Z := Qfloor (Qmult r (inject_Z n)).

(** [Math.random() < 0.1] *)
Definition below_tenth (r : Q) : bool := Qltb r (Qmake 1 10).

(** An element of [transactionsToAdd]. *)
Record TestTransaction : Type := mkTestTransaction {
  tt_paymentMethod : BalanceType;
  tt_categoryId : Z;
  tt_amount : Z;
  tt_reason : string;
  tt_timestamp : Z
}.

Definition paymentMethods : list BalanceType := [gpay; cash].

Definition reasons : list string :=
  ["Coffee"; "Lunch"; "Groceries"; "Salary"; "Movie Ticket"; "Bus Fare";
   "Snacks"; "Gift"; "Freelance Payment"; "Dinner"].

(** [const isGain = gainCategory && Math.random() < 0.1]: the draw is made
    only when a Gain category exists. The result is the flag and the next
    position of the stream. *)
Definition choose_gain (rng : nat → Z) (gainCategory : option Category) (k : nat)
    : bool * nat :=
  match gainCategory with
  | Some _ => (below_tenth (random rng k), S k)
  | None => (false, k)
  end.

(** [arr[Math.floor(Math.random() * arr.length)]] *)
Definition random_element {A : Type} (rng : nat → Z) (k : nat) (arr : list A) : option A :=
  arr !! Z.to_nat (floor_times (random rng k) (Z.of_nat (length arr))).

(** The category and amount of one iteration: [Some None] is the
    [continue] of the loop, [None] a TypeError on an undefined element. *)
Definition choose_category (rng : nat → Z) (gainCategory : option Category)
    (expenseCategories : list Category) (isGain : bool) (k : nat)
    : option (option (Z * Z) * nat) :=
  match isGain, gainCategory with
  | true, Some g =>
      let amount := floor_times (random rng k) (20000 - 5000 + 1) + 5000 in
      Some (Some (c_id g, amount), S k)
  | _, _ =>
      if bool_decide (0 < length expenseCategories)%nat then
        randomCategory ← random_element rng k expenseCategories;
        let amount := floor_times (random rng (S k)) (3000 - 50 + 1) + 50 in
        Some (Some (c_id randomCategory, amount), S (S k))
      else Some (None, k)
  end.

(** The body of the first loop of [generateTestDataForMonth]: the
    transaction pushed, if any, and the next position of the stream. *)
Definition pick_test_transaction (rng : nat → Z) (gainCategory : option Category)
    (expenseCategories : list Category) (firstDayOfMonth timeRange : Z) (k : nat)
    : option (option TestTransaction * nat) :=
  let g := choose_gain rng gainCategory k in
  chosen ← choose_category rng gainCategory expenseCategories g.1 g.2;
  match chosen with
  | (None, k1) => Some (None, k1)
  | (Some (categoryId, amount), k1) =>
      paymentMethod ← random_element rng k1 paymentMethods;
      reason ← random_element rng (S k1) reasons;
      let timestamp :=
        firstDayOfMonth + floor_times (random rng (S (S k1))) timeRange in
      Some (Some (mkTestTransaction paymentMethod categoryId amount
                    (reason +:+ " (Test)") timestamp),
            S (S (S k1)))
  end.

(** [for (let i = 0; i < count; i++) { ... }] *)
Fixpoint pick_test_transactions (rng : nat → Z) (gainCategory : option Category)
    (expenseCategories : list Category) (firstDayOfMonth timeRange : Z)
    (count : nat) (k : nat) : option (list TestTransaction) :=
  match count with
  | O => Some []
  | S count' =>
      picked ← pick_test_transaction rng gainCategory expenseCategories
                 firstDayOfMonth timeRange k;
      rest ← pick_test_transactions rng gainCategory expenseCategories
               firstDayOfMonth timeRange count' picked.2;
      Some (match picked.1 with
            | Some transData => transData :: rest
            | None => rest
            end)
  end.

(** [UPDATE balances SET amount = amount - ? WHERE type = ?] *)
Definition decrement_balance (delta : Z) (m : BalanceType) : Sql Z := λ db,
  match balances db !! m with
  | Some b => Some (1, with_balances (<[m := b - delta]> (balances db)) db)
  | None => Some (0, db)
  end.

(** [categories.find(c => c.id === transData.categoryId)] *)
Definition find_category (categories : list Category) (id : Z) : option Category :=
  List.find (λ c, c_id c =? id) categories.

(** The body of the second loop: the balance step, then the insertion when
    [success]. The result is [success]. *)
Definition insert_test_transaction (categories : list Category) (newId : string)
    (transData : TestTransaction) : Sql bool :=
  let category := find_category categories (tt_categoryId transData) in
  let isGain := is_gain_opt (c_name <$> category) in
  let amount := tt_amount transData in
  let paymentMethod := tt_paymentMethod transData in
  success ← (if isGain then
               _ ← increment_balance amount paymentMethod;
               mret true
             else
               currentBalanceResult ← select_balance paymentMethod;
               if bool_decide (amount ≤ orZero currentBalanceResult) then
                 _ ← decrement_balance amount paymentMethod;
                 mret true
               else mret false);
  if success : bool then
    _ ← insert_transaction newId
          (mkTransactionRow (tt_timestamp transData) (tt_paymentMethod transData)
             (tt_categoryId transData) (tt_amount transData)
             (reason_or_null (Some (tt_reason transData))));
    mret true
  else mret false.

(** [for (const transData of transactionsToAdd) { ... }]; the result is
    [insertedCount]. *)
Fixpoint insert_test_transactions (categories : list Category) (uuids : nat → string)
    (insertedCount : nat) (transactionsToAdd : list TestTransaction) : Sql nat :=
  match transactionsToAdd with
  | [] => mret insertedCount
  | transData :: rest =>
      success ← insert_test_transaction categories (uuids insertedCount) transData;
      insert_test_transactions categories uuids
        (if success : bool then S insertedCount else insertedCount) rest
  end.

(** [generateTestDataForMonth]: [withTransactionAsync] commits the whole
    second loop or rolls all of it back. *)
Definition generateTestDataForMonth (tz : Z) (rng : nat → Z) (uuids : nat → string)
    (year month : Z) (count : nat) (db : Db) : bool * Db :=
  let categories := getAllCategories db in
  let expenseCategories :=
    List.filter (λ c, negb (is_gain_name (c_name c))) categories in
  let gainCategory := List.find (λ c, is_gain_name (c_name c)) categories in
  if bool_decide (length expenseCategories = 0%nat) && bool_decide (gainCategory = None)
  then (false, db)
  else
    let firstDayOfMonth := newDate tz year (month - 1) 1 in
    let firstDayOfNextMonth := newDate tz year month 1 in
    let timeRange := firstDayOfNextMonth - firstDayOfMonth in
    match pick_test_transactions rng gainCategory expenseCategories
            firstDayOfMonth timeRange count 0 with
    | None => (false, db)
    | Some transactionsToAdd =>
        match insert_test_transactions categories uuids 0 transactionsToAdd db with
        | Some (_, db') => (true, db')
        | None => (false, db)
        end
    end.

(** ** The remaining functions of [database.ts] *)

(** The object returned by [getAllBalances]. *)
Record AllBalances : Type := mkAllBalances {
  ab_gpay : Z;
  ab_cash : Z
}.

(** [getAllBalances]: [SELECT type, amount FROM balances], reduced into an
    object keyed by type, then read with [?? 0]. *)
Definition getAllBalances (db : Db) : AllBalances :=
  let allRows := map_to_list (balances db) in
  let acc : gmap BalanceType Z :=
    foldl (λ acc row, <[row.1 := row.2]> acc) ∅ allRows in
  mkAllBalances (orZero (acc !! gpay)) (orZero (acc !! cash)).

(** [getGainCategoryId]: [SELECT id FROM categories WHERE name = 'Gain'],
    first row (the name is UNIQUE, so there is at most one). The comparison
    is the exact one of SQL, not the case-insensitive one of the ledger. *)
Definition getGainCategoryId (db : Db) : option Z :=
  fst <$> head (filter (λ kv : Z * CategoryRow, cr_name kv.2 = "Gain")
                  (map_to_list (categories db))).

(** [INSERT INTO categories (name, monthlyLimit) VALUES (?, ?)]: throws when
    the name is taken. [rowid] is the id AUTOINCREMENT assigns, a value of
    the storage engine; the result is [lastInsertRowId]. *)
Definition insert_category_row (rowid : Z) (name : string) (limit : option Z)
    : Sql Z := λ db,
  if bool_decide (map_Exists (λ _ c, cr_name c = name) (categories db)) then None
  else
    match categories db !! rowid with
    | Some _ => None
    | None =>
        Some (rowid,
              with_categories (<[rowid := mkCategoryRow name limit]> (categories db)) db)
    end.

(** [addCategory]; [None] is the [null] returned on failure. *)
Definition addCategory (rowid : Z) (name : string) (limit : option Z) (db : Db)
    : option Category * Db :=
  let trimmedName := trim name in
  if bool_decide (trimmedName = EmptyString) then (None, db)
  else if String.eqb (toLowerCase trimmedName) "all" then (None, db)
  else
    match insert_category_row rowid trimmedName limit db with
    | Some (lastInsertRowId, db') =>
        if bool_decide (lastInsertRowId ≠ 0) then
          ((λ c, mkCategory lastInsertRowId (cr_name c) (cr_monthlyLimit c))
             <$> categories db' !! lastInsertRowId, db')
        else (None, db')
    | None => (None, db)
    end.

(** [getTransactionById]: the row LEFT JOINed with its category, so the
    category name is [null] when the category is missing. *)
Definition getTransactionById (id : string) (db : Db) : option Transaction :=
  row ← transactions db !! id;
  Some (mkTransaction id (tr_timestamp row) (tr_paymentMethod row)
          (tr_categoryId row) (tr_amount row) (tr_reason row)
          (cr_name <$> categories db !! tr_categoryId row)).

(** ** Constraints of the schema *)

(** FOREIGN KEY (categoryId) REFERENCES categories(id). *)
Definition foreign_keys_ok (db : Db) : Prop :=
  ∀ tid row, transactions db !! tid = Some row →
    is_Some (categories db !! tr_categoryId row).

(** name TEXT UNIQUE. *)
Definition names_unique (db : Db) : Prop :=
  ∀ i j ci cj, categories db !! i = Some ci → categories db !! j = Some cj →
    cr_name ci = cr_name cj → i = j.

(** No balance is negative. *)
Definition balances_nonnegative (db : Db) : Prop :=
  ∀ m, 0 ≤ getBalance db m.

(** The three schema constraints together. *)
Definition schema_ok (db : Db) : Prop :=
  foreign_keys_ok db ∧ names_unique db ∧ balances_initialised db.

(** Every normal outcome of a statement sequence keeps [P]. *)
Definition sql_preserves {A : Type} (P : Db → Prop) (m : Sql A) : Prop :=
  ∀ db a db', P db → m db = Some (a, db') → P db'.

(** Sum of [f] over the rows of the transactions table. *)
Definition sum_rows (f : TransactionRow → Z) (txs : gmap string TransactionRow) : Z :=
  map_fold (λ _ row acc, f row + acc) 0 txs.

(** Total amount of the transactions on method [m] that reference category
    [id]. *)
Definition referencing_amount (id : Z) (m : BalanceType) (row : TransactionRow) : Z :=
  if bool_decide (tr_categoryId row = id) && bool_decide (tr_paymentMethod row = m)
  then tr_amount row else 0.

(** What the first loop of [generateTestDataForMonth] produces: a Gain
    transaction of 5000..20000 or an expense of 50..3000, a reason of the
    list with the suffix, a time stamp in the range when it is not empty. *)
Definition generated_ok (gainCategory : option Category)
    (expenseCategories : list Category) (firstDayOfMonth timeRange : Z)
    (transData : TestTransaction) : Prop :=
  ((∃ g, gainCategory = Some g ∧ tt_categoryId transData = c_id g
         ∧ 5000 ≤ tt_amount transData ≤ 20000)
   ∨ (∃ c, c ∈ expenseCategories ∧ tt_categoryId transData = c_id c
           ∧ 50 ≤ tt_amount transData ≤ 3000))
  ∧ (∃ reason, reason ∈ reasons ∧ tt_reason transData = reason +:+ " (Test)")
  ∧ (0 < timeRange →
     firstDayOfMonth ≤ tt_timestamp transData < firstDayOfMonth + timeRange).

(** A row inserted by [generateTestDataForMonth] for the month starting at
    [firstDayOfMonth] and lasting [timeRange] milliseconds. *)
Definition generated_row (cats : gmap Z CategoryRow) (firstDayOfMonth timeRange : Z)
    (row : TransactionRow) : Prop :=
  firstDayOfMonth ≤ tr_timestamp row < firstDayOfMonth + timeRange
  ∧ (if row_is_gain cats row then 5000 ≤ tr_amount row ≤ 20000
     else 50 ≤ tr_amount row ≤ 3000)
  ∧ ∃ reason, reason ∈ reasons ∧ tr_reason row = Some (reason +:+ " (Test)").

(** The filter the analyzer screen passes: only [year] and [month]. *)
Definition month_filter (year month : Z) : TransactionFilters :=
  mkTransactionFilters None None None None None (Some year) (Some month) None.

(** A search text without the wildcards of LIKE. *)
Definition no_wildcard (s : list ascii) : Prop :=
  Forall (λ c, c ≠ "%"%char ∧ c ≠ "_"%char) s.

(** Equality of two texts up to the case of ASCII letters. *)
Definition same_letters (a b : list ascii) : Prop :=
  lower_ascii <$> a = lower_ascii <$> b.

(** ** The budget screen and the all-transactions screen *)

(** What [parseFloat] makes of an input field. *)
Inductive ParsedNumber : Set :=
  | NotANumber
  | Number (v : Z).

Inductive FormOutcome : Set :=
  | NothingToDo         (* the handler returns at once *)
  | InvalidAmount       (* alert "Invalid Amount" *)
  | MissingCategory     (* alert "Missing Category" *)
  | Succeeded           (* the database call returned true / a transaction *)
  | Failed.             (* alert "Error" *)

(** [handleSaveBalance] of the budget screen. *)
Definition handleSaveBalance (currentEditingBalanceType : option BalanceType)
    (newAmountInput : ParsedNumber) (db : Db) : FormOutcome * Db :=
  match currentEditingBalanceType with
  | None => (NothingToDo, db)
  | Some type =>
      match newAmountInput with
      | NotANumber => (InvalidAmount, db)
      | Number amount =>
          if bool_decide (amount < 0) then (InvalidAmount, db)
          else
            let r := updateBalance type amount db in
            (if r.1 then Succeeded else Failed, r.2)
      end
  end.

(** [inputReason.trim() || undefined] *)
Definition trimmed_reason (inputReason : string) : option string :=
  if bool_decide (trim inputReason = EmptyString) then None else Some (trim inputReason).

(** [handleAddNewTransaction] of the budget screen. *)
Definition handleAddNewTransaction (newId : string) (timestamp : Z)
    (inputAmount : ParsedNumber) (inputReason : string)
    (inputPaymentMethod : BalanceType) (inputCategoryId : option Z) (db : Db)
    : FormOutcome * Db :=
  match inputAmount with
  | NotANumber => (InvalidAmount, db)
  | Number amount =>
      if bool_decide (amount ≤ 0) then (InvalidAmount, db)
      else
        match inputCategoryId with
        | None => (MissingCategory, db)
        | Some categoryId =>
            let transactionData :=
              mkNewTransactionData inputPaymentMethod categoryId amount
                (trimmed_reason inputReason) in
            let r := addTransaction newId timestamp transactionData db in
            (match r.1 with Some _ => Succeeded | None => Failed end, r.2)
        end
  end.

(** [handleSaveChanges] of the all-transactions screen: only a value that is
    not a number is refused. *)
Definition handleSaveChanges (editingTransaction : option Transaction) (now : Z)
    (editInputAmount : ParsedNumber) (editInputReason : string)
    (editInputPaymentMethod : BalanceType) (editInputCategoryId : option Z)
    (db : Db) : FormOutcome * Db :=
  match editingTransaction with
  | None => (NothingToDo, db)
  | Some editing =>
      match editInputAmount with
      | NotANumber => (InvalidAmount, db)
      | Number amount =>
          match editInputCategoryId with
          | None => (MissingCategory, db)
          | Some categoryId =>
              let updatedData :=
                mkNewTransactionData editInputPaymentMethod categoryId amount
                  (trimmed_reason editInputReason) in
              let r := updateTransaction (t_id editing) now updatedData db in
              (if r.1 then Succeeded else Failed, r.2)
          end
      end
  end.

(** Every stored amount is positive. *)
Definition amounts_positive (db : Db) : Prop :=
  ∀ tid row, transactions db !! tid = Some row → 0 < tr_amount row.

(** ** The monthly analyzer screen *)

(** [new Date(t).getDate()]: the day of the month, local time. *)
Definition getDate (tz t : Z) : Z :=
  let z := (t + tz) / msPerDay + 719468 in
  let era := z / 146097 in
  let doe := z - era * 146097 in
  let yoe := (doe - doe / 1460 + doe / 36524 - doe / 146096) / 365 in
  let doy := doe - (365 * yoe + yoe / 4 - yoe / 100) in
  let mp := (5 * doy + 2) / 153 in
  doy - (153 * mp + 2) / 5 + 1.

(** An entry of [categoryExpensesData]. *)
Record CategoryExpense : Type := mkCategoryExpense {
  ce_amount : Z;
  ce_count : Z
}.

(** The state [fetchData] sets after its loop. Objects used as dictionaries
    are finite maps; a category name that is a member of Object.prototype is
    outside the model. *)
Record Analysis : Type := mkAnalysis {
  an_groupedTransactions : gmap string (list Transaction);
  an_totalIncome : Z;
  an_totalExpenses : Z;
  an_dailyExpenses : gmap string Z;
  an_categoryExpensesData : gmap string CategoryExpense
}.

Definition empty_analysis : Analysis := mkAnalysis ∅ 0 0 ∅ ∅.

(** [tx.categoryName || 'Uncategorized'] *)
Definition category_label (tx : Transaction) : string :=
  match t_categoryName tx with
  | Some EmptyString | None => "Uncategorized"
  | Some name => name
  end.

(** [gainCategoryId && tx.categoryId === gainCategoryId] *)
Definition is_income (gainCategoryId : option Z) (tx : Transaction) : bool :=
  match gainCategoryId with
  | Some g => bool_decide (g ≠ 0) && bool_decide (t_categoryId tx = g)
  | None => false
  end.

(** [tx.categoryId && excludedCategoryIds.includes(tx.categoryId)] *)
Definition is_excluded (excludedCategoryIds : list Z) (tx : Transaction) : bool :=
  bool_decide (t_categoryId tx ≠ 0) && bool_decide (t_categoryId tx ∈ excludedCategoryIds).

(** One iteration of the loop of [fetchData]; [None] is the [return] taken
    on a transaction of an excluded category, which leaves the function
    before any state is set. *)
Definition analyze_transaction (tz : Z) (gainCategoryId : option Z)
    (excludedCategoryIds : list Z) (acc : Analysis) (tx : Transaction)
    : option Analysis :=
  let dayOfMonth : string := pretty (getDate tz (t_timestamp tx)) in
  if is_excluded excludedCategoryIds tx then None
  else
    let transactionsByDate :=
      <[dayOfMonth := default [] (an_groupedTransactions acc !! dayOfMonth) ++ [tx]]>
        (an_groupedTransactions acc) in
    if is_income gainCategoryId tx then
      Some (mkAnalysis transactionsByDate
              (an_totalIncome acc + Z.abs (t_amount tx))
              (an_totalExpenses acc)
              (an_dailyExpenses acc)
              (an_categoryExpensesData acc))
    else
      let categoryName := category_label tx in
      let entry :=
        default (mkCategoryExpense 0 0) (an_categoryExpensesData acc !! categoryName) in
      Some (mkAnalysis transactionsByDate
              (an_totalIncome acc)
              (an_totalExpenses acc + Z.abs (t_amount tx))
              (<[dayOfMonth :=
                   orZero (an_dailyExpenses acc !! dayOfMonth) + Z.abs (t_amount tx)]>
                 (an_dailyExpenses acc))
              (<[categoryName :=
                   mkCategoryExpense (ce_amount entry + Z.abs (t_amount tx))
                     (ce_count entry + 1)]>
                 (an_categoryExpensesData acc))).

(** [for (let i = 0; i < txCount; i++) { ... }] *)
Fixpoint analyze_transactions (tz : Z) (gainCategoryId : option Z)
    (excludedCategoryIds : list Z) (acc : Analysis)
    (fetchedTransactions : list Transaction) : option Analysis :=
  match fetchedTransactions with
  | [] => Some acc
  | tx :: rest =>
      acc' ← analyze_transaction tz gainCategoryId excludedCategoryIds acc tx;
      analyze_transactions tz gainCategoryId excludedCategoryIds acc' rest
  end.

(** [fetchData] of the analyzer: the transactions of the selected month
    (0-based) and what is computed from them. *)
Definition analyzer_fetchData (tz selectedYear selectedMonth : Z)
    (gainCategoryId : option Z) (excludedCategoryIds : list Z) (db : Db)
    : list Transaction * option Analysis :=
  let fetchedTransactions :=
    getAllTransactions tz
      (mkTransactionFilters None None None None None
         (Some selectedYear) (Some (selectedMonth + 1)) None) db in
  (fetchedTransactions,
   analyze_transactions tz gainCategoryId excludedCategoryIds empty_analysis
     fetchedTransactions).

(** ** The ledger in IEEE 754 double precision

    The amounts of [database.ts] are JavaScript numbers kept in REAL
    columns: binary64 floating point. The sections above keep them as exact
    integers, which is what the code computes as long as every amount is a
    whole number and no value reaches 2^53. This module repeats the three
    ledger operations with the arithmetic of the code itself, for the
    statements that depend on rounding. [SpecFloat] is the specification of
    IEEE 754 arithmetic of the Standard Library; 53 and 1024 are the
    precision and the exponent bound of binary64.

    Category rows are shared with the sections above (the ledger reads only
    their names). SQLite stores a NaN as NULL, which the NOT NULL
    constraints on [balances.amount] and [transactions.amount] refuse, so
    writing a NaN throws. Infinities are stored as they are. A zero keeps
    the sign IEEE 754 gives it; no statement below depends on the sign of a
    zero. *)

Module Binary64.

Abbreviation number := SpecFloat.spec_float.

(** [x + y], [x - y] and [-x] on numbers. *)
Definition fadd : number → number → number := SpecFloat.SFadd 53 1024.
Definition fsub : number → number → number := SpecFloat.SFsub 53 1024.
Definition fdiv : number → number → number := SpecFloat.SFdiv 53 1024.
Definition fopp : number → number := SpecFloat.SFopp.

(** The number written as the integer [z]. *)
Definition ofZ (z : Z) : number := SpecFloat.binary_normalize 53 1024 z 0 false.

(** The number written as the decimal [n / 10^k], for example [decimal 1 1]
    for [0.1]: the double nearest to it, as [parseFloat] returns it ([n] and
    [10^k] below 2^53). *)
Definition decimal (n k : Z) : number := fdiv (ofZ n) (ofZ (10 ^ k)).

Definition is_nan (x : number) : bool :=
  match x with SpecFloat.S754_nan => true | _ => false end.

Definition is_finite (x : number) : bool :=
  match x with
  | SpecFloat.S754_zero _ | SpecFloat.S754_finite _ _ _ => true
  | _ => false
  end.

(** The exact value of a finite number, counted in units of 2^-1074 (the
    smallest positive double; every finite double is a whole number of
    them). *)
Definition units (x : number) : Z :=
  match x with
  | SpecFloat.S754_finite s m e => SpecFloat.cond_Zopp s (Z.pos m * 2 ^ (e + 1074))
  | _ => 0
  end.

Record TransactionRow : Type := mkTransactionRow {
  tr_timestamp : Z;
  tr_paymentMethod : BalanceType;
  tr_categoryId : Z;
  tr_amount : number;
  tr_reason : option string
}.

Record Transaction : Type := mkTransaction {
  t_id : string;
  t_timestamp : Z;
  t_paymentMethod : BalanceType;
  t_categoryId : Z;
  t_amount : number;
  t_reason : option string;
  t_categoryName : option string
}.

Record NewTransactionData : Type := mkNewTransactionData {
  d_paymentMethod : BalanceType;
  d_categoryId : Z;
  d_amount : number;
  d_reason : option string
}.

Record Db : Type := mkDb {
  categories : gmap Z CategoryRow;
  balances : gmap BalanceType number;
  transactions : gmap string TransactionRow
}.

Definition with_balances (b : gmap BalanceType number) (db : Db) : Db :=
  mkDb (categories db) b (transactions db).

Definition with_transactions (t : gmap string TransactionRow) (db : Db) : Db :=
  mkDb (categories db) (balances db) t.

Definition Sql (A : Type) : Type := Db → option (A * Db).

#[local] Instance Sql_ret : MRet Sql := λ A a db, Some (a, db).

#[local] Instance Sql_bind : MBind Sql := λ A B f m db,
  match m db with
  | Some (a, db') => f a db'
  | None => None
  end.

Definition throw {A : Type} : Sql A := λ _, None.

(** [SELECT name FROM categories WHERE id = ?] *)
Definition select_category_name (cid : Z) : Sql (option string) := λ db,
  Some (cr_name <$> categories db !! cid, db).

(** [SELECT amount FROM balances WHERE type = ?] *)
Definition select_balance (m : BalanceType) : Sql (option number) := λ db,
  Some (balances db !! m, db).

(** [UPDATE balances SET amount = ? WHERE type = ?]; the result is
    [changes]. *)
Definition update_balance (v : number) (m : BalanceType) : Sql Z := λ db,
  match balances db !! m with
  | Some _ =>
      if is_nan v then None
      else Some (1, with_balances (<[m := v]> (balances db)) db)
  | None => Some (0, db)
  end.

(** [SELECT amount, paymentMethod, categoryId FROM transactions WHERE id = ?] *)
Definition select_transaction (tid : string) : Sql (option TransactionRow) := λ db,
  Some (transactions db !! tid, db).

(** [INSERT INTO transactions ... VALUES ...] *)
Definition insert_transaction (tid : string) (row : TransactionRow) : Sql unit := λ db,
  match transactions db !! tid, categories db !! tr_categoryId row with
  | None, Some _ =>
      if is_nan (tr_amount row) then None
      else Some (tt, with_transactions (<[tid := row]> (transactions db)) db)
  | _, _ => None
  end.

(** [DELETE FROM transactions WHERE id = ?] *)
Definition delete_transaction_row (tid : string) : Sql Z := λ db,
  match transactions db !! tid with
  | Some _ => Some (1, with_transactions (delete tid (transactions db)) db)
  | None => Some (0, db)
  end.

(** [UPDATE transactions SET amount = ?, reason = ?, paymentMethod = ?,
    categoryId = ?, timestamp = ? WHERE id = ?] *)
Definition update_transaction_row (tid : string) (row : TransactionRow) : Sql Z := λ db,
  match transactions db !! tid with
  | None => Some (0, db)
  | Some _ =>
      match categories db !! tr_categoryId row with
      | Some _ =>
          if is_nan (tr_amount row) then None
          else Some (1, with_transactions (<[tid := row]> (transactions db)) db)
      | None => None
      end
  end.

(** The JOIN of [deleteTransaction]. *)
Definition select_transaction_join (tid : string)
    : Sql (option (TransactionRow * string)) := λ db,
  Some (row ← transactions db !! tid;
        c ← categories db !! tr_categoryId row;
        Some (row, cr_name c), db).

(** [x ?? 0] *)
Definition orZero (x : option number) : number := default (ofZ 0) x.

(** [getBalance] *)
Definition getBalance (db : Db) (type : BalanceType) : number :=
  orZero (balances db !! type).

Definition addTransaction_body (newId : string) (timestamp : Z)
    (data : NewTransactionData) : Sql Transaction :=
  categoryDetails ← select_category_name (d_categoryId data);
  match categoryDetails with
  | None => throw
  | Some name =>
      let isGain := is_gain_name name in
      currentBalanceResult ← select_balance (d_paymentMethod data);
      let currentBalance := orZero currentBalanceResult in
      let newBalance :=
        if isGain then fadd currentBalance (d_amount data)
        else fsub currentBalance (d_amount data) in
      changes ← update_balance newBalance (d_paymentMethod data);
      if bool_decide (changes = 0) then throw
      else
        _ ← insert_transaction newId
              (mkTransactionRow timestamp (d_paymentMethod data)
                 (d_categoryId data) (d_amount data) (d_reason data));
        mret (mkTransaction newId timestamp (d_paymentMethod data)
                (d_categoryId data) (d_amount data) (d_reason data) None)
  end.

(** [addTransaction] *)
Definition addTransaction (newId : string) (timestamp : Z)
    (data : NewTransactionData) (db : Db) : option Transaction * Db :=
  match addTransaction_body newId timestamp data db with
  | Some (t, db') => (Some t, db')
  | None => (None, db)
  end.

Definition deleteTransaction_body (transactionId : string) : Sql bool :=
  transactionToDelete ← select_transaction_join transactionId;
  match transactionToDelete with
  | None => mret false
  | Some (row, categoryName) =>
      changes ← delete_transaction_row transactionId;
      if bool_decide (changes = 0) then throw
      else
        currentBalanceResult ← select_balance (tr_paymentMethod row);
        let currentBalance := orZero currentBalanceResult in
        let isGain := is_gain_name categoryName in
        let newBalance :=
          if isGain then fsub currentBalance (tr_amount row)
          else fadd currentBalance (tr_amount row) in
        changes' ← update_balance newBalance (tr_paymentMethod row);
        if bool_decide (changes' = 0) then throw else mret true
  end.

(** [deleteTransaction] *)
Definition deleteTransaction (transactionId : string) (db : Db) : bool * Db :=
  match deleteTransaction_body transactionId db with
  | Some (r, db') => (r, db')
  | None => (false, db)
  end.

Definition updateTransaction_body (tid : string) (now : Z)
    (data : NewTransactionData) : Sql bool :=
  oldTransaction ← select_transaction tid;
  match oldTransaction with
  | None => throw
  | Some old =>
      oldCategory ← select_category_name (tr_categoryId old);
      newCategory ← select_category_name (d_categoryId data);
      match newCategory with
      | None => throw
      | Some _ =>
          let wasGain := is_gain_opt oldCategory in
          let isGain := is_gain_opt newCategory in
          _ ← (if bool_decide (tr_paymentMethod old ≠ d_paymentMethod data) then
                 let revertAmount :=
                   if wasGain then fopp (tr_amount old) else tr_amount old in
                 oldBalanceResult ← select_balance (tr_paymentMethod old);
                 let oldBalance := orZero oldBalanceResult in
                 _ ← update_balance (fadd oldBalance revertAmount) (tr_paymentMethod old);
                 let applyAmount :=
                   if isGain then d_amount data else fopp (d_amount data) in
                 newBalanceResult ← select_balance (d_paymentMethod data);
                 let newBalanceValue := orZero newBalanceResult in
                 update_balance (fadd newBalanceValue applyAmount) (d_paymentMethod data)
               else
                 let oldEffect :=
                   if wasGain then tr_amount old else fopp (tr_amount old) in
                 let newEffect :=
                   if isGain then d_amount data else fopp (d_amount data) in
                 let balanceAdjustment := fsub newEffect oldEffect in
                 currentBalanceResult ← select_balance (d_paymentMethod data);
                 let currentBalance := orZero currentBalanceResult in
                 update_balance (fadd currentBalance balanceAdjustment)
                   (d_paymentMethod data));
          changes ← update_transaction_row tid
                      (mkTransactionRow now (d_paymentMethod data)
                         (d_categoryId data) (d_amount data)
                         (reason_or_null (d_reason data)));
          if bool_decide (changes = 0) then throw else mret true
      end
  end.

(** [updateTransaction] *)
Definition updateTransaction (tid : string) (now : Z)
    (data : NewTransactionData) (db : Db) : bool * Db :=
  match updateTransaction_body tid now data db with
  | Some (r, db') => (r, db')
  | None => (false, db)
  end.

(** The ledger invariant on exact values. *)
Definition row_is_gain (cats : gmap Z CategoryRow) (row : TransactionRow) : bool :=
  is_gain_opt (cr_name <$> cats !! tr_categoryId row).

Definition effect (cats : gmap Z CategoryRow) (row : TransactionRow) : Z :=
  if row_is_gain cats row then units (tr_amount row) else - units (tr_amount row).

Definition effect_on (cats : gmap Z CategoryRow) (m : BalanceType)
    (row : TransactionRow) : Z :=
  if bool_decide (tr_paymentMethod row = m) then effect cats row else 0.

Definition sum_effects (cats : gmap Z CategoryRow) (m : BalanceType)
    (txs : gmap string TransactionRow) : Z :=
  map_fold (λ _ row acc, effect_on cats m row + acc) 0 txs.

Definition ledger_sum (db : Db) (m : BalanceType) : Z :=
  sum_effects (categories db) m (transactions db).

(** Every stored number is finite. *)
Definition finite_amounts (db : Db) : Prop :=
  (∀ m b, balances db !! m = Some b → is_finite b = true)
  ∧ (∀ tid row, transactions db !! tid = Some row → is_finite (tr_amount row) = true).

(** Every balance is, exactly, the sum of the effects of the transactions
    on its payment method. *)
Definition ledger_invariant (db : Db) : Prop :=
  finite_amounts db ∧ ∀ m, units (getBalance db m) = ledger_sum db m.

Definition balances_initialised (db : Db) : Prop :=
  ∀ m, is_Some (balances db !! m).

Inductive LedgerOp : Type :=
  | OpAdd (newId : string) (timestamp : Z) (data : NewTransactionData)
  | OpUpdate (tid : string) (now : Z) (data : NewTransactionData)
  | OpDelete (tid : string).

Definition apply_op (op : LedgerOp) (db : Db) : Db :=
  match op with
  | OpAdd newId timestamp data => (addTransaction newId timestamp data db).2
  | OpUpdate tid now data => (updateTransaction tid now data db).2
  | OpDelete tid => (deleteTransaction tid db).2
  end.

Fixpoint ledger_trace (ops : list LedgerOp) (db : Db) : list Db :=
  match ops with
  | [] => []
  | op :: ops' => let db' := apply_op op db in db' :: ledger_trace ops' db'
  end.

(** [x] is the whole number [z], below 2^53 in absolute value; [-0] counts
    as the whole number 0. *)
Definition whole (x : number) (z : Z) : Prop :=
  Z.abs z < 2 ^ 53 ∧ (x = ofZ z ∨ (z = 0 ∧ x = SpecFloat.S754_zero true)).

End Binary64.

Arguments Binary64.fadd : simpl never.
Arguments Binary64.fsub : simpl never.
Arguments Binary64.fdiv : simpl never.
Arguments Binary64.fopp : simpl never.
Arguments Binary64.ofZ : simpl never.
Arguments Binary64.units : simpl never.

(** *** States in whole numbers

    The state, the input and the operation of the sections above, read as
    the doubles of their integers. *)

Definition double_of_row (row : TransactionRow) : Binary64.TransactionRow :=
  Binary64.mkTransactionRow (tr_timestamp row) (tr_paymentMethod row)
    (tr_categoryId row) (Binary64.ofZ (tr_amount row)) (tr_reason row).

Definition double_of_transaction (t : Transaction) : Binary64.Transaction :=
  Binary64.mkTransaction (t_id t) (t_timestamp t) (t_paymentMethod t)
    (t_categoryId t) (Binary64.ofZ (t_amount t)) (t_reason t) (t_categoryName t).

Definition double_of_data (data : NewTransactionData) : Binary64.NewTransactionData :=
  Binary64.mkNewTransactionData (d_paymentMethod data) (d_categoryId data)
    (Binary64.ofZ (d_amount data)) (d_reason data).

Definition double_of_db (db : Db) : Binary64.Db :=
  Binary64.mkDb (categories db) (Binary64.ofZ <$> balances db)
    (double_of_row <$> transactions db).

Definition double_of_op (op : LedgerOp) : Binary64.LedgerOp :=
  match op with
  | OpAdd newId timestamp data => Binary64.OpAdd newId timestamp (double_of_data data)
  | OpUpdate tid now data => Binary64.OpUpdate tid now (double_of_data data)
  | OpDelete tid => Binary64.OpDelete tid
  end.

(** Every balance and every stored amount is at most [B] in absolute
    value. *)
Definition within (B : Z) (db : Db) : Prop :=
  (∀ m b, balances db !! m = Some b → Z.abs b ≤ B)
  ∧ (∀ tid row, transactions db !! tid = Some row → Z.abs (tr_amount row) ≤ B).

(** The total of the stored amounts, and of the amounts a sequence of
    operations brings in. *)
Definition total_amount (db : Db) : Z :=
  sum_rows (λ row, Z.abs (tr_amount row)) (transactions db).

Definition op_amount (op : LedgerOp) : Z :=
  match op with
  | OpAdd _ _ data | OpUpdate _ _ data => Z.abs (d_amount data)
  | OpDelete _ => 0
  end.

Definition ops_amount (ops : list LedgerOp) : Z :=
  foldr (λ op acc, op_amount op + acc) 0 ops.

(** ** Auxiliary definitions for the statements *)

(** The balances after the balance step of [updateTransaction]. *)
Definition updated_balances (cats : gmap Z CategoryRow) (old new : TransactionRow)
    (bals : gmap BalanceType Z) : gmap BalanceType Z :=
  if bool_decide (tr_paymentMethod old ≠ tr_paymentMethod new) then
    let bals1 :=
      <[tr_paymentMethod old := orZero (bals !! tr_paymentMethod old) - effect cats old]> bals in
    <[tr_paymentMethod new := orZero (bals1 !! tr_paymentMethod new) + effect cats new]> bals1
  else
    <[tr_paymentMethod new :=
        orZero (bals !! tr_paymentMethod new) + (effect cats new - effect cats old)]> bals.

(** The conditions the supplied filters put on a row, one per dimension. *)
Definition start_condition (tz : Z) (filters : TransactionFilters) (t : Transaction) : Prop :=
  ∀ D, f_startDate filters = Some D → setHours tz D 0 0 0 0 ≤ t_timestamp t.

Definition end_condition (tz : Z) (filters : TransactionFilters) (t : Transaction) : Prop :=
  ∀ D, f_endDate filters = Some D → t_timestamp t ≤ setHours tz D 23 59 59 999.

Definition method_condition (filters : TransactionFilters) (t : Transaction) : Prop :=
  ∀ m, f_paymentMethod filters = Some (OnlyMethod m) → t_paymentMethod t = m.

Definition category_condition (filters : TransactionFilters) (t : Transaction) : Prop :=
  ∀ category, f_category filters = Some category →
    category ≠ EmptyString → category ≠ "all" → t_categoryName t = Some category.

Definition search_condition (filters : TransactionFilters) (t : Transaction) : Prop :=
  ∀ searchText, f_searchText filters = Some searchText →
    trim searchText ≠ EmptyString →
    sql_like (t_reason t) ("%" +:+ trim searchText +:+ "%") = true.

(** The category of a generated transaction is the Gain category or one of
    the expense categories. *)
Definition from_snapshot (gainCategory : option Category)
    (expenseCategories : list Category) (transData : TestTransaction) : Prop :=
  (∃ g, gainCategory = Some g ∧ tt_categoryId transData = c_id g)
  ∨ (∃ c, c ∈ expenseCategories ∧ tt_categoryId transData = c_id c).

(** The row inserted for a generated transaction. *)
Definition test_row (transData : TestTransaction) : TransactionRow :=
  mkTransactionRow (tt_timestamp transData) (tt_paymentMethod transData)
    (tt_categoryId transData) (tt_amount transData)
    (reason_or_null (Some (tt_reason transData))).

(** One generated transaction as the specification describes the second
    loop of [generateTestDataForMonth]: a gain is credited and inserted, an
    expense is debited and inserted when the balance covers it, and is
    skipped, with the database as it was, when it does not. The flag says
    whether a row was inserted. *)
Inductive seed_step (newId : string) (transData : TestTransaction) (db : Db)
    : bool → Db → Prop :=
  | seed_gain b :
      is_gain_opt (cr_name <$> categories db !! tt_categoryId transData) = true →
      balances db !! tt_paymentMethod transData = Some b →
      seed_step newId transData db true
        (mkDb (categories db)
           (<[tt_paymentMethod transData := b + tt_amount transData]> (balances db))
           (<[newId := test_row transData]> (transactions db)))
  | seed_expense b :
      is_gain_opt (cr_name <$> categories db !! tt_categoryId transData) = false →
      balances db !! tt_paymentMethod transData = Some b →
      tt_amount transData ≤ b →
      seed_step newId transData db true
        (mkDb (categories db)
           (<[tt_paymentMethod transData := b - tt_amount transData]> (balances db))
           (<[newId := test_row transData]> (transactions db)))
  | seed_skip :
      is_gain_opt (cr_name <$> categories db !! tt_categoryId transData) = false →
      getBalance db (tt_paymentMethod transData) < tt_amount transData →
      seed_step newId transData db false db.

(** The whole second loop: the transactions are taken in order, each from
    the database the one before left, and the next id is used only after
    an insertion. *)
Inductive seed_steps (uuids : nat → string)
    : nat → list TestTransaction → Db → Db → Prop :=
  | seed_done insertedCount db : seed_steps uuids insertedCount [] db db
  | seed_next insertedCount transData rest db success db1 db' :
      seed_step (uuids insertedCount) transData db success db1 →
      seed_steps uuids (if success then S insertedCount else insertedCount) rest db1 db' →
      seed_steps uuids insertedCount (transData :: rest) db db'.

Ltac sql_unfold :=
  unfold mbind, Sql_bind, mret, Sql_ret, throw,
    select_category_name, select_balance, select_transaction,
    select_transaction_join, update_balance, increment_balance,
    decrement_balance,
    insert_transaction, delete_transaction_row, update_transaction_row,
    with_balances, with_transactions, with_categories in *;
  simpl in *.

(** ** The database after [performInitialization] *)

Definition DEFAULT_CATEGORIES : list (string * option Z) :=
  [("Uncategorized", None); ("Gain", None); ("Groceries", None);
   ("Transport", None); ("Bills", None); ("Entertainment", None);
   ("Other Expense", None)].

(** [INSERT OR IGNORE INTO categories (name, monthlyLimit)] for each default
    category in turn, into the freshly created table: AUTOINCREMENT numbers
    the rows from 1. *)
Fixpoint seed_categories (next : Z) (l : list (string * option Z))
    (cats : gmap Z CategoryRow) : gmap Z CategoryRow :=
  match l with
  | [] => cats
  | (name, limit) :: l' =>
      seed_categories (next + 1) l' (<[next := mkCategoryRow name limit]> cats)
  end.

(** Tables dropped and recreated, default categories seeded, both balances
    set to 0. *)
Definition initial_db : Db :=
  mkDb (seed_categories 1 DEFAULT_CATEGORIES ∅)
       (<[gpay := 0]> (<[cash := 0]> ∅))
       ∅.

(** ** Sample data for the worked examples *)

Definition groceries_200 : NewTransactionData := mkNewTransactionData gpay 3 200 None.
Definition gain_300 : NewTransactionData := mkNewTransactionData gpay 2 300 (Some "Salary").
Definition gain_100 : NewTransactionData := mkNewTransactionData gpay 2 100 (Some "Salary").
Definition bills_50_cash : NewTransactionData := mkNewTransactionData cash 5 50 None.
Definition bills_50_gpay : NewTransactionData := mkNewTransactionData gpay 5 50 None.
Definition bills_100_gpay : NewTransactionData := mkNewTransactionData gpay 5 100 None.
Definition bills_as_gain_100 : NewTransactionData := mkNewTransactionData gpay 2 100 None.

Definition sample_ops : list LedgerOp :=
  [OpAdd "tx-a" 1000 groceries_200;
   OpAdd "tx-b" 2000 gain_300;
   OpAdd "tx-c" 3000 bills_50_cash;
   OpDelete "tx-a";
   OpUpdate "tx-b" 4000 gain_100;
   OpUpdate "tx-c" 5000 bills_50_gpay;
   OpDelete "tx-missing";
   OpAdd "tx-b" 6000 groceries_200].

(** [initial_db] after one expense of 100 on gpay in category Bills. *)
Definition db_bills_100 : Db := (addTransaction "tx-1" 1000 bills_100_gpay initial_db).2.

(** [initial_db] after one expense of 50 on cash in category Bills. *)
Definition db_bills_50 : Db := (addTransaction "tx-1" 1000 bills_50_cash initial_db).2.

(** Three transactions: Groceries on 2024-01-01, Gain on 2024-01-02 and
    Groceries on 2024-01-03 (UTC). *)
Definition db_three_rows : Db :=
  (addTransaction "tx-3" 1704283200000 (mkNewTransactionData cash 3 75 (Some "Market"))
     (addTransaction "tx-2" 1704196800000 gain_300
        (addTransaction "tx-1" 1704110400000 groceries_200 initial_db).2).2).2.

Definition no_filters : TransactionFilters :=
  mkTransactionFilters None None None None None None None None.

Definition groceries_filter : TransactionFilters :=
  mkTransactionFilters None None None (Some "Groceries") None None None None.

(** [startDate] and [endDate] both on 2024-01-02. *)
Definition one_day_filter : TransactionFilters :=
  mkTransactionFilters (Some 1704196800000) (Some 1704196800000) None None None None None None.

Definition groceries_limit_0 : TransactionFilters := with_limit (Some 0) groceries_filter.
Definition groceries_limit_negative : TransactionFilters := with_limit (Some (-5)) groceries_filter.
Definition groceries_limit_1 : TransactionFilters := with_limit (Some 1) groceries_filter.

(** A stream of random numbers whose first draw is below 0.1, and a stream
    of distinct ids. *)
Definition sample_rng (k : nat) : Z := Z.of_nat k * 1234567890123457 + 300000000000000.

Definition sample_uuids (k : nat) : string := "test-" +:+ pretty k.

(** A stream that always returns 0.5: no gain is ever chosen. *)
Definition half_rng (k : nat) : Z := 4503599627370496.

Definition coffee_expense : TestTransaction :=
  mkTestTransaction gpay 3 120 "Coffee (Test)" 1709300000000.

Definition salary_gain : TestTransaction :=
  mkTestTransaction gpay 2 9000 "Salary (Test)" 1709300000000.

(** The scenario of the specification: balances set to 1000 (gpay) and
    500 (cash), then four ledger operations. *)
Definition scenario_start : Db :=
  (updateBalance cash 500 (updateBalance gpay 1000 initial_db).2).2.

Definition scenario_ops : list LedgerOp :=
  [OpAdd "tx-groceries" 1000 groceries_200;
   OpAdd "tx-gain" 2000 gain_300;
   OpDelete "tx-groceries";
   OpUpdate "tx-gain" 3000 gain_100].

(** Sample data with fractional amounts, for the statements in double
    precision. *)

(** An expense of [n] tenths in category Bills. *)
Definition bills_tenths (m : BalanceType) (n : Z) : Binary64.NewTransactionData :=
  Binary64.mkNewTransactionData m 5 (Binary64.decimal n 1) None.

(** Add an expense of 0.1, add one of 0.2, delete the first. *)
Definition fraction_ops : list Binary64.LedgerOp :=
  [Binary64.OpAdd "tx-1" 1000 (bills_tenths gpay 1);
   Binary64.OpAdd "tx-2" 2000 (bills_tenths gpay 2);
   Binary64.OpDelete "tx-1"].

Definition fraction_final : Binary64.Db :=
  foldl (λ db op, Binary64.apply_op op db) (double_of_db initial_db) fraction_ops.

(** Balances of 50.1 on cash and 0.2 on gpay, then an expense of 50 on
    cash in category Bills. *)
Definition db_fraction_balances : Binary64.Db :=
  (Binary64.addTransaction "tx-1" 1000
     (Binary64.mkNewTransactionData cash 5 (Binary64.ofZ 50) None)
     (Binary64.mkDb (categories initial_db)
        (<[cash := Binary64.decimal 501 1]> (<[gpay := Binary64.decimal 2 1]> ∅))
        ∅)).2.

Definition bills_50_to_gpay : Binary64.NewTransactionData :=
  Binary64.mkNewTransactionData gpay 5 (Binary64.ofZ 50) None.

(** A balance of 0.3 on gpay and a Gain of 0.1. *)
Definition db_three_tenths : Binary64.Db :=
  Binary64.mkDb (categories initial_db)
    (<[cash := Binary64.ofZ 0]> (<[gpay := Binary64.decimal 3 1]> ∅)) ∅.

Definition gain_tenth : Binary64.NewTransactionData :=
  Binary64.mkNewTransactionData gpay 2 (Binary64.decimal 1 1) None.

(* ================================================================== *)
(** * Properties *)

(** ** Strings *)

Lemma is_gain_name_Gain : is_gain_name "Gain" = true.
Proof. reflexivity. Qed.

Lemma is_gain_name_upper : is_gain_name "GAIN" = true.
Proof. reflexivity. Qed.

Lemma is_gain_name_Groceries : is_gain_name "Groceries" = false.
Proof. reflexivity. Qed.

(** ** Sums of effects under row insertion, removal and replacement *)

Section sum_effects.
Variable cats : gmap Z CategoryRow.
Variable m : BalanceType.

Lemma sum_effects_empty : sum_effects cats m ∅ = 0.
Proof. unfold sum_effects. by rewrite map_fold_empty. Qed.

Lemma sum_effects_insert (txs : gmap string TransactionRow) i row :
  txs !! i = None →
  sum_effects cats m (<[i := row]> txs) = effect_on cats m row + sum_effects cats m txs.
Proof.
  intros Hi. unfold sum_effects.
  rewrite map_fold_insert_L; [done | | done].
  intros. lia.
Qed.

Lemma sum_effects_delete (txs : gmap string TransactionRow) i row :
  txs !! i = Some row →
  sum_effects cats m txs = effect_on cats m row + sum_effects cats m (delete i txs).
Proof.
  intros Hi. unfold sum_effects.
  rewrite (map_fold_delete_L _ _ i row txs); [done | | done].
  intros. lia.
Qed.

Lemma sum_effects_replace (txs : gmap string TransactionRow) i old new :
  txs !! i = Some old →
  sum_effects cats m (<[i := new]> txs)
  = sum_effects cats m txs - effect_on cats m old + effect_on cats m new.
Proof.
  intros Hi.
  rewrite <- insert_delete_eq.
  rewrite sum_effects_insert by apply lookup_delete_eq.
  rewrite (sum_effects_delete txs i old Hi). lia.
Qed.
End sum_effects.

(** ** What each operation computes *)

Lemma addTransaction_ok newId timestamp data db c b :
  categories db !! d_categoryId data = Some c →
  balances db !! d_paymentMethod data = Some b →
  transactions db !! newId = None →
  addTransaction newId timestamp data db =
    (Some (mkTransaction newId timestamp (d_paymentMethod data)
             (d_categoryId data) (d_amount data) (d_reason data) None),
     mkDb (categories db)
          (<[d_paymentMethod data :=
               if is_gain_name (cr_name c) then b + d_amount data
               else b - d_amount data]> (balances db))
          (<[newId := mkTransactionRow timestamp (d_paymentMethod data)
                        (d_categoryId data) (d_amount data) (d_reason data)]>
             (transactions db))).
Proof.
  intros Hc Hb Hfresh.
  unfold addTransaction, addTransaction_body. sql_unfold.
  rewrite Hc. simpl. rewrite Hb. simpl. rewrite Hfresh, Hc. done.
Qed.

Lemma addTransaction_fail newId timestamp data db :
  categories db !! d_categoryId data = None
  ∨ balances db !! d_paymentMethod data = None
  ∨ is_Some (transactions db !! newId) →
  addTransaction newId timestamp data db = (None, db).
Proof.
  intros H.
  unfold addTransaction, addTransaction_body. sql_unfold.
  destruct (categories db !! d_categoryId data) as [c|] eqn:Hc; simpl; [|done].
  destruct (balances db !! d_paymentMethod data) as [b|] eqn:Hb; simpl; [|done].
  destruct H as [H|[H|[row H]]]; [done..|].
  by rewrite H.
Qed.

Lemma deleteTransaction_ok tid db row c b :
  transactions db !! tid = Some row →
  categories db !! tr_categoryId row = Some c →
  balances db !! tr_paymentMethod row = Some b →
  deleteTransaction tid db =
    (true,
     mkDb (categories db)
          (<[tr_paymentMethod row :=
               if is_gain_name (cr_name c) then b - tr_amount row
               else b + tr_amount row]> (balances db))
          (delete tid (transactions db))).
Proof.
  intros Ht Hc Hb.
  unfold deleteTransaction, deleteTransaction_body. sql_unfold.
  rewrite Ht. simpl. rewrite Hc. simpl. rewrite Ht. simpl.
  rewrite Hb. done.
Qed.

Lemma deleteTransaction_fail tid db :
  (match transactions db !! tid with
   | None => True
   | Some row => categories db !! tr_categoryId row = None
                 ∨ balances db !! tr_paymentMethod row = None
   end) →
  deleteTransaction tid db = (false, db).
Proof.
  intros H.
  unfold deleteTransaction, deleteTransaction_body. sql_unfold.
  destruct (transactions db !! tid) as [row|] eqn:Ht; simpl; [|done].
  destruct (categories db !! tr_categoryId row) as [c|] eqn:Hc; simpl; [|done].
  rewrite Ht. simpl.
  destruct H as [H|H]; [done|]. by rewrite H.
Qed.

Lemma updateTransaction_ok tid now data db old c :
  transactions db !! tid = Some old →
  categories db !! d_categoryId data = Some c →
  balances_initialised db →
  let new := mkTransactionRow now (d_paymentMethod data) (d_categoryId data)
               (d_amount data) (reason_or_null (d_reason data)) in
  updateTransaction tid now data db =
    (true,
     mkDb (categories db)
          (updated_balances (categories db) old new (balances db))
          (<[tid := new]> (transactions db))).
Proof.
  intros Ht Hc Hinit new.
  destruct (Hinit (tr_paymentMethod old)) as [bo Hbo].
  destruct (Hinit (d_paymentMethod data)) as [bn Hbn].
  unfold updateTransaction, updateTransaction_body, updated_balances, effect,
    row_is_gain.
  sql_unfold. rewrite Ht. simpl. rewrite Hc. simpl.
  case_bool_decide as Hpm; simpl.
  - rewrite Hbo. simpl. rewrite lookup_insert_ne by done.
    rewrite Hbn. simpl. rewrite Ht, Hc. simpl.
    do 3 f_equal.
    + rewrite lookup_insert_ne by done. by rewrite Hbn.
    + f_equal. destruct (is_gain_opt _); lia.
  - rewrite Hbn. simpl. rewrite Ht, Hc. simpl.
    done.
Qed.

Lemma updateTransaction_fail tid now data db :
  transactions db !! tid = None ∨ categories db !! d_categoryId data = None →
  updateTransaction tid now data db = (false, db).
Proof.
  intros H.
  unfold updateTransaction, updateTransaction_body. sql_unfold.
  destruct (transactions db !! tid) as [old|] eqn:Ht; simpl; [|done].
  destruct H as [H|H]; [done|]. by rewrite H.
Qed.

(** ** The invariant is preserved by every operation *)

Lemma getBalance_insert cats bals txs m v m' :
  getBalance (mkDb cats (<[m := v]> bals) txs) m'
  = if bool_decide (m = m') then v else orZero (bals !! m').
Proof.
  unfold getBalance. simpl. case_bool_decide as H.
  - subst. by rewrite lookup_insert_eq.
  - by rewrite lookup_insert_ne.
Qed.

Lemma is_Some_insert_balance (bals : gmap BalanceType Z) m v m' :
  is_Some (bals !! m') → is_Some (<[m := v]> bals !! m').
Proof.
  intros H. destruct (decide (m = m')) as [->|Hne].
  - rewrite lookup_insert_eq. eauto.
  - by rewrite lookup_insert_ne.
Qed.

Lemma addTransaction_preserves newId timestamp data db :
  balances_initialised db → ledger_invariant db →
  balances_initialised (addTransaction newId timestamp data db).2
  ∧ ledger_invariant (addTransaction newId timestamp data db).2.
Proof.
  intros Hinit Hinv.
  destruct (categories db !! d_categoryId data) as [c|] eqn:Hc;
    [|by rewrite addTransaction_fail by auto].
  destruct (transactions db !! newId) as [row|] eqn:Hfresh;
    [by rewrite addTransaction_fail by eauto|].
  destruct (Hinit (d_paymentMethod data)) as [b Hb].
  rewrite (addTransaction_ok _ _ _ _ c b) by done. simpl. split.
  - intros m'. simpl. by apply is_Some_insert_balance.
  - intros m'. rewrite getBalance_insert. unfold ledger_sum. simpl.
    rewrite sum_effects_insert by done.
    specialize (Hinv m'). unfold ledger_sum, getBalance in Hinv.
    unfold effect_on, effect, row_is_gain. simpl. rewrite Hc. simpl.
    case_bool_decide as Hm.
    + subst m'. rewrite Hb in Hinv.
      simpl in Hinv. destruct (is_gain_name (cr_name c)); lia.
    + lia.
Qed.

Lemma deleteTransaction_preserves tid db :
  balances_initialised db → ledger_invariant db →
  balances_initialised (deleteTransaction tid db).2
  ∧ ledger_invariant (deleteTransaction tid db).2.
Proof.
  intros Hinit Hinv.
  destruct (transactions db !! tid) as [row|] eqn:Ht;
    [|by rewrite deleteTransaction_fail by (by rewrite Ht)].
  destruct (categories db !! tr_categoryId row) as [c|] eqn:Hc;
    [|by rewrite deleteTransaction_fail by (rewrite Ht; auto)].
  destruct (Hinit (tr_paymentMethod row)) as [b Hb].
  rewrite (deleteTransaction_ok _ _ row c b) by done. simpl. split.
  - intros m'. simpl. by apply is_Some_insert_balance.
  - intros m'. rewrite getBalance_insert. unfold ledger_sum. simpl.
    specialize (Hinv m'). unfold ledger_sum, getBalance in Hinv.
    rewrite (sum_effects_delete _ _ _ tid row Ht) in Hinv.
    unfold effect_on, effect, row_is_gain in Hinv. rewrite Hc in Hinv.
    simpl in Hinv.
    case_bool_decide as Hm.
    + subst m'. rewrite Hb in Hinv.
      simpl in Hinv. destruct (is_gain_name (cr_name c)); lia.
    + lia.
Qed.

Lemma updateTransaction_preserves tid now data db :
  balances_initialised db → ledger_invariant db →
  balances_initialised (updateTransaction tid now data db).2
  ∧ ledger_invariant (updateTransaction tid now data db).2.
Proof.
  intros Hinit Hinv.
  destruct (transactions db !! tid) as [old|] eqn:Ht;
    [|by rewrite updateTransaction_fail by auto].
  destruct (categories db !! d_categoryId data) as [c|] eqn:Hc;
    [|by rewrite updateTransaction_fail by auto].
  rewrite (updateTransaction_ok _ _ _ _ old c) by done. simpl.
  set (new := mkTransactionRow _ _ _ _ _).
  split.
  - intros m'. simpl. unfold updated_balances.
    case_bool_decide; repeat apply is_Some_insert_balance; apply Hinit.
  - intros m'. unfold ledger_sum. simpl.
    rewrite (sum_effects_replace _ _ _ tid old new Ht).
    pose proof (Hinv m') as Hm'. unfold ledger_sum in Hm'. rewrite <- Hm'.
    pose proof (Hinit (tr_paymentMethod old)) as [bo Hbo].
    pose proof (Hinit (tr_paymentMethod new)) as [bn Hbn].
    unfold updated_balances, effect_on, getBalance. simpl. simpl in Hbn.
    generalize (effect (categories db) old) (effect (categories db) new).
    intros eo en.
    destruct (decide (tr_paymentMethod old = d_paymentMethod data)) as [Heq|Hne].
    + rewrite bool_decide_eq_false_2 by (intros Hn; by apply Hn).
      rewrite Heq. repeat case_bool_decide; simplify_map_eq; simpl; lia.
    + rewrite bool_decide_eq_true_2 by done.
      repeat case_bool_decide; simplify_map_eq; simpl; lia.
Qed.

(** ** The ledger operations *)

Lemma apply_op_preserves op db :
  balances_initialised db → ledger_invariant db →
  balances_initialised (apply_op op db) ∧ ledger_invariant (apply_op op db).
Proof.
  destruct op; simpl.
  - apply addTransaction_preserves.
  - apply updateTransaction_preserves.
  - apply deleteTransaction_preserves.
Qed.

Lemma balances_initialised_initial_db : balances_initialised initial_db.
Proof. intros []; vm_compute; eauto. Qed.

Lemma balances_initialised_after_add newId timestamp data db :
  balances_initialised db →
  balances_initialised (addTransaction newId timestamp data db).2.
Proof.
  intros Hinit.
  destruct (categories db !! d_categoryId data) as [c|] eqn:Hc;
    [|by rewrite addTransaction_fail by auto].
  destruct (transactions db !! newId) as [row|] eqn:Hfresh;
    [by rewrite addTransaction_fail by eauto|].
  destruct (Hinit (d_paymentMethod data)) as [b Hb].
  rewrite (addTransaction_ok _ _ _ _ c b) by done.
  intros m'. simpl. by apply is_Some_insert_balance.
Qed.






(** C9. For an id that is not in the transaction log and any payload,
    updateTransaction returns false and leaves every table unchanged. *)
Theorem updateTransaction_not_found (tid : string) (now : Z)
    (data : NewTransactionData) (db : Db) :
  transactions db !! tid = None →
  updateTransaction tid now data db = (false, db).
Proof. intros Ht. apply updateTransaction_fail. by left. Qed.

Lemma updateTransaction_not_found_sample :
  updateTransaction "tx-missing" 2000 gain_100 db_bills_100 = (false, db_bills_100).
Proof.
  apply (updateTransaction_not_found "tx-missing" 2000 gain_100 db_bills_100).
  vm_compute; reflexivity.
Defined.


(** ** Reserved categories *)

Lemma deleteCategory_true_iff id db :
  (deleteCategory id db).1 = true
  ↔ is_Some (categories db !! id)
    ∧ ¬ map_Exists (λ _ row, tr_categoryId row = id) (transactions db).
Proof.
  unfold deleteCategory, delete_category_row.
  destruct (categories db !! id) as [c|] eqn:Hc; simpl.
  - case_bool_decide as Href; simpl.
    + split; [done|]. intros [_ Hn]. by destruct Hn.
    + split; [eauto|done].
  - split; [done|]. intros [[c Hc'] _]. done.
Qed.

Lemma updateCategory_true_iff id name limit db :
  (updateCategory id name limit db).1 = true
  ↔ trim name ≠ EmptyString
    ∧ toLowerCase (trim name) ≠ "all"
    ∧ is_Some (categories db !! id)
    ∧ ¬ map_Exists (λ k c, k ≠ id ∧ cr_name c = trim name) (categories db).
Proof.
  unfold updateCategory, update_category_row.
  case_bool_decide as Hempty; simpl.
  { split; [done|]. intros [Hn _]. done. }
  destruct (String.eqb_spec (toLowerCase (trim name)) "all") as [Hall|Hall]; simpl.
  { split; [done|]. intros (_ & Hn & _). done. }
  destruct (categories db !! id) as [c|] eqn:Hc; simpl.
  - case_bool_decide as Hdup; simpl.
    + split; [done|]. intros (_ & _ & _ & Hn). by destruct Hn.
    + split; [eauto 6|done].
  - split; [done|]. intros (_ & _ & [c Hc'] & _). done.
Qed.

(** C2, counterexample. In the freshly initialised database the category
    with id 2 is "Gain" and the one with id 1 is "Uncategorized", yet
    updateCategory renames them and deleteCategory removes them: both return
    true. *)
Lemma reserved_category_not_protected_by_store :
  categories initial_db !! 2 = Some (mkCategoryRow "Gain" None)
  ∧ categories initial_db !! 1 = Some (mkCategoryRow "Uncategorized" None)
  ∧ (updateCategory 2 "Income" None initial_db).1 = true
  ∧ (updateCategory 1 "Misc" None initial_db).1 = true
  ∧ (deleteCategory 2 initial_db).1 = true
  ∧ (deleteCategory 1 initial_db).1 = true.
Proof. vm_compute. done. Qed.

(** C2, amended. The store functions do not look at whether a category is
    reserved: deleteCategory succeeds exactly when the id exists and no
    transaction references it, and updateCategory succeeds exactly when the
    trimmed name is neither empty nor "all", the id exists and no other
    category has that name. The guards are in the category screen, before
    the store is called: handleDelete on a reserved category leaves the
    database unchanged and openEditModal does not open a reserved category.
    The modal's handleSave, given a reserved category, compares the old and
    the new name in lower case: it does not call onSave when they differ by
    more than the case of their letters, and it does call onSave, with the
    new name, when they differ in letter case only or not at all and the
    limit is blank or a number that is not negative. *)
Theorem reserved_category_protection :
  (∀ id db,
     (deleteCategory id db).1 = true
     ↔ is_Some (categories db !! id)
       ∧ ¬ map_Exists (λ _ row, tr_categoryId row = id) (transactions db))
  ∧ (∀ id name limit db,
       (updateCategory id name limit db).1 = true
       ↔ trim name ≠ EmptyString
         ∧ toLowerCase (trim name) ≠ "all"
         ∧ is_Some (categories db !! id)
         ∧ ¬ map_Exists (λ k c, k ≠ id ∧ cr_name c = trim name) (categories db))
  ∧ (∀ category confirmed db,
       is_reserved_name (c_name category) = true →
       handleDelete category confirmed db = (CannotDelete, db))
  ∧ (∀ category,
       is_reserved_name (c_name category) = true →
       openEditModal category = None)
  ∧ (∀ initial name limitInput onSave db,
       is_reserved_name (c_name initial) = true →
       toLowerCase (c_name initial) ≠ toLowerCase (trim name) →
       handleSave (Some initial) name limitInput onSave db = (SaveCannotRename, db)
       ∨ handleSave (Some initial) name limitInput onSave db = (SaveValidationError, db))
  ∧ (∀ initial name limitInput onSave db,
       is_reserved_name (c_name initial) = true →
       toLowerCase (c_name initial) = toLowerCase (trim name) →
       handleSave (Some initial) name limitInput onSave db
       = match limitInput with
         | LimitBlank =>
             (SaveCalled (onSave (trim name) None db).1, (onSave (trim name) None db).2)
         | LimitNaN => (SaveValidationError, db)
         | LimitNumber v =>
             if bool_decide (v < 0) then (SaveValidationError, db)
             else (SaveCalled (onSave (trim name) (Some v) db).1,
                   (onSave (trim name) (Some v) db).2)
         end).
Proof.
  split; [apply deleteCategory_true_iff|].
  split; [apply updateCategory_true_iff|].
  split; [|split; [|split]].
  - intros category confirmed db Hres. unfold handleDelete. by rewrite Hres.
  - intros category Hres. unfold openEditModal. by rewrite Hres.
  - intros initial name limitInput onSave db Hres Hchanged.
    unfold handleSave.
    case_bool_decide; [by right|].
    destruct limitInput as [| |v]; [|by right|].
    + rewrite Hres. simpl.
      destruct (String.eqb_spec (toLowerCase (c_name initial)) (toLowerCase (trim name)));
        [done|]. by left.
    + case_bool_decide; [by right|].
      rewrite Hres. simpl.
      destruct (String.eqb_spec (toLowerCase (c_name initial)) (toLowerCase (trim name)));
        [done|]. by left.
  - intros initial name limitInput onSave db Hres Hsame.
    unfold handleSave.
    assert (trim name ≠ EmptyString) as Hne.
    { intros Hempty. rewrite Hempty in Hsame. unfold is_reserved_name in Hres.
      rewrite Hsame in Hres. done. }
    rewrite bool_decide_eq_false_2 by done.
    rewrite Hres, Hsame, String.eqb_refl. simpl.
    destruct limitInput as [| |v]; [done|done|]. by case_bool_decide.
Qed.

Lemma reserved_category_protection_sample :
  handleDelete (mkCategory 2 "Gain" None) true initial_db = (CannotDelete, initial_db)
  ∧ (handleSave (Some (mkCategory 1 "Uncategorized" None)) "Misc" LimitBlank
       (handleSaveCategory_editing (mkCategory 1 "Uncategorized" None)) initial_db
     = (SaveCannotRename, initial_db)
     ∨ handleSave (Some (mkCategory 1 "Uncategorized" None)) "Misc" LimitBlank
         (handleSaveCategory_editing (mkCategory 1 "Uncategorized" None)) initial_db
       = (SaveValidationError, initial_db)).
Proof.
  destruct reserved_category_protection as (_ & _ & Hdel & _ & Hsave & _).
  split.
  - apply (Hdel (mkCategory 2 "Gain" None) true initial_db). reflexivity.
  - apply (Hsave (mkCategory 1 "Uncategorized" None) "Misc" LimitBlank).
    + reflexivity.
    + vm_compute. discriminate.
Defined.

(** A change of letter case only is not held back: with the category Gain
    in the modal, the name "GAIN" reaches updateCategory, which renames the
    row. *)
Lemma reserved_category_case_change :
  handleSave (Some (mkCategory 2 "Gain" None)) "GAIN" LimitBlank
    (handleSaveCategory_editing (mkCategory 2 "Gain" None)) initial_db
  = (SaveCalled true, (updateCategory 2 "GAIN" None initial_db).2)
  ∧ categories (updateCategory 2 "GAIN" None initial_db).2 !! 2
    = Some (mkCategoryRow "GAIN" None).
Proof. vm_compute. done. Qed.

(** ** Queries *)

Global Instance newest_first_transitive : Transitive newest_first.
Proof. intros a b c. unfold newest_first. lia. Qed.

Global Instance newest_first_total : Total newest_first.
Proof. intros a b. unfold newest_first. lia. Qed.

Lemma StronglySorted_take {A} (R : relation A) n (l : list A) :
  StronglySorted R l → StronglySorted R (take n l).
Proof.
  intros Hl. revert n. induction Hl as [|x l Hl IH Hx]; intros [|n]; simpl;
    try constructor.
  - apply IH.
  - apply Forall_take. exact Hx.
Qed.

Lemma apply_limit_cases limit rows :
  apply_limit limit rows = rows ∨ ∃ n, apply_limit limit rows = take n rows.
Proof.
  unfold apply_limit. destruct limit as [l|]; [|by left].
  destruct (_ && _); [right; eauto | by left].
Qed.

Lemma apply_limit_not_positive limit rows :
  (∀ l, limit = Some l → l ≤ 0) → apply_limit limit rows = rows.
Proof.
  intros H. unfold apply_limit. destruct limit as [l|]; [|done].
  specialize (H l eq_refl).
  rewrite (bool_decide_eq_false_2 (0 < l)) by lia.
  by rewrite andb_false_r.
Qed.

Lemma elem_of_apply_limit limit rows (t : Transaction) :
  t ∈ apply_limit limit rows → t ∈ rows.
Proof.
  destruct (apply_limit_cases limit rows) as [->|[n ->]]; [done|].
  rewrite elem_of_take. intros (i & Hi & _). by eapply list_elem_of_lookup_2.
Qed.

Lemma elem_of_getAllTransactions tz filters db t :
  t ∈ getAllTransactions tz filters db →
  t ∈ joined_rows db ∧ where_holds (whereClauses tz filters) t.
Proof.
  unfold getAllTransactions. intros H%elem_of_apply_limit.
  rewrite merge_sort_Permutation in H.
  apply list_elem_of_filter in H. tauto.
Qed.

Lemma getAllTransactions_unlimited tz filters db :
  (∀ l, f_limit filters = Some l → l ≤ 0) →
  getAllTransactions tz filters db
  = merge_sort newest_first
      (filter (where_holds (whereClauses tz filters)) (joined_rows db)).
Proof. intros H. unfold getAllTransactions. by rewrite apply_limit_not_positive. Qed.

Lemma where_holds_app c1 c2 t :
  where_holds (c1 ++ c2) t ↔ where_holds c1 t ∧ where_holds c2 t.
Proof. unfold where_holds. apply Forall_app. Qed.

Lemma where_holds_singleton (c : WhereClause) t : where_holds [c] t ↔ c t = true.
Proof. unfold where_holds. rewrite Forall_singleton. done. Qed.

Lemma where_holds_nil t : where_holds [] t ↔ True.
Proof. unfold where_holds. split; [done|]. intros _. constructor. Qed.

Lemma trim_empty : trim EmptyString = EmptyString.
Proof. reflexivity. Qed.

Lemma date_clauses_sound tz filters t :
  where_holds (date_clauses tz filters) t →
  start_condition tz filters t ∧ end_condition tz filters t.
Proof.
  unfold date_clauses, start_condition, end_condition.
  rewrite where_holds_app. intros [Hs He]. split.
  - intros D HD. rewrite HD in Hs. apply where_holds_singleton in Hs. lia.
  - intros D HD. rewrite HD in He. apply where_holds_singleton in He. lia.
Qed.

Lemma date_clauses_complete tz filters t :
  f_year filters = None →
  start_condition tz filters t → end_condition tz filters t →
  where_holds (date_clauses tz filters) t.
Proof.
  unfold date_clauses, start_condition, end_condition.
  intros Hy Hs He. rewrite where_holds_app, Hy. split.
  - destruct (f_startDate filters) as [D|]; [|by apply where_holds_nil].
    apply where_holds_singleton. specialize (Hs D eq_refl). lia.
  - destruct (f_endDate filters) as [D|]; [|by apply where_holds_nil].
    apply where_holds_singleton. specialize (He D eq_refl). lia.
Qed.

Lemma method_clauses_iff filters t :
  where_holds (method_clauses filters) t ↔ method_condition filters t.
Proof.
  unfold method_clauses, method_condition.
  destruct (f_paymentMethod filters) as [[|m]|].
  - rewrite where_holds_nil. split; [|done]. intros _ m Hm. done.
  - rewrite where_holds_singleton, bool_decide_eq_true. split.
    + intros H m' Hm'. congruence.
    + intros H. by apply H.
  - rewrite where_holds_nil. split; [|done]. intros _ m Hm. done.
Qed.

Lemma category_clauses_iff filters t :
  where_holds (category_clauses filters) t ↔ category_condition filters t.
Proof.
  unfold category_clauses, category_condition.
  destruct (f_category filters) as [category|].
  - do 2 case_bool_decide; simpl.
    + rewrite where_holds_singleton, bool_decide_eq_true. split.
      * intros Hw c' Hc' _ _. congruence.
      * intros Hw. by apply Hw.
    + rewrite where_holds_nil. split; [|done]. intros _ c' Hc'. congruence.
    + rewrite where_holds_nil. split; [|done]. intros _ c' Hc'. congruence.
    + rewrite where_holds_nil. split; [|done]. intros _ c' Hc'. congruence.
  - rewrite where_holds_nil. split; [|done]. intros _ c' Hc'. done.
Qed.

Lemma search_clauses_iff filters t :
  where_holds (search_clauses filters) t ↔ search_condition filters t.
Proof.
  unfold search_clauses, search_condition.
  destruct (f_searchText filters) as [searchText|].
  - do 2 case_bool_decide; simpl.
    + rewrite where_holds_singleton. split.
      * intros Hw s' Hs' _. congruence.
      * intros Hw. by apply Hw.
    + rewrite where_holds_nil. split; [|done]. intros _ s' Hs'. congruence.
    + rewrite where_holds_nil. split; [|done]. intros _ s' Hs' Hn.
      assert (s' = searchText) as -> by congruence.
      assert (searchText = EmptyString) as -> by (destruct (decide (searchText = EmptyString)); tauto).
      done.
    + rewrite where_holds_nil. split; [|done]. intros _ s' Hs'. congruence.
  - rewrite where_holds_nil. split; [|done]. intros _ s' Hs'. done.
Qed.

(** The two bounds of a day filter bracket the date and are one day less a
    millisecond apart. *)
Lemma setHours_day_bounds tz D :
  setHours tz D 0 0 0 0 ≤ D ≤ setHours tz D 23 59 59 999
  ∧ setHours tz D 23 59 59 999 - setHours tz D 0 0 0 0 = msPerDay - 1.
Proof.
  unfold setHours, msPerDay.
  pose proof (Z.mod_pos_bound (D + tz) 86400000 ltac:(lia)). lia.
Qed.

(** C7. getAllTransactions returns its rows newest first by timestamp.
    Every returned row is a row of the join that meets every supplied
    filter: with [category: c] its joined category name is [c] (so
    "Groceries" for the Groceries filter), with [startDate: D] and
    [endDate: D'] its timestamp lies between D 00:00:00.000 and
    D' 23:59:59.999, with a payment method other than 'all' it has that
    method, with a search text its reason is LIKE the pattern. Conversely,
    without a limit (and without the year/month fallback) every joined row
    that meets all supplied filters is returned: the filters are ANDed. *)
Theorem getAllTransactions_sorted_and_filtered (tz : Z)
    (filters : TransactionFilters) (db : Db) :
  StronglySorted newest_first (getAllTransactions tz filters db)
  ∧ (∀ t, t ∈ getAllTransactions tz filters db →
       t ∈ joined_rows db
       ∧ category_condition filters t
       ∧ start_condition tz filters t
       ∧ end_condition tz filters t
       ∧ method_condition filters t
       ∧ search_condition filters t)
  ∧ (f_limit filters = None → f_year filters = None →
     ∀ t, t ∈ joined_rows db →
       category_condition filters t → start_condition tz filters t →
       end_condition tz filters t → method_condition filters t →
       search_condition filters t →
       t ∈ getAllTransactions tz filters db).
Proof.
  split; [|split].
  - unfold getAllTransactions.
    destruct (apply_limit_cases (f_limit filters)
                (merge_sort newest_first
                   (filter (where_holds (whereClauses tz filters)) (joined_rows db))))
      as [->|[n ->]].
    + apply StronglySorted_merge_sort; apply _.
    + apply StronglySorted_take, StronglySorted_merge_sort; apply _.
  - intros t [Hjoin Hw]%elem_of_getAllTransactions.
    unfold whereClauses in Hw. rewrite !where_holds_app in Hw.
    destruct Hw as (Hd & Hm & Hc & Hs).
    apply date_clauses_sound in Hd as [Hstart Hend].
    apply method_clauses_iff in Hm. apply category_clauses_iff in Hc.
    apply search_clauses_iff in Hs. done.
  - intros Hlimit Hyear t Hjoin Hc Hstart Hend Hm Hs.
    rewrite getAllTransactions_unlimited by (intros l Hl; congruence).
    rewrite merge_sort_Permutation. apply list_elem_of_filter. split; [|done].
    unfold whereClauses. rewrite !where_holds_app.
    split; [by apply date_clauses_complete|].
    split; [by apply method_clauses_iff|].
    split; [by apply category_clauses_iff|by apply search_clauses_iff].
Qed.

Lemma getAllTransactions_groceries_sample :
  getAllTransactions 0 groceries_filter db_three_rows
  = [mkTransaction "tx-3" 1704283200000 cash 3 75 (Some "Market") (Some "Groceries");
     mkTransaction "tx-1" 1704110400000 gpay 3 200 None (Some "Groceries")]
  ∧ StronglySorted newest_first (getAllTransactions 0 groceries_filter db_three_rows)
  ∧ (∀ t, t ∈ getAllTransactions 0 groceries_filter db_three_rows →
       t_categoryName t = Some "Groceries").
Proof.
  split; [vm_compute; reflexivity|].
  destruct (getAllTransactions_sorted_and_filtered 0 groceries_filter db_three_rows)
    as (Hsorted & Hsound & _).
  split; [exact Hsorted|].
  intros t Ht. destruct (Hsound t Ht) as (_ & Hc & _).
  apply (Hc "Groceries"); [reflexivity|discriminate|discriminate].
Defined.

Lemma getAllTransactions_one_day_sample :
  getAllTransactions 0 one_day_filter db_three_rows
  = [mkTransaction "tx-2" 1704196800000 gpay 2 300 (Some "Salary") (Some "Gain")].
Proof. vm_compute; reflexivity. Qed.

(** C10. When the limit is absent, zero or negative, getAllTransactions
    adds no LIMIT: the result is the one of the same call without the limit
    field, and it holds every joined row that passes the other filters. *)
Theorem getAllTransactions_no_cap (tz : Z) (filters : TransactionFilters) (db : Db) :
  (∀ l, f_limit filters = Some l → l ≤ 0) →
  getAllTransactions tz filters db
  = getAllTransactions tz (with_limit None filters) db
  ∧ getAllTransactions tz filters db
    ≡ₚ filter (where_holds (whereClauses tz filters)) (joined_rows db).
Proof.
  intros Hlimit. split.
  - rewrite getAllTransactions_unlimited by done.
    rewrite getAllTransactions_unlimited by (simpl; intros l Hl; congruence).
    reflexivity.
  - rewrite getAllTransactions_unlimited by done. apply merge_sort_Permutation.
Qed.

Lemma getAllTransactions_no_cap_sample :
  getAllTransactions 0 groceries_limit_negative db_three_rows
  = getAllTransactions 0 (with_limit None groceries_limit_negative) db_three_rows
  ∧ getAllTransactions 0 groceries_limit_negative db_three_rows
    ≡ₚ filter (where_holds (whereClauses 0 groceries_limit_negative))
         (joined_rows db_three_rows).
Proof.
  apply (getAllTransactions_no_cap 0 groceries_limit_negative db_three_rows).
  intros l Hl. vm_compute in Hl. injection Hl as <-. lia.
Defined.

Lemma getAllTransactions_limit_examples :
  length (getAllTransactions 0 groceries_limit_0 db_three_rows) = 2%nat
  ∧ length (getAllTransactions 0 groceries_limit_negative db_three_rows) = 2%nat
  ∧ length (getAllTransactions 0 groceries_limit_1 db_three_rows) = 1%nat.
Proof. vm_compute. done. Qed.

(** ** Test data generation *)

Section insert_test_transaction.
Variable categories_snapshot : list Category.
Variable newId : string.
Variable transData : TestTransaction.

Let row : TransactionRow :=
  mkTransactionRow (tt_timestamp transData) (tt_paymentMethod transData)
    (tt_categoryId transData) (tt_amount transData)
    (reason_or_null (Some (tt_reason transData))).

Let isGain : bool :=
  is_gain_opt (c_name <$> find_category categories_snapshot (tt_categoryId transData)).

Lemma insert_test_expense_skipped db :
  isGain = false →
  getBalance db (tt_paymentMethod transData) < tt_amount transData →
  insert_test_transaction categories_snapshot newId transData db = Some (false, db).
Proof.
  unfold isGain, getBalance. intros Hexp Hlow.
  unfold insert_test_transaction. rewrite Hexp. sql_unfold.
  by rewrite bool_decide_eq_false_2 by lia.
Qed.

Lemma insert_test_expense_inserted db b :
  isGain = false →
  balances db !! tt_paymentMethod transData = Some b →
  tt_amount transData ≤ b →
  transactions db !! newId = None →
  is_Some (categories db !! tt_categoryId transData) →
  insert_test_transaction categories_snapshot newId transData db
  = Some (true,
          mkDb (categories db)
               (<[tt_paymentMethod transData := b - tt_amount transData]> (balances db))
               (<[newId := row]> (transactions db))).
Proof.
  unfold isGain, row. intros Hexp Hb Hle Hfresh [c Hc].
  unfold insert_test_transaction. rewrite Hexp. sql_unfold.
  rewrite Hb. simpl. rewrite bool_decide_eq_true_2 by lia.
  simpl. rewrite Hb. simpl. rewrite Hfresh, Hc. done.
Qed.

Lemma insert_test_expense_only_if_covered db db' :
  isGain = false →
  insert_test_transaction categories_snapshot newId transData db = Some (true, db') →
  tt_amount transData ≤ getBalance db (tt_paymentMethod transData).
Proof.
  unfold isGain, getBalance. intros Hexp.
  unfold insert_test_transaction. rewrite Hexp. sql_unfold.
  case_bool_decide as Hle; [done|]. intros [=].
Qed.

Lemma insert_test_gain_inserted db b :
  isGain = true →
  balances db !! tt_paymentMethod transData = Some b →
  transactions db !! newId = None →
  is_Some (categories db !! tt_categoryId transData) →
  insert_test_transaction categories_snapshot newId transData db
  = Some (true,
          mkDb (categories db)
               (<[tt_paymentMethod transData := b + tt_amount transData]> (balances db))
               (<[newId := row]> (transactions db))).
Proof.
  unfold isGain, row. intros Hgain Hb Hfresh [c Hc].
  unfold insert_test_transaction. rewrite Hgain. sql_unfold.
  rewrite Hb. simpl. rewrite Hfresh, Hc. done.
Qed.

(** Whatever the balances, one iteration either skips, leaving the
    database as it is, or inserts under [newId]; it throws only on a
    duplicate id or a dangling category. *)
Lemma insert_test_transaction_step db :
  transactions db !! newId = None →
  is_Some (categories db !! tt_categoryId transData) →
  ∃ success db',
    insert_test_transaction categories_snapshot newId transData db
    = Some (success, db')
    ∧ categories db' = categories db
    ∧ (success = false → db' = db)
    ∧ ∀ i, i ≠ newId → transactions db' !! i = transactions db !! i.
Proof.
  intros Hfresh [c Hc].
  unfold insert_test_transaction. sql_unfold.
  destruct (is_gain_opt _); simpl.
  - destruct (balances db !! tt_paymentMethod transData); simpl;
      rewrite Hfresh, Hc; eexists _, _; (split; [done|]); simpl;
      (split; [done|]); (split; [done|]);
      intros i Hi; by rewrite lookup_insert_ne.
  - case_bool_decide; simpl; [|by eexists _, _].
    destruct (balances db !! tt_paymentMethod transData); simpl;
      rewrite Hfresh, Hc; eexists _, _; (split; [done|]); simpl;
      (split; [done|]); (split; [done|]);
      intros i Hi; by rewrite lookup_insert_ne.
Qed.
End insert_test_transaction.

Lemma insert_test_transactions_total categories_snapshot uuids l :
  (∀ i j : nat, uuids i = uuids j → i = j) →
  ∀ (insertedCount : nat) db,
    (∀ i, (insertedCount ≤ i)%nat → transactions db !! uuids i = None) →
    Forall (λ transData, is_Some (categories db !! tt_categoryId transData)) l →
    is_Some (insert_test_transactions categories_snapshot uuids insertedCount l db).
Proof.
  intros Hinj. induction l as [|transData l IH]; intros n db Hfresh Hcats; simpl.
  - by eexists.
  - apply Forall_cons in Hcats as [Hc Hcats].
    destruct (insert_test_transaction_step categories_snapshot (uuids n) transData db)
      as (success & db' & Hstep & Hcat' & Hskip & Htx'); [by apply Hfresh|done|].
    unfold mbind, Sql_bind. rewrite Hstep.
    destruct success.
    + apply IH.
      * intros i Hi. rewrite Htx'; [apply Hfresh; lia|].
        intros Heq%Hinj. lia.
      * by rewrite Hcat'.
    + rewrite (Hskip eq_refl). by apply IH.
Qed.

Lemma random_range rng k :
  0 ≤ Qnum (random rng k) < two53 ∧ Qden (random rng k) = Z.to_pos two53.
Proof.
  unfold random. simpl. split; [|done].
  apply Z.mod_pos_bound. unfold two53. lia.
Qed.

(** [Math.floor(Math.random() * n)] is one of [0 .. n-1]. *)
Lemma floor_times_random_range rng k n :
  0 < n → 0 ≤ floor_times (random rng k) n < n.
Proof.
  intros Hn. destruct (random_range rng k) as [Hp Hq].
  unfold floor_times, Qfloor, Qmult, inject_Z.
  destruct (random rng k) as [p q]. simpl in *. subst q.
  rewrite Pos.mul_1_r.
  unfold two53 in Hp. split.
  - apply Z.div_pos; nia.
  - apply Z.div_lt_upper_bound; nia.
Qed.

Lemma random_element_Some {A} rng k (arr : list A) :
  arr ≠ [] → ∃ x, random_element rng k arr = Some x ∧ x ∈ arr.
Proof.
  intros Hne. unfold random_element.
  assert (0 < Z.of_nat (length arr)) as Hlen by (destruct arr; [done|simpl; lia]).
  pose proof (floor_times_random_range rng k _ Hlen) as Hr.
  destruct (lookup_lt_is_Some_2 arr (Z.to_nat (floor_times (random rng k) (Z.of_nat (length arr)))))
    as [x Hx]; [lia|].
  exists x. split; [done|]. by eapply list_elem_of_lookup_2.
Qed.

Lemma pick_test_transaction_total rng gainCategory expenseCategories first range k :
  ∃ picked k',
    pick_test_transaction rng gainCategory expenseCategories first range k
    = Some (picked, k')
    ∧ ∀ transData, picked = Some transData →
        from_snapshot gainCategory expenseCategories transData.
Proof.
  unfold pick_test_transaction.
  set (g := choose_gain rng gainCategory k).
  assert (∃ chosen k1,
            choose_category rng gainCategory expenseCategories g.1 g.2 = Some (chosen, k1)
            ∧ ∀ cid amount, chosen = Some (cid, amount) →
                (∃ gc, gainCategory = Some gc ∧ cid = c_id gc)
                ∨ (∃ c, c ∈ expenseCategories ∧ cid = c_id c)) as (chosen & k1 & Hch & Hfrom).
  { unfold choose_category.
    assert (∃ chosen k1,
              (if bool_decide (0 < length expenseCategories)%nat then
                 randomCategory ← random_element rng g.2 expenseCategories;
                 Some (Some (c_id randomCategory,
                             floor_times (random rng (S g.2)) (3000 - 50 + 1) + 50),
                       S (S g.2))
               else Some (None, g.2)) = Some (chosen, k1)
              ∧ ∀ cid amount, chosen = Some (cid, amount) →
                  (∃ gc, gainCategory = Some gc ∧ cid = c_id gc)
                  ∨ (∃ c, c ∈ expenseCategories ∧ cid = c_id c)) as Hexp.
    { case_bool_decide as Hlen.
      - destruct (random_element_Some rng g.2 expenseCategories) as (c & Hc & Hin).
        { destruct expenseCategories; [simpl in Hlen; lia|done]. }
        rewrite Hc. simpl. eexists _, _. split; [done|].
        intros cid amount [= <- _]. right. eauto.
      - eexists _, _. split; [done|]. intros cid amount [=]. }
    destruct g.1; [|exact Hexp].
    destruct gainCategory as [gc|]; [|exact Hexp].
    eexists _, _. split; [done|]. intros cid amount [= <- _]. left. eauto. }
  rewrite Hch. simpl.
  destruct chosen as [[cid amount]|].
  - destruct (random_element_Some rng k1 paymentMethods) as (pm & -> & _); [done|].
    destruct (random_element_Some rng (S k1) reasons) as (reason & -> & _); [done|].
    simpl. eexists _, _. split; [done|].
    intros transData [= <-]. apply (Hfrom cid amount eq_refl).
  - eexists _, _. split; [done|]. intros transData [=].
Qed.

Lemma pick_test_transactions_total rng gainCategory expenseCategories first range count :
  ∀ k, ∃ l,
    pick_test_transactions rng gainCategory expenseCategories first range count k = Some l
    ∧ Forall (from_snapshot gainCategory expenseCategories) l.
Proof.
  induction count as [|count IH]; intros k; simpl.
  - exists []. split; [done|constructor].
  - destruct (pick_test_transaction_total rng gainCategory expenseCategories first range k)
      as (picked & k' & -> & Hfrom).
    simpl. destruct (IH k') as (rest & -> & Hrest). simpl.
    eexists. split; [done|].
    destruct picked as [transData|]; [|done].
    constructor; [by apply Hfrom|done].
Qed.

Lemma elem_of_getAllCategories db c :
  c ∈ getAllCategories db
  ↔ categories db !! c_id c = Some (mkCategoryRow (c_name c) (c_monthlyLimit c)).
Proof.
  unfold getAllCategories. rewrite merge_sort_Permutation, list_elem_of_fmap.
  split.
  - intros ([id crow] & -> & Hin). apply elem_of_map_to_list in Hin.
    simpl. rewrite Hin. by destruct crow.
  - intros Hc. exists (c_id c, mkCategoryRow (c_name c) (c_monthlyLimit c)).
    split; [by destruct c|]. by apply elem_of_map_to_list.
Qed.

Lemma getAllCategories_nonempty db :
  categories db ≠ ∅ → getAllCategories db ≠ [].
Proof.
  intros Hne Hnil. apply Hne. apply map_empty. intros i.
  destruct (categories db !! i) as [crow|] eqn:Hi; [|done].
  assert (mkCategory i (cr_name crow) (cr_monthlyLimit crow) ∈ getAllCategories db) as Hin.
  { apply elem_of_getAllCategories. simpl. rewrite Hi. by destruct crow. }
  rewrite Hnil in Hin. by apply elem_of_nil in Hin.
Qed.

Lemma snapshot_category_exists db gainCategory expenseCategories transData :
  gainCategory = List.find (λ c, is_gain_name (c_name c)) (getAllCategories db) →
  expenseCategories
  = List.filter (λ c, negb (is_gain_name (c_name c))) (getAllCategories db) →
  from_snapshot gainCategory expenseCategories transData →
  is_Some (categories db !! tt_categoryId transData).
Proof.
  intros -> -> [(g & Hg & ->)|(c & Hc & ->)].
  - apply find_some in Hg as [Hin _]. apply list_elem_of_In in Hin.
    apply elem_of_getAllCategories in Hin. eauto.
  - apply list_elem_of_In, filter_In in Hc as [Hin _]. apply list_elem_of_In in Hin.
    apply elem_of_getAllCategories in Hin. eauto.
Qed.

Lemma some_category_kind (l : list Category) :
  l ≠ [] →
  bool_decide (length (List.filter (λ c, negb (is_gain_name (c_name c))) l) = 0%nat)
  && bool_decide (List.find (λ c, is_gain_name (c_name c)) l = None) = false.
Proof.
  destruct l as [|c l]; [done|]. intros _. apply andb_false_iff. simpl.
  destruct (is_gain_name (c_name c)); simpl.
  - by right.
  - by left.
Qed.

Lemma generateTestDataForMonth_succeeds tz rng uuids year month count db :
  categories db ≠ ∅ →
  (∀ i, transactions db !! uuids i = None) →
  (∀ i j : nat, uuids i = uuids j → i = j) →
  (generateTestDataForMonth tz rng uuids year month count db).1 = true.
Proof.
  intros Hcats Hfresh Hinj. unfold generateTestDataForMonth.
  set (snapshot := getAllCategories db).
  set (expenseCategories := List.filter _ snapshot).
  set (gainCategory := List.find _ snapshot).
  assert (bool_decide (length expenseCategories = 0%nat)
          && bool_decide (gainCategory = None) = false) as ->.
  { apply some_category_kind. by apply getAllCategories_nonempty. }
  destruct (pick_test_transactions_total rng gainCategory expenseCategories
              (newDate tz year (month - 1) 1)
              (newDate tz year month 1 - newDate tz year (month - 1) 1) count 0%nat)
    as (l & -> & Hl).
  destruct (insert_test_transactions_total snapshot uuids l Hinj 0%nat db)
    as [[n db'] ->]; [intros i _; apply Hfresh| |done].
  eapply Forall_impl; [exact Hl|].
  intros transData Hfrom. by eapply snapshot_category_exists.
Qed.

Lemma choose_gain_iff rng gainCategory k :
  (choose_gain rng gainCategory k).1 = true
  ↔ is_Some gainCategory ∧ rng k mod two53 < 900719925474100.
Proof.
  unfold choose_gain. destruct gainCategory as [g|]; simpl.
  - unfold below_tenth, Qltb, random. simpl.
    rewrite Z.ltb_lt. unfold two53. split.
    + intros H. split; [eauto|lia].
    + intros [_ H]. lia.
  - split; [done|]. intros [[g Hg] _]. done.
Qed.

Lemma sample_uuids_inj (i j : nat) : sample_uuids i = sample_uuids j → i = j.
Proof.
  unfold sample_uuids. intros H.
  apply (inj (String.append "test-")) in H.
  by apply pretty_nat_inj in H.
Qed.

Lemma categories_initial_db_nonempty : categories initial_db ≠ ∅.
Proof.
  intros H. assert (categories initial_db !! 1 = None) as Hn by (by rewrite H).
  vm_compute in Hn. discriminate.
Qed.

(** With both balances at 0 and no gain drawn every expense is skipped: the
    call still returns true and the database is unchanged. With the sample
    stream two gains and one expense are inserted. *)
Lemma generateTestData_runs :
  generateTestDataForMonth 0 half_rng sample_uuids 2024 3 5 initial_db = (true, initial_db)
  ∧ getBalance (generateTestDataForMonth 0 sample_rng sample_uuids 2024 3 6 initial_db).2 gpay
    = 7555 + 7178 - 2979
  ∧ size (transactions (generateTestDataForMonth 0 sample_rng sample_uuids 2024 3 6 initial_db).2)
    = 3%nat.
Proof. vm_compute. done. Qed.

(** ** The scenario of the specification *)

(** add(gpay, Groceries, 200), add(gpay, Gain, 300), delete the Groceries
    transaction, update the Gain transaction's amount to 100. *)
Lemma scenario_balances :
  getBalance scenario_start gpay = 1000
  ∧ getBalance scenario_start cash = 500
  ∧ (λ db, getBalance db gpay) <$> ledger_trace scenario_ops scenario_start
    = [800; 1100; 1300; 1100]
  ∧ (λ db, getBalance db cash) <$> ledger_trace scenario_ops scenario_start
    = [500; 500; 500; 500].
Proof. vm_compute. done. Qed.

(* ================================================================== *)
(** * Further properties of the ledger *)

(** ** How the operations compose and when they fail *)

Lemma Db_eta db : mkDb (categories db) (balances db) (transactions db) = db.
Proof. by destruct db. Qed.

(** In the integer model, deleting a transaction right after adding it
    restores the database. *)
Lemma addTransaction_undone_by_delete (newId : string) (timestamp : Z)
    (data : NewTransactionData) (db : Db) :
  is_Some (categories db !! d_categoryId data) →
  is_Some (balances db !! d_paymentMethod data) →
  transactions db !! newId = None →
  deleteTransaction newId (addTransaction newId timestamp data db).2 = (true, db).
Proof.
  intros [c Hc] [b Hb] Hfresh.
  rewrite (addTransaction_ok _ _ _ _ c b) by done. simpl.
  rewrite (deleteTransaction_ok newId _
             (mkTransactionRow timestamp (d_paymentMethod data) (d_categoryId data)
                (d_amount data) (d_reason data)) c
             (if is_gain_name (cr_name c) then b + d_amount data
              else b - d_amount data)); simpl;
    [|apply lookup_insert_eq|exact Hc|apply lookup_insert_eq].
  f_equal. rewrite <- (Db_eta db) at 4. f_equal.
  - rewrite insert_insert_eq. apply insert_id. rewrite Hb. f_equal.
    destruct (is_gain_name (cr_name c)); lia.
  - by apply delete_insert_id.
Qed.




Lemma updated_balances_initialised cats old new (bals : gmap BalanceType Z) :
  (∀ m, is_Some (bals !! m)) →
  ∀ m, is_Some (updated_balances cats old new bals !! m).
Proof.
  intros Hinit m. unfold updated_balances.
  case_bool_decide; repeat apply is_Some_insert_balance; apply Hinit.
Qed.

Lemma updated_balances_undo cats old new old' (bals : gmap BalanceType Z) :
  (∀ m, is_Some (bals !! m)) →
  tr_paymentMethod old' = tr_paymentMethod old →
  effect cats old' = effect cats old →
  updated_balances cats new old' (updated_balances cats old new bals) = bals.
Proof.
  intros Hinit Hpm Heff. apply map_eq. intros m.
  destruct (Hinit (tr_paymentMethod old)) as [bo Hbo].
  destruct (Hinit (tr_paymentMethod new)) as [bn Hbn].
  destruct (Hinit m) as [bm Hbm].
  unfold updated_balances. rewrite Hpm, Heff.
  generalize (effect cats old) (effect cats new). intros eo en.
  destruct (decide (tr_paymentMethod old = tr_paymentMethod new)) as [Heq|Hne].
  - rewrite !(bool_decide_eq_false_2 (tr_paymentMethod old ≠ tr_paymentMethod new))
      by (intros Hn; by apply Hn).
    rewrite !(bool_decide_eq_false_2 (tr_paymentMethod new ≠ tr_paymentMethod old))
      by (intros Hn; by apply Hn).
    rewrite Heq in *.
    destruct (decide (tr_paymentMethod new = m)) as [<-|Hm];
      simplify_map_eq; [f_equal; lia|done].
  - rewrite !(bool_decide_eq_true_2 (tr_paymentMethod old ≠ tr_paymentMethod new)) by done.
    rewrite !(bool_decide_eq_true_2 (tr_paymentMethod new ≠ tr_paymentMethod old)) by done.
    destruct (decide (tr_paymentMethod new = m)) as [<-|Hm];
      [simplify_map_eq; f_equal; lia|].
    destruct (decide (tr_paymentMethod old = m)) as [<-|Hm'];
      simplify_map_eq; [f_equal; lia|done].
Qed.

(** In the integer model, an update followed by an update back to the old
    payment method, category and amount restores every balance. *)
Lemma updateTransaction_undone_by_update (tid : string) (now now' : Z)
    (data : NewTransactionData) (db : Db) (old : TransactionRow) :
  balances_initialised db →
  transactions db !! tid = Some old →
  is_Some (categories db !! tr_categoryId old) →
  is_Some (categories db !! d_categoryId data) →
  (updateTransaction tid now data db).1 = true
  ∧ (updateTransaction tid now'
       (mkNewTransactionData (tr_paymentMethod old) (tr_categoryId old)
          (tr_amount old) (tr_reason old))
       (updateTransaction tid now data db).2).1 = true
  ∧ balances (updateTransaction tid now'
       (mkNewTransactionData (tr_paymentMethod old) (tr_categoryId old)
          (tr_amount old) (tr_reason old))
       (updateTransaction tid now data db).2).2 = balances db
  ∧ transactions (updateTransaction tid now'
       (mkNewTransactionData (tr_paymentMethod old) (tr_categoryId old)
          (tr_amount old) (tr_reason old))
       (updateTransaction tid now data db).2).2
    = <[tid := mkTransactionRow now' (tr_paymentMethod old) (tr_categoryId old)
                 (tr_amount old) (reason_or_null (tr_reason old))]> (transactions db).
Proof.
  intros Hinit Ht [co Hco] [cn Hcn].
  rewrite (updateTransaction_ok tid now data db old cn) by done. simpl.
  split; [done|].
  set (new := mkTransactionRow now _ _ _ _).
  set (db1 := mkDb _ _ _).
  assert (balances_initialised db1) as Hinit1
    by (intros m; simpl; by apply updated_balances_initialised).
  rewrite (updateTransaction_ok tid now' _ db1 new co);
    [|apply lookup_insert_eq|exact Hco|exact Hinit1].
  simpl. split; [done|]. split.
  - by apply updated_balances_undo.
  - apply insert_insert_eq.
Qed.

(** ** The schema constraints are kept by every function that writes *)

Lemma sql_preserves_ret {A} (P : Db → Prop) (a : A) : sql_preserves P (mret a).
Proof. intros db a' db' HP [= _ <-]. done. Qed.

Lemma sql_preserves_throw {A} (P : Db → Prop) : sql_preserves P (@throw A).
Proof. intros db a db' _ [=]. Qed.

Lemma sql_preserves_bind {A B} (P : Db → Prop) (m : Sql A) (f : A → Sql B) :
  sql_preserves P m → (∀ a, sql_preserves P (f a)) → sql_preserves P (m ≫= f).
Proof.
  intros Hm Hf db b db' HP. unfold mbind, Sql_bind.
  destruct (m db) as [[a db1]|] eqn:Hmdb; [|done].
  intros Hfa. eapply Hf; [|exact Hfa]. by eapply Hm.
Qed.

Lemma sql_preserves_read {A} (P : Db → Prop) (g : Db → A) :
  sql_preserves P (λ db, Some (g db, db)).
Proof. intros db a db' HP [= _ <-]. done. Qed.

Lemma is_Some_insert_balance_gen `{Countable K} {V} (m : gmap K V) i v j :
  is_Some (m !! j) → is_Some (<[i := v]> m !! j).
Proof.
  intros Hj. rewrite lookup_insert. case_decide; [eauto|done].
Qed.

Lemma schema_ok_set_balance db m v :
  is_Some (balances db !! m) → schema_ok db →
  schema_ok (with_balances (<[m := v]> (balances db)) db).
Proof.
  intros Hm (Hfk & Hnames & Hinit). split; [|split]; [done..|].
  intros m'. simpl. by apply is_Some_insert_balance.
Qed.

Lemma schema_ok_update_balance v m : sql_preserves schema_ok (update_balance v m).
Proof.
  intros db a db' HP. unfold update_balance.
  destruct (balances db !! m) eqn:Hm; intros [= _ <-]; [|done].
  apply schema_ok_set_balance; [by rewrite Hm|done].
Qed.

Lemma schema_ok_increment_balance v m : sql_preserves schema_ok (increment_balance v m).
Proof.
  intros db a db' HP. unfold increment_balance.
  destruct (balances db !! m) eqn:Hm; intros [= _ <-]; [|done].
  apply schema_ok_set_balance; [by rewrite Hm|done].
Qed.

Lemma schema_ok_decrement_balance v m : sql_preserves schema_ok (decrement_balance v m).
Proof.
  intros db a db' HP. unfold decrement_balance.
  destruct (balances db !! m) eqn:Hm; intros [= _ <-]; [|done].
  apply schema_ok_set_balance; [by rewrite Hm|done].
Qed.

Lemma schema_ok_insert_transaction tid row :
  sql_preserves schema_ok (insert_transaction tid row).
Proof.
  intros db a db' (Hfk & Hnames & Hinit). unfold insert_transaction.
  destruct (transactions db !! tid) eqn:Ht; [done|].
  destruct (categories db !! tr_categoryId row) as [c|] eqn:Hc; [|done].
  intros [= _ <-]. split; [|split]; [|done..].
  intros tid' row'. simpl. rewrite lookup_insert. case_decide.
  - intros [= <-]. by rewrite Hc.
  - apply Hfk.
Qed.

Lemma schema_ok_delete_transaction_row tid :
  sql_preserves schema_ok (delete_transaction_row tid).
Proof.
  intros db a db' (Hfk & Hnames & Hinit). unfold delete_transaction_row.
  destruct (transactions db !! tid) eqn:Ht; intros [= _ <-]; [|done].
  split; [|split]; [|done..].
  intros tid' row'. simpl. rewrite lookup_delete. case_decide; [done|]. apply Hfk.
Qed.

Lemma schema_ok_update_transaction_row tid row :
  sql_preserves schema_ok (update_transaction_row tid row).
Proof.
  intros db a db' (Hfk & Hnames & Hinit). unfold update_transaction_row.
  destruct (transactions db !! tid) eqn:Ht; [|by intros [= _ <-]].
  destruct (categories db !! tr_categoryId row) as [c|] eqn:Hc; [|done].
  intros [= _ <-]. split; [|split]; [|done..].
  intros tid' row'. simpl. rewrite lookup_insert. case_decide.
  - intros [= <-]. by rewrite Hc.
  - apply Hfk.
Qed.

Lemma schema_ok_update_category_row id name limit :
  sql_preserves schema_ok (update_category_row id name limit).
Proof.
  intros db a db' (Hfk & Hnames & Hinit). unfold update_category_row.
  destruct (categories db !! id) as [c|] eqn:Hid; [|by intros [= _ <-]].
  case_bool_decide as Hdup; [done|]. intros [= _ <-].
  split; [|split]; [| |done].
  - intros tid row Hrow. simpl. apply is_Some_insert_balance_gen. by eapply Hfk.
  - intros i j ci cj. simpl. rewrite !lookup_insert.
    destruct (decide (id = i)) as [<-|Hi], (decide (id = j)) as [<-|Hj];
      [done| | |by apply Hnames].
    + intros [= <-] Hcj Hn. simpl in Hn.
      exfalso. apply Hdup. exists j, cj. split; [done|]. split; [done|]. done.
    + intros Hci [= <-] Hn. simpl in Hn.
      exfalso. apply Hdup. exists i, ci. split; [done|]. split; [done|]. done.
Qed.

Lemma schema_ok_delete_category_row id :
  sql_preserves schema_ok (delete_category_row id).
Proof.
  intros db a db' (Hfk & Hnames & Hinit). unfold delete_category_row.
  destruct (categories db !! id) as [c|] eqn:Hid; [|by intros [= _ <-]].
  case_bool_decide as Href; [done|]. intros [= _ <-].
  split; [|split]; [| |done].
  - intros tid row Hrow. simpl. rewrite lookup_delete_ne; [by eapply Hfk|].
    intros ->. apply Href. by exists tid, row.
  - intros i j ci cj. simpl. rewrite !lookup_delete.
    do 2 (case_decide; [done|]). apply Hnames.
Qed.

Lemma schema_ok_insert_category_row rowid name limit :
  sql_preserves schema_ok (insert_category_row rowid name limit).
Proof.
  intros db a db' (Hfk & Hnames & Hinit). unfold insert_category_row.
  case_bool_decide as Hdup; [done|].
  destruct (categories db !! rowid) as [c|] eqn:Hid; [done|].
  intros [= _ <-]. split; [|split]; [| |done].
  - intros tid row Hrow. simpl. apply is_Some_insert_balance_gen. by eapply Hfk.
  - intros i j ci cj. simpl. rewrite !lookup_insert.
    destruct (decide (rowid = i)) as [<-|Hi], (decide (rowid = j)) as [<-|Hj];
      [done| | |by apply Hnames].
    + intros [= <-] Hcj Hn. simpl in Hn.
      exfalso. apply Hdup. by exists j, cj.
    + intros Hci [= <-] Hn. simpl in Hn.
      exfalso. apply Hdup. by exists i, ci.
Qed.

Ltac sql_preserves_step :=
  first
    [ apply sql_preserves_ret
    | apply sql_preserves_throw
    | apply schema_ok_update_balance
    | apply schema_ok_increment_balance
    | apply schema_ok_decrement_balance
    | apply schema_ok_insert_transaction
    | apply schema_ok_delete_transaction_row
    | apply schema_ok_update_transaction_row
    | apply sql_preserves_read
    | apply sql_preserves_bind; [|intros ?]
    | match goal with
      | |- sql_preserves _ (match ?x with _ => _ end) => destruct x
      end ].

Lemma schema_ok_addTransaction_body newId timestamp data :
  sql_preserves schema_ok (addTransaction_body newId timestamp data).
Proof. unfold addTransaction_body. repeat sql_preserves_step. Qed.

Lemma schema_ok_deleteTransaction_body tid :
  sql_preserves schema_ok (deleteTransaction_body tid).
Proof. unfold deleteTransaction_body. repeat sql_preserves_step. Qed.

Lemma schema_ok_updateTransaction_body tid now data :
  sql_preserves schema_ok (updateTransaction_body tid now data).
Proof. unfold updateTransaction_body. repeat sql_preserves_step. Qed.

Lemma schema_ok_insert_test_transaction snapshot newId transData :
  sql_preserves schema_ok (insert_test_transaction snapshot newId transData).
Proof. unfold insert_test_transaction. repeat sql_preserves_step. Qed.

Lemma sql_preserves_insert_test_transactions (P : Db → Prop) snapshot uuids l :
  (∀ newId transData, transData ∈ l →
     sql_preserves P (insert_test_transaction snapshot newId transData)) →
  ∀ n, sql_preserves P (insert_test_transactions snapshot uuids n l).
Proof.
  induction l as [|transData l IH]; intros Hstep n; simpl.
  - apply sql_preserves_ret.
  - apply sql_preserves_bind; [apply Hstep; by left|].
    intros success. apply IH. intros newId t Ht. apply Hstep. by right.
Qed.

Lemma generateTestDataForMonth_cases tz rng uuids year month count db :
  generateTestDataForMonth tz rng uuids year month count db = (false, db)
  ∨ ∃ l n db',
      pick_test_transactions rng
        (List.find (λ c, is_gain_name (c_name c)) (getAllCategories db))
        (List.filter (λ c, negb (is_gain_name (c_name c))) (getAllCategories db))
        (newDate tz year (month - 1) 1)
        (newDate tz year month 1 - newDate tz year (month - 1) 1) count 0 = Some l
      ∧ insert_test_transactions (getAllCategories db) uuids 0 l db = Some (n, db')
      ∧ generateTestDataForMonth tz rng uuids year month count db = (true, db').
Proof.
  unfold generateTestDataForMonth.
  destruct (_ && _); [by left|].
  destruct (pick_test_transactions _ _ _ _ _ _ _) as [l|] eqn:Hl; [|by left].
  destruct (insert_test_transactions _ _ _ _ _) as [[n db']|] eqn:Hins; [|by left].
  right. by exists l, n, db'.
Qed.

(** X6. Every function of database.ts that writes keeps the constraints of
    the schema: each transaction references an existing category, category
    names are unique, and both balance rows exist. This holds for the
    result of a call whether it succeeds or fails. *)
Theorem schema_constraints_preserved (db : Db) :
  schema_ok db →
  (∀ newId timestamp data, schema_ok (addTransaction newId timestamp data db).2)
  ∧ (∀ tid now data, schema_ok (updateTransaction tid now data db).2)
  ∧ (∀ tid, schema_ok (deleteTransaction tid db).2)
  ∧ (∀ type newAmount, schema_ok (updateBalance type newAmount db).2)
  ∧ (∀ rowid name limit, schema_ok (addCategory rowid name limit db).2)
  ∧ (∀ id name limit, schema_ok (updateCategory id name limit db).2)
  ∧ (∀ id, schema_ok (deleteCategory id db).2)
  ∧ (∀ tz rng uuids year month count,
       schema_ok (generateTestDataForMonth tz rng uuids year month count db).2).
Proof.
  intros Hok.
  split; [|split; [|split; [|split; [|split; [|split; [|split]]]]]].
  - intros newId timestamp data. unfold addTransaction.
    destruct (addTransaction_body _ _ _ db) as [[t db']|] eqn:Hb; [|done].
    by eapply schema_ok_addTransaction_body.
  - intros tid now data. unfold updateTransaction.
    destruct (updateTransaction_body _ _ _ db) as [[r db']|] eqn:Hb; [|done].
    by eapply schema_ok_updateTransaction_body.
  - intros tid. unfold deleteTransaction.
    destruct (deleteTransaction_body _ db) as [[r db']|] eqn:Hb; [|done].
    by eapply schema_ok_deleteTransaction_body.
  - intros type newAmount. unfold updateBalance.
    destruct (update_balance _ _ db) as [[r db']|] eqn:Hb; [|done].
    by eapply schema_ok_update_balance.
  - intros rowid name limit. unfold addCategory.
    case_bool_decide; [done|]. destruct (String.eqb _ _); [done|].
    destruct (insert_category_row _ _ _ db) as [[r db']|] eqn:Hb; [|done].
    assert (schema_ok db') by (by eapply schema_ok_insert_category_row).
    by case_bool_decide.
  - intros id name limit. unfold updateCategory.
    case_bool_decide; [done|]. destruct (String.eqb _ _); [done|].
    destruct (update_category_row _ _ _ db) as [[r db']|] eqn:Hb; [|done].
    by eapply schema_ok_update_category_row.
  - intros id. unfold deleteCategory.
    destruct (delete_category_row _ db) as [[r db']|] eqn:Hb; [|done].
    by eapply schema_ok_delete_category_row.
  - intros tz rng uuids year month count.
    destruct (generateTestDataForMonth_cases tz rng uuids year month count db)
      as [->|(l & n & db' & _ & Hins & ->)]; [done|].
    simpl. eapply sql_preserves_insert_test_transactions; [|exact Hok|exact Hins].
    intros newId transData _. apply schema_ok_insert_test_transaction.
Qed.

Lemma schema_ok_initial_db : schema_ok initial_db.
Proof.
  split; [|split].
  - intros tid row Hrow. unfold initial_db in Hrow. simpl in Hrow.
    by rewrite lookup_empty in Hrow.
  - intros i j ci cj Hi Hj Hn.
    apply elem_of_map_to_list in Hi, Hj.
    vm_compute in Hi, Hj.
    repeat (apply elem_of_cons in Hi as [Hi|Hi]; [injection Hi as -> ->|]);
      [..|by apply elem_of_nil in Hi];
      repeat (apply elem_of_cons in Hj as [Hj|Hj]; [injection Hj as -> ->|]);
      try (by apply elem_of_nil in Hj); try done; simpl in Hn; discriminate.
  - apply balances_initialised_initial_db.
Qed.

Lemma schema_constraints_preserved_sample :
  schema_ok (addTransaction "tx-9" 7000 groceries_200 initial_db).2
  ∧ schema_ok (deleteCategory 2 initial_db).2
  ∧ schema_ok (updateCategory 3 "Bills" None initial_db).2.
Proof.
  destruct (schema_constraints_preserved initial_db schema_ok_initial_db)
    as (Hadd & _ & _ & _ & _ & Hupd & Hdel & _).
  split; [apply Hadd|]. split; [apply Hdel|apply Hupd].
Defined.

(** ** Categories and the ledger invariant *)

Lemma sum_rows_empty f : sum_rows f ∅ = 0.
Proof. unfold sum_rows. by rewrite map_fold_empty. Qed.

Lemma sum_rows_insert f (txs : gmap string TransactionRow) i row :
  txs !! i = None → sum_rows f (<[i := row]> txs) = f row + sum_rows f txs.
Proof.
  intros Hi. unfold sum_rows.
  rewrite map_fold_insert_L; [done| |done]. intros. lia.
Qed.

Lemma sum_effects_sum_rows cats m txs :
  sum_effects cats m txs = sum_rows (effect_on cats m) txs.
Proof. reflexivity. Qed.

Lemma sum_rows_ext f g (txs : gmap string TransactionRow) :
  (∀ i row, txs !! i = Some row → f row = g row) →
  sum_rows f txs = sum_rows g txs.
Proof.
  induction txs as [|i row txs Hi IH] using map_ind; intros Hfg.
  - by rewrite !sum_rows_empty.
  - rewrite !sum_rows_insert by done. rewrite IH.
    + f_equal. apply (Hfg i). apply lookup_insert_eq.
    + intros j row' Hj. apply (Hfg j). rewrite lookup_insert_ne; [done|].
      intros ->. congruence.
Qed.

Lemma sum_rows_linear f g k (txs : gmap string TransactionRow) :
  sum_rows (λ row, f row + k * g row) txs = sum_rows f txs + k * sum_rows g txs.
Proof.
  induction txs as [|i row txs Hi IH] using map_ind.
  - rewrite !sum_rows_empty. lia.
  - rewrite !sum_rows_insert by done. rewrite IH. lia.
Qed.

Lemma effect_on_same_gain cats cats' m row :
  row_is_gain cats row = row_is_gain cats' row →
  effect_on cats m row = effect_on cats' m row.
Proof. intros H. unfold effect_on, effect. by rewrite H. Qed.

Lemma ledger_invariant_same_gain db cats' :
  (∀ tid row, transactions db !! tid = Some row →
     row_is_gain (categories db) row = row_is_gain cats' row) →
  ledger_invariant db → ledger_invariant (with_categories cats' db).
Proof.
  intros Hsame Hinv m. specialize (Hinv m).
  unfold getBalance, ledger_sum in *. simpl. rewrite Hinv.
  rewrite !sum_effects_sum_rows. apply sum_rows_ext.
  intros i row Hrow. apply effect_on_same_gain. by eapply Hsame.
Qed.

Lemma deleteCategory_cases id db :
  deleteCategory id db = (false, db)
  ∨ (is_Some (categories db !! id)
     ∧ ¬ map_Exists (λ _ row, tr_categoryId row = id) (transactions db)
     ∧ deleteCategory id db = (true, with_categories (delete id (categories db)) db)).
Proof.
  unfold deleteCategory, delete_category_row.
  destruct (categories db !! id) as [c|]; [|by left].
  case_bool_decide; [by left|]. right. eauto.
Qed.

Lemma updateCategory_cases id name limit db :
  updateCategory id name limit db = (false, db)
  ∨ (is_Some (categories db !! id)
     ∧ updateCategory id name limit db
       = (true, with_categories
                  (<[id := mkCategoryRow (trim name) limit]> (categories db)) db)).
Proof.
  unfold updateCategory, update_category_row.
  case_bool_decide; [by left|]. destruct (String.eqb _ _); [by left|].
  destruct (categories db !! id) as [c|]; [|by left].
  case_bool_decide; [by left|]. right. eauto.
Qed.

Lemma addCategory_cases rowid name limit db :
  (addCategory rowid name limit db).2 = db
  ∨ (categories db !! rowid = None
     ∧ ¬ map_Exists (λ _ c, cr_name c = trim name) (categories db)
     ∧ (addCategory rowid name limit db).2
       = with_categories (<[rowid := mkCategoryRow (trim name) limit]> (categories db)) db).
Proof.
  unfold addCategory, insert_category_row.
  case_bool_decide; [by left|]. destruct (String.eqb _ _); [by left|].
  case_bool_decide; [by left|].
  destruct (categories db !! rowid) as [c|]; [by left|].
  right. split; [done|]. split; [done|]. by case_bool_decide.
Qed.

(** X7. The category functions keep the ledger invariant (every balance
    equals the sum of the effects of its transactions) in these cases:
    deleteCategory always, because it only removes a category no transaction
    references; addCategory when every transaction references an existing
    category; updateCategory when the new name is a Gain name exactly if the
    old one was. *)
Theorem category_functions_keep_ledger_invariant (db : Db) :
  ledger_invariant db →
  (∀ id, ledger_invariant (deleteCategory id db).2)
  ∧ (foreign_keys_ok db →
     ∀ rowid name limit, ledger_invariant (addCategory rowid name limit db).2)
  ∧ (∀ id name limit c,
       categories db !! id = Some c →
       is_gain_name (trim name) = is_gain_name (cr_name c) →
       ledger_invariant (updateCategory id name limit db).2).
Proof.
  intros Hinv. split; [|split].
  - intros id.
    destruct (deleteCategory_cases id db) as [->|(_ & Href & ->)]; [done|].
    simpl. apply ledger_invariant_same_gain; [|done].
    intros tid row Hrow. unfold row_is_gain.
    rewrite lookup_delete_ne; [done|].
    intros ->. apply Href. by exists tid, row.
  - intros Hfk rowid name limit.
    destruct (addCategory_cases rowid name limit db) as [->|(Hfresh & _ & ->)]; [done|].
    apply ledger_invariant_same_gain; [|done].
    intros tid row Hrow. unfold row_is_gain.
    rewrite lookup_insert_ne; [done|].
    intros ->. destruct (Hfk tid row Hrow) as [c Hc]. congruence.
  - intros id name limit c Hc Hgain.
    destruct (updateCategory_cases id name limit db) as [->|(_ & ->)]; [done|].
    simpl. apply ledger_invariant_same_gain; [|done].
    intros tid row Hrow. unfold row_is_gain.
    destruct (decide (id = tr_categoryId row)) as [->|Hne].
    + rewrite lookup_insert_eq, Hc. simpl. by rewrite Hgain.
    + by rewrite lookup_insert_ne.
Qed.

Lemma ledger_invariant_db_bills_100 : ledger_invariant db_bills_100.
Proof. intros []; vm_compute; reflexivity. Qed.

Lemma category_functions_keep_ledger_invariant_sample :
  ledger_invariant (deleteCategory 3 db_bills_100).2
  ∧ ledger_invariant (updateCategory 5 " Utilities " (Some 900) db_bills_100).2.
Proof.
  destruct (category_functions_keep_ledger_invariant db_bills_100
              ledger_invariant_db_bills_100) as (Hdel & _ & Hupd).
  split; [apply Hdel|].
  apply (Hupd 5 " Utilities " (Some 900) (mkCategoryRow "Bills" None)).
  - vm_compute; reflexivity.
  - reflexivity.
Defined.

(** X8. Renaming a non-Gain category to a Gain name re-signs every
    transaction that references it: balances stay as they are, while the sum
    of effects of each payment method grows by twice the total amount of the
    referencing transactions on that method. *)
Theorem updateCategory_rename_to_gain (id : Z) (name : string) (limit : option Z)
    (db : Db) (c : CategoryRow) :
  categories db !! id = Some c →
  is_gain_name (cr_name c) = false →
  is_gain_name (trim name) = true →
  (updateCategory id name limit db).1 = true →
  ∀ m,
    getBalance (updateCategory id name limit db).2 m = getBalance db m
    ∧ ledger_sum (updateCategory id name limit db).2 m
      = ledger_sum db m + 2 * sum_rows (referencing_amount id m) (transactions db).
Proof.
  intros Hc Hold Hnew Htrue m.
  destruct (updateCategory_cases id name limit db) as [Hf|(_ & Hok)];
    [rewrite Hf in Htrue; done|].
  rewrite Hok. simpl. split; [done|].
  unfold ledger_sum. simpl. rewrite !sum_effects_sum_rows.
  rewrite <- sum_rows_linear. apply sum_rows_ext.
  intros tid row _. unfold effect_on, effect, row_is_gain, referencing_amount.
  destruct (decide (tr_categoryId row = id)) as [Heq|Hne].
  - rewrite Heq, lookup_insert_eq, Hc. simpl. rewrite Hnew, Hold.
    rewrite (bool_decide_eq_true_2 (id = id)) by done.
    simpl. case_bool_decide; lia.
  - rewrite lookup_insert_ne by done.
    rewrite (bool_decide_eq_false_2 (tr_categoryId row = id)) by done.
    simpl. case_bool_decide; lia.
Qed.

Lemma updateCategory_rename_to_gain_sample :
  getBalance (updateCategory 5 "gain" None db_bills_100).2 gpay
  = getBalance db_bills_100 gpay
  ∧ ledger_sum (updateCategory 5 "gain" None db_bills_100).2 gpay
    = ledger_sum db_bills_100 gpay
      + 2 * sum_rows (referencing_amount 5 gpay) (transactions db_bills_100).
Proof.
  apply (updateCategory_rename_to_gain 5 "gain" None db_bills_100
           (mkCategoryRow "Bills" None)).
  - vm_compute; reflexivity.
  - reflexivity.
  - reflexivity.
  - vm_compute; reflexivity.
Defined.

(** After that rename the balance of gpay is still -100 while the effects
    now sum to +100. *)
Lemma updateCategory_rename_to_gain_values :
  getBalance (updateCategory 5 "gain" None db_bills_100).2 gpay = -100
  ∧ ledger_sum (updateCategory 5 "gain" None db_bills_100).2 gpay = 100.
Proof. vm_compute. done. Qed.

(** ** Test data generation and the ledger *)

(** The snapshot [generateTestDataForMonth] takes of the categories
    classifies an id as the table itself does. *)
Lemma find_category_snapshot db id :
  is_gain_opt (c_name <$> find_category (getAllCategories db) id)
  = is_gain_opt (cr_name <$> categories db !! id).
Proof.
  unfold find_category.
  destruct (List.find _ _) as [c|] eqn:Hfind.
  - apply find_some in Hfind as [Hin Hid].
    apply Z.eqb_eq in Hid. subst id.
    apply list_elem_of_In, elem_of_getAllCategories in Hin. by rewrite Hin.
  - destruct (categories db !! id) as [crow|] eqn:Hrow; [|done].
    assert (mkCategory id (cr_name crow) (cr_monthlyLimit crow) ∈ getAllCategories db)
      as Hin.
    { apply elem_of_getAllCategories. simpl. rewrite Hrow. by destruct crow. }
    apply list_elem_of_In in Hin.
    pose proof (find_none _ _ Hfind _ Hin) as Hne. simpl in Hne.
    apply Z.eqb_neq in Hne. done.
Qed.

Lemma random_element_elem_of {A} rng k (arr : list A) x :
  random_element rng k arr = Some x → x ∈ arr.
Proof. unfold random_element. apply list_elem_of_lookup_2. Qed.

Lemma pick_test_transaction_tail rng first range cid amount k1 transData k' :
  (paymentMethod ← random_element rng k1 paymentMethods;
   reason ← random_element rng (S k1) reasons;
   Some (Some (mkTestTransaction paymentMethod cid amount (reason +:+ " (Test)")
                 (first + floor_times (random rng (S (S k1))) range)),
         S (S (S k1)))) = Some (Some transData, k') →
  tt_categoryId transData = cid
  ∧ tt_amount transData = amount
  ∧ (∃ reason, reason ∈ reasons ∧ tt_reason transData = reason +:+ " (Test)")
  ∧ (0 < range → first ≤ tt_timestamp transData < first + range).
Proof.
  destruct (random_element rng k1 paymentMethods) as [pm|] eqn:Hpm; [|done].
  destruct (random_element rng (S k1) reasons) as [reason|] eqn:Hreason; [|done].
  simpl. intros [= <- _]. simpl. split; [done|]. split; [done|]. split.
  - exists reason. split; [by eapply random_element_elem_of|done].
  - intros Hrange.
    pose proof (floor_times_random_range rng (S (S k1)) range Hrange) as Hfl.
    revert Hfl. generalize (floor_times (random rng (S (S k1))) range). clear. lia.
Qed.

Lemma pick_test_transaction_generated rng gainCategory expenseCategories first range
    k transData k' :
  pick_test_transaction rng gainCategory expenseCategories first range k
  = Some (Some transData, k') →
  generated_ok gainCategory expenseCategories first range transData.
Proof.
  unfold pick_test_transaction, choose_category.
  generalize (choose_gain rng gainCategory k). intros [isGain k0]. simpl.
  assert ((if bool_decide (0 < length expenseCategories)%nat then
             randomCategory ← random_element rng k0 expenseCategories;
             Some (Some (c_id randomCategory,
                         floor_times (random rng (S k0)) (3000 - 50 + 1) + 50),
                   S (S k0))
           else Some (None, k0))
          ≫= (λ chosen : option (Z * Z) * nat,
                match chosen with
                | (None, k1) => Some (None, k1)
                | (Some (categoryId, amount), k1) =>
                    paymentMethod ← random_element rng k1 paymentMethods;
                    reason ← random_element rng (S k1) reasons;
                    Some (Some (mkTestTransaction paymentMethod categoryId amount
                                  (reason +:+ " (Test)")
                                  (first + floor_times (random rng (S (S k1))) range)),
                          S (S (S k1)))
                end) = Some (Some transData, k') →
          generated_ok gainCategory expenseCategories first range transData) as Hexp.
  { case_bool_decide; [|done].
    destruct (random_element rng k0 expenseCategories) as [c|] eqn:Hc; [|done].
    simpl. intros (Hcid & Hamt & Hreason & Hts)%pick_test_transaction_tail.
    split; [|done]. right. exists c.
    split; [by eapply random_element_elem_of|]. split; [done|].
    rewrite Hamt.
    pose proof (floor_times_random_range rng (S k0) 2951 ltac:(lia)) as Hfl.
    change (3000 - 50 + 1) with 2951 in *.
    revert Hfl. generalize (floor_times (random rng (S k0)) 2951). clear. lia. }
  destruct isGain; [|exact Hexp].
  destruct gainCategory as [gc|]; [|exact Hexp].
  simpl. intros (Hcid & Hamt & Hreason & Hts)%pick_test_transaction_tail.
  split; [|done]. left. exists gc. split; [done|]. split; [done|].
  rewrite Hamt.
  pose proof (floor_times_random_range rng k0 15001 ltac:(lia)) as Hfl.
  change (20000 - 5000 + 1) with 15001 in *.
  revert Hfl. generalize (floor_times (random rng k0) 15001). clear. lia.
Qed.

Lemma pick_test_transactions_generated rng gainCategory expenseCategories first range
    count :
  ∀ k l,
    pick_test_transactions rng gainCategory expenseCategories first range count k = Some l →
    Forall (generated_ok gainCategory expenseCategories first range) l.
Proof.
  induction count as [|count IH]; intros k l; simpl.
  - intros [= <-]. constructor.
  - destruct (pick_test_transaction _ _ _ _ _ _) as [[picked k']|] eqn:Hpick; [|done].
    simpl.
    destruct (pick_test_transactions _ _ _ _ _ _ _) as [rest|] eqn:Hrest; [|done].
    simpl. intros [= <-]. specialize (IH k' rest Hrest).
    destruct picked as [transData|]; [|done].
    constructor; [|done]. by eapply pick_test_transaction_generated.
Qed.

Lemma days_from_civil_step (y m m' : Z) :
  1 ≤ m ≤ 11 → m' = m + 1 →
  28 ≤ days_from_civil y m' - days_from_civil y m ≤ 31.
Proof.
  intros Hm Hm'.
  assert (m = 1 ∨ m = 2 ∨ m = 3 ∨ m = 4 ∨ m = 5 ∨ m = 6 ∨ m = 7 ∨ m = 8 ∨ m = 9
          ∨ m = 10 ∨ m = 11) as Hc by lia.
  unfold days_from_civil.
  repeat (destruct Hc as [->|Hc]); try subst m;
    match type of Hm' with
    | _ = ?a + 1 => let v := eval vm_compute in (a + 1) in
                    assert (m' = v) as -> by lia
    end;
    cbn -[Z.div Z.mul Z.add Z.sub];
    Z.div_mod_to_equations; lia.
Qed.

Lemma days_from_civil_new_year (y y' : Z) :
  y' = y + 1 → days_from_civil y' 1 - days_from_civil y 12 = 31.
Proof.
  intros ->. unfold days_from_civil. cbn -[Z.div Z.mul Z.add Z.sub].
  replace (y + 1 - 1) with y by lia.
  Z.div_mod_to_equations; lia.
Qed.

Lemma newDate_month_span (tz year month : Z) :
  1 ≤ month ≤ 12 →
  28 * msPerDay ≤ newDate tz year month 1 - newDate tz year (month - 1) 1
  ≤ 31 * msPerDay.
Proof.
  intros Hm. unfold newDate.
  generalize (if (0 <=? year) && (year <=? 99) then 1900 + year else year).
  intros yr.
  assert ((month - 1) `div` 12 = 0) as -> by (apply Z.div_small; lia).
  assert ((month - 1) `mod` 12 = month - 1) as -> by (apply Z.mod_small; lia).
  replace (month - 1 + 1) with month by lia.
  destruct (decide (month = 12)) as [->|Hne].
  - change (12 `div` 12) with 1. change (12 `mod` 12) with 0.
    pose proof (days_from_civil_new_year (yr + 0) (yr + 1) ltac:(lia)) as Hd.
    unfold msPerDay. change (0 + 1) with 1. lia.
  - assert (month `div` 12 = 0) as -> by (apply Z.div_small; lia).
    assert (month `mod` 12 = month) as -> by (apply Z.mod_small; lia).
    pose proof (days_from_civil_step (yr + 0) month (month + 1) ltac:(lia) eq_refl) as Hd.
    unfold msPerDay. lia.
Qed.

Lemma february_2024_has_29_days :
  newDate 0 2024 2 1 - newDate 0 2024 1 1 = 29 * msPerDay
  ∧ newDate 0 2023 2 1 - newDate 0 2023 1 1 = 28 * msPerDay
  ∧ newDate 0 1900 2 1 - newDate 0 1900 1 1 = 28 * msPerDay
  ∧ newDate 0 2000 2 1 - newDate 0 2000 1 1 = 29 * msPerDay.
Proof. vm_compute. done. Qed.

Lemma balances_nonnegative_insert db m v txs :
  0 ≤ v → balances_nonnegative db →
  balances_nonnegative (mkDb (categories db) (<[m := v]> (balances db)) txs).
Proof.
  intros Hv Hnn m'. specialize (Hnn m'). unfold getBalance in *. simpl.
  rewrite lookup_insert. case_decide; [done|done].
Qed.

Lemma balances_nonnegative_insert_test_transaction snapshot newId transData :
  0 ≤ tt_amount transData →
  sql_preserves balances_nonnegative (insert_test_transaction snapshot newId transData).
Proof.
  intros Hamt db a db' Hnn. unfold insert_test_transaction. sql_unfold.
  pose proof (Hnn (tt_paymentMethod transData)) as Hpm. unfold getBalance in Hpm.
  destruct (is_gain_opt _); simpl.
  - destruct (balances db !! tt_paymentMethod transData) as [b|] eqn:Hb; simpl;
      destruct (transactions db !! newId); try done;
      destruct (categories db !! tt_categoryId transData); try done;
      intros [= _ <-].
    + apply balances_nonnegative_insert; [simpl in Hpm; lia|done].
    + intros m. apply (Hnn m).
  - case_bool_decide as Hle; simpl; [|by intros [= _ <-]].
    destruct (balances db !! tt_paymentMethod transData) as [b|] eqn:Hb; simpl;
      destruct (transactions db !! newId); try done;
      destruct (categories db !! tt_categoryId transData); try done;
      intros [= _ <-].
    + apply balances_nonnegative_insert; [simpl in Hle; lia|done].
    + intros m. apply (Hnn m).
Qed.

(** X10. generateTestDataForMonth never makes a balance negative: if no
    balance is negative before the call, none is after it. *)
Theorem generateTestDataForMonth_keeps_balances_nonnegative (tz : Z) (rng : nat → Z)
    (uuids : nat → string) (year month : Z) (count : nat) (db : Db) :
  balances_nonnegative db →
  balances_nonnegative (generateTestDataForMonth tz rng uuids year month count db).2.
Proof.
  intros Hnn.
  destruct (generateTestDataForMonth_cases tz rng uuids year month count db)
    as [->|(l & n & db' & Hpick & Hins & ->)]; [done|].
  simpl. apply pick_test_transactions_generated in Hpick.
  eapply (sql_preserves_insert_test_transactions balances_nonnegative);
    [|exact Hnn|exact Hins].
  intros newId transData Hin.
  apply balances_nonnegative_insert_test_transaction.
  rewrite Forall_forall in Hpick.
  destruct (Hpick transData Hin) as ([(g & _ & _ & Hamt)|(c & _ & _ & Hamt)] & _); lia.
Qed.

Lemma generateTestDataForMonth_keeps_balances_nonnegative_sample :
  balances_nonnegative
    (generateTestDataForMonth 0 sample_rng sample_uuids 2024 3 6 initial_db).2.
Proof.
  apply (generateTestDataForMonth_keeps_balances_nonnegative 0 sample_rng sample_uuids
           2024 3 6 initial_db).
  intros []; vm_compute; discriminate.
Defined.

Lemma append_test_suffix_nonempty (reason : string) :
  reason_or_null (Some (reason +:+ " (Test)")) = Some (reason +:+ " (Test)").
Proof. by destruct reason. Qed.

Lemma generated_row_of_transData db first range transData :
  0 < range →
  generated_ok (List.find (λ c, is_gain_name (c_name c)) (getAllCategories db))
    (List.filter (λ c, negb (is_gain_name (c_name c))) (getAllCategories db))
    first range transData →
  generated_row (categories db) first range
    (mkTransactionRow (tt_timestamp transData) (tt_paymentMethod transData)
       (tt_categoryId transData) (tt_amount transData)
       (reason_or_null (Some (tt_reason transData)))).
Proof.
  intros Hrange (Hkind & (reason & Hin & Hreason) & Hts).
  split; [by apply Hts|]. split.
  - unfold row_is_gain. simpl.
    destruct Hkind as [(g & Hg & -> & Hamt)|(c & Hc & -> & Hamt)].
    + apply find_some in Hg as [Hgin Hgain].
      apply list_elem_of_In, elem_of_getAllCategories in Hgin.
      rewrite Hgin. simpl. by rewrite Hgain.
    + apply list_elem_of_In, filter_In in Hc as [Hcin Hexp].
      apply list_elem_of_In, elem_of_getAllCategories in Hcin.
      rewrite Hcin. simpl. apply negb_true_iff in Hexp. by rewrite Hexp.
  - exists reason. split; [done|]. simpl tr_reason.
    rewrite Hreason. apply append_test_suffix_nonempty.
Qed.

Lemma generated_rows_insert_test_transaction db0 first range snapshot newId transData :
  generated_row (categories db0) first range
    (mkTransactionRow (tt_timestamp transData) (tt_paymentMethod transData)
       (tt_categoryId transData) (tt_amount transData)
       (reason_or_null (Some (tt_reason transData)))) →
  sql_preserves
    (λ db, (∀ tid row, transactions db0 !! tid = Some row →
                       transactions db !! tid = Some row)
           ∧ (∀ tid row, transactions db !! tid = Some row →
                transactions db0 !! tid = Some row
                ∨ generated_row (categories db0) first range row))
    (insert_test_transaction snapshot newId transData).
Proof.
  intros Hgen db a db' [Hold Hnew].
  set (row := mkTransactionRow _ _ _ _ _) in *.
  assert (transactions db !! newId = None →
          (∀ tid row', transactions db0 !! tid = Some row' →
             <[newId := row]> (transactions db) !! tid = Some row')
          ∧ (∀ tid row', <[newId := row]> (transactions db) !! tid = Some row' →
               transactions db0 !! tid = Some row'
               ∨ generated_row (categories db0) first range row')) as Hins.
  { intros Hfresh. split.
    - intros tid row' Hrow. rewrite lookup_insert_ne; [by apply Hold|].
      intros <-. apply Hold in Hrow. congruence.
    - intros tid row'. rewrite lookup_insert. case_decide.
      + intros [= <-]. by right.
      + apply Hnew. }
  unfold insert_test_transaction. fold row. clearbody row. sql_unfold.
  destruct (is_gain_opt _); simpl.
  - destruct (balances db !! tt_paymentMethod transData) as [b|] eqn:Hb; simpl;
      destruct (transactions db !! newId) eqn:Hfresh; try done;
      destruct (categories db !! tr_categoryId row); try done;
      intros [= _ <-]; simpl; apply (Hins eq_refl).
  - case_bool_decide as Hle; simpl; [|by intros [= _ <-]].
    destruct (balances db !! tt_paymentMethod transData) as [b|] eqn:Hb; simpl;
      destruct (transactions db !! newId) eqn:Hfresh; try done;
      destruct (categories db !! tr_categoryId row); try done;
      intros [= _ <-]; simpl; apply (Hins eq_refl).
Qed.

(** X11. generateTestDataForMonth for a month 1..12 keeps every existing
    transaction as it is, and every row it adds has a time stamp within the
    month, an amount of 5000..20000 when its category is a Gain category and
    of 50..3000 otherwise, and one of the ten reasons followed by
    " (Test)". *)
Theorem generateTestDataForMonth_rows (tz : Z) (rng : nat → Z)
    (uuids : nat → string) (year month : Z) (count : nat) (db : Db) :
  1 ≤ month ≤ 12 →
  (∀ tid row, transactions db !! tid = Some row →
     transactions (generateTestDataForMonth tz rng uuids year month count db).2 !! tid
     = Some row)
  ∧ (∀ tid row,
       transactions (generateTestDataForMonth tz rng uuids year month count db).2 !! tid
       = Some row →
       transactions db !! tid = Some row
       ∨ generated_row (categories db) (newDate tz year (month - 1) 1)
           (newDate tz year month 1 - newDate tz year (month - 1) 1) row).
Proof.
  intros Hmonth.
  pose proof (newDate_month_span tz year month Hmonth) as Hlen.
  destruct (generateTestDataForMonth_cases tz rng uuids year month count db)
    as [->|(l & n & db' & Hpick & Hins & ->)]; [simpl; split; auto|].
  simpl. apply pick_test_transactions_generated in Hpick.
  refine (sql_preserves_insert_test_transactions
            (λ db1, (∀ tid row, transactions db !! tid = Some row →
                                transactions db1 !! tid = Some row)
                    ∧ (∀ tid row, transactions db1 !! tid = Some row →
                         transactions db !! tid = Some row
                         ∨ generated_row (categories db) (newDate tz year (month - 1) 1)
                             (newDate tz year month 1 - newDate tz year (month - 1) 1)
                             row))
            (getAllCategories db) uuids l _ 0%nat db n db' _ Hins).
  - intros newId transData Hin.
    apply generated_rows_insert_test_transaction.
    apply generated_row_of_transData; [unfold msPerDay in Hlen; lia|].
    rewrite Forall_forall in Hpick. by apply Hpick.
  - split; [intros tid row Hrow; exact Hrow|intros tid row Hrow; by left].
Qed.

Lemma generateTestDataForMonth_rows_sample :
  (∀ tid row, transactions db_bills_100 !! tid = Some row →
     transactions (generateTestDataForMonth 0 sample_rng sample_uuids 2024 3 6
                     db_bills_100).2 !! tid = Some row)
  ∧ (∀ tid row,
       transactions (generateTestDataForMonth 0 sample_rng sample_uuids 2024 3 6
                       db_bills_100).2 !! tid = Some row →
       transactions db_bills_100 !! tid = Some row
       ∨ generated_row (categories db_bills_100) (newDate 0 2024 (3 - 1) 1)
           (newDate 0 2024 3 1 - newDate 0 2024 (3 - 1) 1) row).
Proof.
  apply (generateTestDataForMonth_rows 0 sample_rng sample_uuids 2024 3 6 db_bills_100).
  lia.
Defined.

(** ** Balances *)

Lemma foldl_insert_not_in `{Countable K} {V} (l : list (K * V)) (acc : gmap K V) k :
  k ∉ l.*1 → foldl (λ acc row, <[row.1 := row.2]> acc) acc l !! k = acc !! k.
Proof.
  revert acc. induction l as [|[k' v'] l IH]; intros acc Hk; simpl; [done|].
  rewrite fmap_cons, not_elem_of_cons in Hk. destruct Hk as [Hne Hk]. simpl in Hne.
  rewrite IH by done. by rewrite lookup_insert_ne.
Qed.

Lemma foldl_insert_in `{Countable K} {V} (l : list (K * V)) (acc : gmap K V) k v :
  NoDup l.*1 → (k, v) ∈ l →
  foldl (λ acc row, <[row.1 := row.2]> acc) acc l !! k = Some v.
Proof.
  revert acc. induction l as [|[k' v'] l IH]; intros acc Hnd Hin; simpl.
  - by apply elem_of_nil in Hin.
  - rewrite fmap_cons in Hnd. apply NoDup_cons in Hnd as [Hk' Hnd]. simpl in Hk'.
    apply elem_of_cons in Hin as [[= -> ->]|Hin].
    + rewrite foldl_insert_not_in by done. apply lookup_insert_eq.
    + by apply IH.
Qed.

Lemma foldl_insert_map_to_list `{Countable K} {V} (m : gmap K V) :
  foldl (λ acc row, <[row.1 := row.2]> acc) ∅ (map_to_list m) = m.
Proof.
  apply map_eq. intros k. destruct (m !! k) as [v|] eqn:Hk.
  - apply foldl_insert_in; [apply NoDup_fst_map_to_list|].
    by apply elem_of_map_to_list.
  - rewrite foldl_insert_not_in; [apply lookup_empty|].
    intros ([k' v] & -> & Hin)%list_elem_of_fmap.
    apply elem_of_map_to_list in Hin. simpl in Hk. congruence.
Qed.

Lemma getAllBalances_getBalance db :
  getAllBalances db = mkAllBalances (getBalance db gpay) (getBalance db cash).
Proof. unfold getAllBalances, getBalance. by rewrite foldl_insert_map_to_list. Qed.

(** X13. updateBalance returns true exactly when the balance row exists. It
    then stores the new amount, of any sign, so that getAllBalances reads it
    back for that type and the old value for the other type, and it touches
    no transaction; when the row is missing it changes nothing. *)
Theorem updateBalance_then_getAllBalances (type : BalanceType) (newAmount : Z)
    (db : Db) :
  ((updateBalance type newAmount db).1 = true ↔ is_Some (balances db !! type))
  ∧ (is_Some (balances db !! type) →
     getAllBalances (updateBalance type newAmount db).2
     = match type with
       | gpay => mkAllBalances newAmount (getBalance db cash)
       | cash => mkAllBalances (getBalance db gpay) newAmount
       end)
  ∧ (balances db !! type = None → (updateBalance type newAmount db).2 = db)
  ∧ transactions (updateBalance type newAmount db).2 = transactions db
  ∧ categories (updateBalance type newAmount db).2 = categories db.
Proof.
  unfold updateBalance, update_balance.
  destruct (balances db !! type) as [b|] eqn:Hb; simpl.
  - split; [split; [eauto|done]|]. split; [|split; [done|done]].
    intros _. rewrite getAllBalances_getBalance. unfold getBalance. simpl.
    destruct type; simplify_map_eq; done.
  - split; [split; [done|by intros [? ?]]|]. split; [by intros [? ?]|done].
Qed.

(** ** Categories *)

(** X14. With unique category names, getGainCategoryId returns the id of
    the category whose name is exactly "Gain", and null when there is none:
    a category the ledger treats as Gain under another spelling, such as
    "gain", is not found. What it returns is a Gain category for the
    ledger. *)
Theorem getGainCategoryId_exact_name (db : Db) :
  names_unique db →
  (∀ id, getGainCategoryId db = Some id
         ↔ ∃ c, categories db !! id = Some c ∧ cr_name c = "Gain")
  ∧ (getGainCategoryId db = None
     ↔ ∀ id c, categories db !! id = Some c → cr_name c ≠ "Gain")
  ∧ (∀ id, getGainCategoryId db = Some id →
       is_gain_opt (cr_name <$> categories db !! id) = true).
Proof.
  intros Huniq. unfold getGainCategoryId.
  assert (∀ id c,
            (id, c) ∈ filter (λ kv : Z * CategoryRow, cr_name kv.2 = "Gain")
                        (map_to_list (categories db))
            ↔ categories db !! id = Some c ∧ cr_name c = "Gain") as Hl.
  { intros id c. rewrite list_elem_of_filter, elem_of_map_to_list. simpl. tauto. }
  revert Hl.
  generalize (filter (λ kv : Z * CategoryRow, cr_name kv.2 = "Gain")
                (map_to_list (categories db))).
  intros l Hl.
  assert (∀ id, fst <$> head l = Some id
                ↔ ∃ c, categories db !! id = Some c ∧ cr_name c = "Gain") as Hsome.
  { intros id. split.
    - destruct l as [|[id' c] l']; [done|]. simpl. intros [= ->].
      exists c. apply Hl. by left.
    - intros (c & Hc & Hname).
      destruct l as [|[id' c'] l'].
      + assert ((id, c) ∈ @nil (Z * CategoryRow)) as Hin by (by apply Hl).
        by apply elem_of_nil in Hin.
      + simpl. f_equal.
        assert ((id', c') ∈ (id', c') :: l') as Hin by (by left).
        apply Hl in Hin as [Hc' Hname'].
        apply (Huniq id' id c' c); congruence. }
  split; [exact Hsome|]. split.
  - split.
    + intros Hnone id c Hc Hname.
      assert (fst <$> head l = Some id) as Hid by (apply Hsome; eauto). congruence.
    + intros Hno. destruct l as [|[id c] l']; [done|].
      assert ((id, c) ∈ (id, c) :: l') as Hin by (by left).
      apply Hl in Hin as [Hc Hname]. by destruct (Hno id c Hc).
  - intros id (c & Hc & Hname)%Hsome. rewrite Hc. simpl. by rewrite Hname.
Qed.

Lemma getGainCategoryId_exact_name_sample :
  getGainCategoryId initial_db = Some 2
  ∧ is_gain_opt (cr_name <$> categories initial_db !! 2) = true.
Proof.
  destruct (getGainCategoryId_exact_name initial_db (proj1 (proj2 schema_ok_initial_db)))
    as (Hsome & _ & Hgain).
  assert (getGainCategoryId initial_db = Some 2) as Hid.
  { apply Hsome. exists (mkCategoryRow "Gain" None). split; vm_compute; reflexivity. }
  split; [exact Hid|]. by apply Hgain.
Defined.

(** A category named "gain" counts as Gain for addTransaction, yet
    getGainCategoryId does not find it. *)
Lemma getGainCategoryId_lower_case :
  getGainCategoryId (updateCategory 2 "gain" None initial_db).2 = None
  ∧ is_gain_opt (cr_name <$> categories (updateCategory 2 "gain" None initial_db).2 !! 2)
    = true.
Proof. vm_compute. done. Qed.

Lemma ascii_compare_refl (a : ascii) : Ascii.compare a a = Eq.
Proof. unfold Ascii.compare. apply N.compare_refl. Qed.

Lemma ascii_compare_lt_trans (a b c : ascii) :
  Ascii.compare a b = Lt → Ascii.compare b c = Lt → Ascii.compare a c = Lt.
Proof.
  unfold Ascii.compare. rewrite !N.compare_lt_iff. apply N.lt_trans.
Qed.

Lemma string_leb_trans (s1 s2 s3 : string) :
  String.leb s1 s2 = true → String.leb s2 s3 = true → String.leb s1 s3 = true.
Proof.
  unfold String.leb. revert s2 s3.
  induction s1 as [|a s1 IH]; intros [|b s2] [|c s3]; simpl; try done.
  destruct (Ascii.compare a b) eqn:Hab; [| |done];
    destruct (Ascii.compare b c) eqn:Hbc; try done.
  - apply Ascii.compare_eq_iff in Hab, Hbc. subst.
    rewrite ascii_compare_refl. apply IH.
  - apply Ascii.compare_eq_iff in Hab. subst. by rewrite Hbc.
  - apply Ascii.compare_eq_iff in Hbc. subst. by rewrite Hab.
  - by rewrite (ascii_compare_lt_trans a b c).
Qed.

Global Instance name_le_transitive : Transitive name_le.
Proof. intros a b c. unfold name_le. apply string_leb_trans. Qed.

Global Instance name_le_total : Total name_le.
Proof. intros a b. unfold name_le. apply String.leb_total. Qed.

(** X16. getAllCategories lists every category row exactly once, with its
    id, name and limit, in ascending order of name (bytewise, so upper case
    sorts before lower case). *)
Theorem getAllCategories_sorted_and_complete (db : Db) :
  StronglySorted name_le (getAllCategories db)
  ∧ getAllCategories db ≡ₚ category_of <$> map_to_list (categories db)
  ∧ NoDup (c_id <$> getAllCategories db)
  ∧ length (getAllCategories db) = size (categories db)
  ∧ (∀ c, c ∈ getAllCategories db
          ↔ categories db !! c_id c = Some (mkCategoryRow (c_name c) (c_monthlyLimit c))).
Proof.
  assert (getAllCategories db ≡ₚ category_of <$> map_to_list (categories db)) as Hperm
    by apply merge_sort_Permutation.
  split; [apply StronglySorted_merge_sort; apply _|].
  split; [exact Hperm|]. split; [|split].
  - rewrite Hperm. rewrite <- list_fmap_compose.
    apply (NoDup_fst_map_to_list (categories db)).
  - rewrite Hperm. rewrite length_fmap. apply length_map_to_list.
  - apply elem_of_getAllCategories.
Qed.

Lemma getAllCategories_initial_db :
  c_name <$> getAllCategories initial_db
  = ["Bills"; "Entertainment"; "Gain"; "Groceries"; "Other Expense"; "Transport";
     "Uncategorized"].
Proof. vm_compute. reflexivity. Qed.

(** X15. addCategory returns null and changes nothing when the trimmed name
    is empty, is "all" in any letter case, or is already the name of a
    category. Otherwise, the storage engine assigning a fresh non-zero id,
    it returns the new category with the trimmed name, and getAllCategories
    afterwards lists it together with the categories there were. *)
Theorem addCategory_validates_and_inserts (rowid : Z) (name : string)
    (limit : option Z) (db : Db) :
  categories db !! rowid = None →
  rowid ≠ 0 →
  (trim name = EmptyString
   ∨ toLowerCase (trim name) = "all"
   ∨ (∃ id c, categories db !! id = Some c ∧ cr_name c = trim name) →
   addCategory rowid name limit db = (None, db))
  ∧ (trim name ≠ EmptyString →
     toLowerCase (trim name) ≠ "all" →
     (∀ id c, categories db !! id = Some c → cr_name c ≠ trim name) →
     (addCategory rowid name limit db).1 = Some (mkCategory rowid (trim name) limit)
     ∧ getAllCategories (addCategory rowid name limit db).2
       ≡ₚ mkCategory rowid (trim name) limit :: getAllCategories db
     ∧ balances (addCategory rowid name limit db).2 = balances db
     ∧ transactions (addCategory rowid name limit db).2 = transactions db).
Proof.
  intros Hfresh Hnz. unfold addCategory, insert_category_row. split.
  - intros Hbad. case_bool_decide as Hempty; [done|].
    destruct (String.eqb_spec (toLowerCase (trim name)) "all") as [Hall|Hall]; [done|].
    destruct Hbad as [?|[?|(id & c & Hc & Hname)]]; [done..|].
    rewrite bool_decide_eq_true_2; [done|]. by exists id, c.
  - intros Hempty Hall Hnew.
    rewrite bool_decide_eq_false_2 by done.
    destruct (String.eqb_spec (toLowerCase (trim name)) "all") as [?|_]; [done|].
    rewrite bool_decide_eq_false_2 by (intros (id & c & Hc & Hname); by eapply Hnew).
    rewrite Hfresh. rewrite bool_decide_eq_true_2 by done. simpl.
    rewrite lookup_insert_eq. simpl. split; [done|]. split; [|done].
    unfold getAllCategories, with_categories. simpl.
    rewrite !merge_sort_Permutation.
    rewrite map_to_list_insert by done. done.
Qed.

Lemma addCategory_validates_and_inserts_sample :
  (addCategory 8 "  Rent " (Some 12000) initial_db).1
  = Some (mkCategory 8 (trim "  Rent ") (Some 12000))
  ∧ getAllCategories (addCategory 8 "  Rent " (Some 12000) initial_db).2
    ≡ₚ mkCategory 8 (trim "  Rent ") (Some 12000) :: getAllCategories initial_db
  ∧ balances (addCategory 8 "  Rent " (Some 12000) initial_db).2 = balances initial_db
  ∧ transactions (addCategory 8 "  Rent " (Some 12000) initial_db).2
    = transactions initial_db.
Proof.
  apply (addCategory_validates_and_inserts 8 "  Rent " (Some 12000) initial_db).
  - vm_compute; reflexivity.
  - discriminate.
  - vm_compute; discriminate.
  - vm_compute; discriminate.
  - intros id c Hc Hname. apply elem_of_map_to_list in Hc. vm_compute in Hc, Hname.
    repeat (apply elem_of_cons in Hc as [Hc|Hc]; [injection Hc as -> ->; discriminate|]).
    by apply elem_of_nil in Hc.
Defined.

Lemma addCategory_rejections :
  addCategory 8 "   " None initial_db = (None, initial_db)
  ∧ addCategory 8 " ALL " None initial_db = (None, initial_db)
  ∧ addCategory 8 "Groceries" None initial_db = (None, initial_db)
  ∧ (addCategory 8 "groceries" None initial_db).1 = Some (mkCategory 8 "groceries" None).
Proof. vm_compute. done. Qed.

(** ** Reading transactions back *)

Lemma elem_of_joined_rows db t :
  t ∈ joined_rows db
  ↔ ∃ row c, transactions db !! t_id t = Some row
             ∧ categories db !! tr_categoryId row = Some c
             ∧ t = mkTransaction (t_id t) (tr_timestamp row) (tr_paymentMethod row)
                     (tr_categoryId row) (tr_amount row) (tr_reason row)
                     (Some (cr_name c)).
Proof.
  unfold joined_rows. rewrite list_elem_of_omap. split.
  - intros ([tid row] & Hin & Hjoin). apply elem_of_map_to_list in Hin.
    unfold join_category in Hjoin. simpl in Hjoin.
    destruct (categories db !! tr_categoryId row) as [c|] eqn:Hc; [|done].
    simpl in Hjoin. injection Hjoin as <-. simpl. by exists row, c.
  - intros (row & c & Hrow & Hc & Ht). exists (t_id t, row).
    split; [by apply elem_of_map_to_list|].
    unfold join_category. simpl. rewrite Hc. simpl. by rewrite <- Ht.
Qed.

(** X17. After a successful addTransaction the new transaction can be read
    back: getTransactionById returns it with the fields that were passed and
    the name of its category, getAllTransactions without filters lists that
    row, and lookups of other ids are unchanged. *)
Theorem addTransaction_read_back (tz : Z) (newId : string) (timestamp : Z)
    (data : NewTransactionData) (db : Db) (c : CategoryRow) :
  categories db !! d_categoryId data = Some c →
  is_Some (balances db !! d_paymentMethod data) →
  transactions db !! newId = None →
  getTransactionById newId (addTransaction newId timestamp data db).2
  = Some (mkTransaction newId timestamp (d_paymentMethod data) (d_categoryId data)
            (d_amount data) (d_reason data) (Some (cr_name c)))
  ∧ mkTransaction newId timestamp (d_paymentMethod data) (d_categoryId data)
      (d_amount data) (d_reason data) (Some (cr_name c))
    ∈ getAllTransactions tz no_filters (addTransaction newId timestamp data db).2
  ∧ (∀ tid, tid ≠ newId →
       getTransactionById tid (addTransaction newId timestamp data db).2
       = getTransactionById tid db).
Proof.
  intros Hc [b Hb] Hfresh.
  rewrite (addTransaction_ok _ _ _ _ c b) by done. simpl.
  split; [|split].
  - unfold getTransactionById. simpl. rewrite lookup_insert_eq. simpl. by rewrite Hc.
  - unfold getAllTransactions, no_filters. simpl.
    rewrite merge_sort_Permutation. apply list_elem_of_filter.
    split; [constructor|].
    apply elem_of_joined_rows. simpl.
    eexists _, c. rewrite lookup_insert_eq. split; [done|]. split; [exact Hc|done].
  - intros tid Hne. unfold getTransactionById. simpl.
    by rewrite lookup_insert_ne.
Qed.

Lemma addTransaction_read_back_sample :
  getTransactionById "tx-9" (addTransaction "tx-9" 7000 groceries_200 initial_db).2
  = Some (mkTransaction "tx-9" 7000 gpay 3 200 None (Some "Groceries"))
  ∧ mkTransaction "tx-9" 7000 gpay 3 200 None (Some "Groceries")
    ∈ getAllTransactions 0 no_filters (addTransaction "tx-9" 7000 groceries_200 initial_db).2
  ∧ (∀ tid, tid ≠ "tx-9" →
       getTransactionById tid (addTransaction "tx-9" 7000 groceries_200 initial_db).2
       = getTransactionById tid initial_db).
Proof.
  apply (addTransaction_read_back 0 "tx-9" 7000 groceries_200 initial_db
           (mkCategoryRow "Groceries" None)).
  - vm_compute; reflexivity.
  - vm_compute; eauto.
  - vm_compute; reflexivity.
Defined.

(** X18. With a positive limit n getAllTransactions returns the first n
    rows of the result without limit, so at most n rows, and every row it
    leaves out is at most as new as every row it returns. *)
Theorem getAllTransactions_limit_newest (tz : Z) (filters : TransactionFilters)
    (db : Db) (n : Z) :
  f_limit filters = Some n →
  0 < n →
  getAllTransactions tz filters db
  = take (Z.to_nat n) (getAllTransactions tz (with_limit None filters) db)
  ∧ (length (getAllTransactions tz filters db) ≤ Z.to_nat n)%nat
  ∧ (∀ t u,
       t ∈ getAllTransactions tz filters db →
       u ∈ drop (Z.to_nat n) (getAllTransactions tz (with_limit None filters) db) →
       t_timestamp u ≤ t_timestamp t).
Proof.
  intros Hlimit Hn.
  assert (getAllTransactions tz filters db
          = take (Z.to_nat n) (getAllTransactions tz (with_limit None filters) db))
    as Heq.
  { unfold getAllTransactions at 1. rewrite Hlimit. unfold apply_limit.
    rewrite !bool_decide_eq_true_2 by lia. reflexivity. }
  split; [exact Heq|]. split.
  - rewrite Heq, length_take. lia.
  - intros t u Ht Hu. rewrite Heq in Ht.
    assert (StronglySorted newest_first
              (take (Z.to_nat n) (getAllTransactions tz (with_limit None filters) db)
               ++ drop (Z.to_nat n)
                    (getAllTransactions tz (with_limit None filters) db))) as Hsorted.
    { rewrite take_drop. unfold getAllTransactions. simpl.
      apply StronglySorted_merge_sort; apply _. }
    by apply (StronglySorted_app_1_elem_of _ _ _ t u Hsorted).
Qed.

Lemma getAllTransactions_limit_newest_sample :
  getAllTransactions 0 groceries_limit_1 db_three_rows
  = take (Z.to_nat 1)
      (getAllTransactions 0 (with_limit None groceries_limit_1) db_three_rows)
  ∧ (length (getAllTransactions 0 groceries_limit_1 db_three_rows) ≤ Z.to_nat 1)%nat
  ∧ (∀ t u,
       t ∈ getAllTransactions 0 groceries_limit_1 db_three_rows →
       u ∈ drop (Z.to_nat 1)
             (getAllTransactions 0 (with_limit None groceries_limit_1) db_three_rows) →
       t_timestamp u ≤ t_timestamp t).
Proof.
  apply (getAllTransactions_limit_newest 0 groceries_limit_1 db_three_rows 1).
  - reflexivity.
  - lia.
Defined.

(** X20. In a time zone at a fixed offset from UTC (one without daylight
    saving time, such as India's), with only year and month set, both
    non-zero, getAllTransactions returns exactly the joined rows whose time
    stamp lies from the first day of that month, 00:00 local time, up to but
    excluding the first day of the next month. *)
Theorem getAllTransactions_month_window (tz year month : Z) (db : Db)
    (t : Transaction) :
  year ≠ 0 → month ≠ 0 →
  t ∈ getAllTransactions tz (month_filter year month) db
  ↔ t ∈ joined_rows db
    ∧ newDate tz year (month - 1) 1 ≤ t_timestamp t < newDate tz year month 1.
Proof.
  intros Hy Hm.
  rewrite getAllTransactions_unlimited by (simpl; intros l Hl; congruence).
  rewrite merge_sort_Permutation, list_elem_of_filter.
  unfold whereClauses, date_clauses, method_clauses, category_clauses,
    search_clauses, month_filter. simpl.
  rewrite !(bool_decide_eq_true_2 (_ ≠ 0)) by done. simpl.
  rewrite where_holds_singleton.
  assert (newDate tz year month 0 + (24 * 60 * 60 * 1000 - 1)
          = newDate tz year month 1 - 1) as ->.
  { unfold newDate, msPerDay. lia. }
  rewrite andb_true_iff, !Z.leb_le. split.
  - intros [Hw Hj]. split; [done|lia].
  - intros [Hj Hw]. split; [lia|done].
Qed.

Lemma getAllTransactions_month_window_sample :
  mkTransaction "tx-2" 1704196800000 gpay 2 300 (Some "Salary") (Some "Gain")
  ∈ getAllTransactions 0 (month_filter 2024 1) db_three_rows
  ↔ mkTransaction "tx-2" 1704196800000 gpay 2 300 (Some "Salary") (Some "Gain")
    ∈ joined_rows db_three_rows
    ∧ newDate 0 2024 (1 - 1) 1
      ≤ t_timestamp (mkTransaction "tx-2" 1704196800000 gpay 2 300 (Some "Salary")
                       (Some "Gain"))
      < newDate 0 2024 1 1.
Proof.
  apply (getAllTransactions_month_window 0 2024 1 db_three_rows); discriminate.
Defined.

Lemma getAllTransactions_month_examples :
  t_id <$> getAllTransactions 0 (month_filter 2024 1) db_three_rows
  = ["tx-3"; "tx-2"; "tx-1"]
  ∧ getAllTransactions 0 (month_filter 2024 2) db_three_rows = []
  ∧ t_id <$> getAllTransactions 0 (month_filter 0 2) db_three_rows
    = ["tx-3"; "tx-2"; "tx-1"].
Proof. vm_compute. done. Qed.

(** ** The search text *)

Lemma like_match_percent (p s : list ascii) :
  like_match ("%"%char :: p) s
  = like_match p s
    || match s with
       | [] => false
       | _ :: s' => like_match ("%"%char :: p) s'
       end.
Proof. destruct s; reflexivity. Qed.

Lemma like_match_literal (c : ascii) (p s : list ascii) :
  c ≠ "%"%char → c ≠ "_"%char →
  like_match (c :: p) s
  = match s with
    | [] => false
    | d :: s' => Ascii.eqb (lower_ascii c) (lower_ascii d) && like_match p s'
    end.
Proof.
  intros Hp Hu. simpl.
  rewrite (proj2 (Ascii.eqb_neq c "%") Hp).
  destruct s as [|d s']; [done|].
  by rewrite (proj2 (Ascii.eqb_neq c "_") Hu).
Qed.

Lemma like_match_any (s : list ascii) : like_match ["%"%char] s = true.
Proof.
  induction s as [|d s IH]; [reflexivity|].
  rewrite like_match_percent. rewrite IH. apply orb_true_r.
Qed.

(** A pattern that starts with [%] matches when the rest matches a suffix. *)
Lemma like_match_percent_iff (p s : list ascii) :
  like_match ("%"%char :: p) s = true
  ↔ ∃ pre rest, s = pre ++ rest ∧ like_match p rest = true.
Proof.
  induction s as [|d s IH].
  - rewrite like_match_percent, orb_false_r. split.
    + intros H. by exists [], [].
    + intros (pre & rest & Hs & H). symmetry in Hs.
      apply app_eq_nil in Hs as [-> ->]. done.
  - rewrite like_match_percent, orb_true_iff, IH. split.
    + intros [H|(pre & rest & -> & H)].
      * by exists [], (d :: s).
      * by exists (d :: pre), rest.
    + intros (pre & rest & Hs & H). destruct pre as [|d' pre].
      * left. simpl in Hs. by subst.
      * right. injection Hs as -> ->. by exists pre, rest.
Qed.

(** A text without wildcards followed by [%] matches the strings that start
    with the text, letter case aside. *)
Lemma like_match_prefix_iff (text s : list ascii) :
  no_wildcard text →
  like_match (text ++ ["%"%char]) s = true
  ↔ ∃ mid post, s = mid ++ post ∧ same_letters mid text.
Proof.
  intros Htext. revert s.
  induction Htext as [|c text [Hp Hu] Htext IH]; intros s.
  - simpl app. rewrite like_match_any. split; [|done].
    intros _. by exists [], s.
  - simpl app. rewrite like_match_literal by done.
    destruct s as [|d s].
    + split; [done|]. intros (mid & post & Hs & Hsame). symmetry in Hs.
      apply app_eq_nil in Hs as [-> ->]. done.
    + rewrite andb_true_iff, Ascii.eqb_eq, IH. split.
      * intros (Hcd & mid & post & -> & Hsame). exists (d :: mid), post.
        split; [done|]. unfold same_letters in *.
        rewrite !fmap_cons. by rewrite Hcd, Hsame.
      * intros (mid & post & Hs & Hsame). destruct mid as [|d' mid]; [done|].
        injection Hs as -> ->. unfold same_letters in *.
        rewrite !fmap_cons in Hsame.
        injection Hsame as Hd Hsame. split; [done|]. by exists mid, post.
Qed.

Lemma list_ascii_of_string_app (a b : string) :
  list_ascii_of_string (a +:+ b) = list_ascii_of_string a ++ list_ascii_of_string b.
Proof. induction a as [|c a IH]; simpl; [done|]. by rewrite IH. Qed.

(** X19. For a search text without the characters % and _, the pattern
    [%text%] that getAllTransactions builds matches a reason exactly when
    the text occurs in it as a substring, the case of ASCII letters aside; a
    transaction without a reason never matches. *)
Theorem sql_like_substring (text : string) (reason : option string) :
  no_wildcard (list_ascii_of_string text) →
  sql_like reason ("%" +:+ text +:+ "%") = true
  ↔ ∃ r pre mid post,
      reason = Some r
      ∧ list_ascii_of_string r = pre ++ mid ++ post
      ∧ same_letters mid (list_ascii_of_string text).
Proof.
  intros Htext. unfold sql_like. destruct reason as [r|].
  - assert (list_ascii_of_string ("%" +:+ text +:+ "%")
            = "%"%char :: list_ascii_of_string text ++ ["%"%char]) as ->
      by (rewrite !list_ascii_of_string_app; reflexivity).
    rewrite like_match_percent_iff. split.
    + intros (pre & rest & Hr & Hmatch).
      apply like_match_prefix_iff in Hmatch as (mid & post & -> & Hsame); [|done].
      by exists r, pre, mid, post.
    + intros (r' & pre & mid & post & [= <-] & Hr & Hsame).
      exists pre, (mid ++ post). split; [done|].
      apply like_match_prefix_iff; [done|]. by exists mid, post.
  - split; [done|]. intros (r' & pre & mid & post & [=] & _).
Qed.

Lemma sql_like_substring_sample :
  sql_like (Some "Morning Coffee (Test)") ("%" +:+ "coffee" +:+ "%") = true
  ↔ ∃ r pre mid post,
      Some "Morning Coffee (Test)" = Some r
      ∧ list_ascii_of_string r = pre ++ mid ++ post
      ∧ same_letters mid (list_ascii_of_string "coffee").
Proof.
  apply (sql_like_substring "coffee" (Some "Morning Coffee (Test)")).
  repeat constructor; discriminate.
Defined.

(** The wildcards stay wildcards: "5_" finds "500", and "%" finds every
    reason, but none finds a missing reason. *)
Lemma sql_like_wildcard_examples :
  sql_like (Some "Paid 500") ("%" +:+ "5_" +:+ "%") = true
  ∧ sql_like (Some "Lunch") ("%" +:+ "%" +:+ "%") = true
  ∧ sql_like (Some "Lunch") ("%" +:+ "LUN" +:+ "%") = true
  ∧ sql_like (Some "Lunch") ("%" +:+ "lunches" +:+ "%") = false
  ∧ sql_like None ("%" +:+ "" +:+ "%") = false.
Proof. vm_compute. done. Qed.

(** ** The monthly analyzer *)



Lemma analyzer_examples :
  an_totalIncome <$> (analyzer_fetchData 0 2024 0 (Some 2) [] db_three_rows).2 = Some 300
  ∧ an_totalExpenses <$> (analyzer_fetchData 0 2024 0 (Some 2) [] db_three_rows).2
    = Some 275
  ∧ an_totalIncome <$> (analyzer_fetchData 0 2024 0 None [] db_three_rows).2 = Some 0
  ∧ (analyzer_fetchData 0 2024 0 (Some 2) [3] db_three_rows).2 = None
  ∧ t_id <$> (analyzer_fetchData 0 2024 0 (Some 2) [3] db_three_rows).1
    = ["tx-3"; "tx-2"; "tx-1"].
Proof. vm_compute. done. Qed.

(** ** The input forms *)

(** X23. handleSaveBalance of the budget screen refuses an input that is
    not a number or is negative and leaves the database as it is; otherwise
    it does what updateBalance does. So a manual correction never makes a
    balance negative. *)
Theorem handleSaveBalance_guards (currentEditingBalanceType : option BalanceType)
    (newAmountInput : ParsedNumber) (db : Db) :
  (currentEditingBalanceType = None ∨ newAmountInput = NotANumber
   ∨ (∃ v, newAmountInput = Number v ∧ v < 0) →
   (handleSaveBalance currentEditingBalanceType newAmountInput db).2 = db
   ∧ (handleSaveBalance currentEditingBalanceType newAmountInput db).1 ≠ Succeeded)
  ∧ (∀ type v, currentEditingBalanceType = Some type → newAmountInput = Number v →
       0 ≤ v →
       (handleSaveBalance currentEditingBalanceType newAmountInput db).2
       = (updateBalance type v db).2)
  ∧ (balances_nonnegative db →
     balances_nonnegative
       (handleSaveBalance currentEditingBalanceType newAmountInput db).2).
Proof.
  unfold handleSaveBalance. split; [|split].
  - intros [->|[->|(v & -> & Hv)]].
    + done.
    + by destruct currentEditingBalanceType.
    + destruct currentEditingBalanceType; [|done].
      by rewrite bool_decide_eq_true_2.
  - intros type v -> -> Hv. by rewrite bool_decide_eq_false_2 by lia.
  - intros Hnn. destruct currentEditingBalanceType as [type|]; [|done].
    destruct newAmountInput as [|v]; [done|].
    case_bool_decide as Hv; [done|]. simpl.
    unfold updateBalance, update_balance.
    destruct (balances db !! type) eqn:Hb; simpl; [|done].
    apply balances_nonnegative_insert; [lia|done].
Qed.

Lemma rows_insert (Q : TransactionRow → Prop) (txs : gmap string TransactionRow)
    tid row :
  Q row → (∀ i r, txs !! i = Some r → Q r) →
  ∀ i r, <[tid := row]> txs !! i = Some r → Q r.
Proof.
  intros Hrow Hall i r. rewrite lookup_insert. case_decide; [by intros [= <-]|].
  apply Hall.
Qed.

Lemma rows_delete (Q : TransactionRow → Prop) (txs : gmap string TransactionRow) tid :
  (∀ i r, txs !! i = Some r → Q r) →
  ∀ i r, delete tid txs !! i = Some r → Q r.
Proof.
  intros Hall i r. rewrite lookup_delete. case_decide; [done|]. apply Hall.
Qed.

Lemma addTransaction_transactions newId timestamp data db :
  transactions (addTransaction newId timestamp data db).2 = transactions db
  ∨ transactions (addTransaction newId timestamp data db).2
    = <[newId := mkTransactionRow timestamp (d_paymentMethod data) (d_categoryId data)
                   (d_amount data) (d_reason data)]> (transactions db).
Proof.
  destruct (categories db !! d_categoryId data) as [c|] eqn:Hc;
    [|rewrite addTransaction_fail by auto; by left].
  destruct (balances db !! d_paymentMethod data) as [b|] eqn:Hb;
    [|rewrite addTransaction_fail by auto; by left].
  destruct (transactions db !! newId) as [row|] eqn:Hfresh;
    [rewrite addTransaction_fail by eauto; by left|].
  rewrite (addTransaction_ok _ _ _ _ c b) by done. by right.
Qed.

Lemma deleteTransaction_transactions tid db :
  transactions (deleteTransaction tid db).2 = transactions db
  ∨ transactions (deleteTransaction tid db).2 = delete tid (transactions db).
Proof.
  destruct (transactions db !! tid) as [row|] eqn:Ht;
    [|rewrite deleteTransaction_fail by (by rewrite Ht); by left].
  destruct (categories db !! tr_categoryId row) as [c|] eqn:Hc;
    [|rewrite deleteTransaction_fail by (rewrite Ht; auto); by left].
  destruct (balances db !! tr_paymentMethod row) as [b|] eqn:Hb;
    [|rewrite deleteTransaction_fail by (rewrite Ht; auto); by left].
  rewrite (deleteTransaction_ok _ _ row c b) by done. by right.
Qed.

Lemma updateTransaction_transactions tid now data db :
  transactions (updateTransaction tid now data db).2 = transactions db
  ∨ transactions (updateTransaction tid now data db).2
    = <[tid := mkTransactionRow now (d_paymentMethod data) (d_categoryId data)
                 (d_amount data) (reason_or_null (d_reason data))]> (transactions db).
Proof.
  destruct (transactions db !! tid) as [old|] eqn:Ht;
    [|rewrite updateTransaction_fail by auto; by left].
  destruct (categories db !! d_categoryId data) as [c|] eqn:Hc;
    [|rewrite updateTransaction_fail by auto; by left].
  right. unfold updateTransaction, updateTransaction_body. sql_unfold.
  rewrite Ht. simpl. rewrite Hc. simpl.
  case_bool_decide; simpl.
  - destruct (balances db !! tr_paymentMethod old); simpl;
      destruct (_ !! d_paymentMethod data); simpl; rewrite Ht, Hc; done.
  - destruct (balances db !! d_paymentMethod data); simpl; rewrite Ht, Hc; done.
Qed.

Lemma amounts_positive_insert_test_transaction snapshot newId transData :
  0 < tt_amount transData →
  sql_preserves amounts_positive (insert_test_transaction snapshot newId transData).
Proof.
  intros Hamt db a db' Hpos. unfold insert_test_transaction. sql_unfold.
  assert (∀ bals,
            amounts_positive
              (mkDb (categories db) bals
                 (<[newId := mkTransactionRow (tt_timestamp transData)
                               (tt_paymentMethod transData) (tt_categoryId transData)
                               (tt_amount transData)
                               (reason_or_null (Some (tt_reason transData)))]>
                    (transactions db)))) as Hins.
  { intros bals. unfold amounts_positive. simpl.
    apply (rows_insert (λ r, 0 < tr_amount r)); [done|exact Hpos]. }
  destruct (is_gain_opt _); simpl.
  - destruct (balances db !! tt_paymentMethod transData) as [b|]; simpl;
      destruct (transactions db !! newId); try done;
      destruct (categories db !! tt_categoryId transData); try done;
      intros [= _ <-]; apply Hins.
  - case_bool_decide; simpl; [|by intros [= _ <-]].
    destruct (balances db !! tt_paymentMethod transData) as [b|]; simpl;
      destruct (transactions db !! newId); try done;
      destruct (categories db !! tt_categoryId transData); try done;
      intros [= _ <-]; apply Hins.
Qed.

(** X24. If every stored amount is positive, it stays so under
    handleAddNewTransaction of the budget screen (which refuses amounts that
    are not positive), under deleteTransaction, under
    generateTestDataForMonth, and under handleSaveChanges of the
    all-transactions screen when the amount entered is positive. *)
Theorem amounts_stay_positive (db : Db) :
  amounts_positive db →
  (∀ newId timestamp inputAmount inputReason inputPaymentMethod inputCategoryId,
     amounts_positive
       (handleAddNewTransaction newId timestamp inputAmount inputReason
          inputPaymentMethod inputCategoryId db).2)
  ∧ (∀ tid, amounts_positive (deleteTransaction tid db).2)
  ∧ (∀ tz rng uuids year month count,
       amounts_positive (generateTestDataForMonth tz rng uuids year month count db).2)
  ∧ (∀ editing now v reason paymentMethod categoryId,
       0 < v →
       amounts_positive
         (handleSaveChanges editing now (Number v) reason paymentMethod categoryId db).2).
Proof.
  intros Hpos. split; [|split; [|split]].
  - intros newId timestamp inputAmount inputReason pm cid.
    unfold handleAddNewTransaction.
    destruct inputAmount as [|v]; [done|].
    case_bool_decide as Hv; [done|].
    destruct cid as [cid|]; [|done]. simpl.
    unfold amounts_positive.
    destruct (addTransaction_transactions newId timestamp
                (mkNewTransactionData pm cid v (trimmed_reason inputReason)) db)
      as [->| ->]; [exact Hpos|].
    apply (rows_insert (λ r, 0 < tr_amount r)); [simpl; lia|exact Hpos].
  - intros tid. unfold amounts_positive.
    destruct (deleteTransaction_transactions tid db) as [->| ->]; [exact Hpos|].
    by apply (rows_delete (λ r, 0 < tr_amount r)).
  - intros tz rng uuids year month count.
    destruct (generateTestDataForMonth_cases tz rng uuids year month count db)
      as [->|(l & n & db' & Hpick & Hins & ->)]; [done|].
    simpl. apply pick_test_transactions_generated in Hpick.
    eapply (sql_preserves_insert_test_transactions amounts_positive);
      [|exact Hpos|exact Hins].
    intros newId transData Hin.
    apply amounts_positive_insert_test_transaction.
    rewrite Forall_forall in Hpick.
    destruct (Hpick transData Hin) as ([(g & _ & _ & Hamt)|(c & _ & _ & Hamt)] & _); lia.
  - intros editing now v reason pm cid Hv.
    unfold handleSaveChanges.
    destruct editing as [editing|]; [|done].
    destruct cid as [cid|]; [|done]. simpl.
    unfold amounts_positive.
    destruct (updateTransaction_transactions (t_id editing) now
                (mkNewTransactionData pm cid v (trimmed_reason reason)) db)
      as [->| ->]; [exact Hpos|].
    apply (rows_insert (λ r, 0 < tr_amount r)); [simpl; lia|exact Hpos].
Qed.

Lemma amounts_positive_db_bills_100 : amounts_positive db_bills_100.
Proof.
  intros tid row Hrow. apply elem_of_map_to_list in Hrow. vm_compute in Hrow.
  apply elem_of_cons in Hrow as [[= _ ->]|Hrow]; [done|].
  by apply elem_of_nil in Hrow.
Qed.

Lemma amounts_stay_positive_sample :
  amounts_positive
    (handleAddNewTransaction "tx-2" 2000 (Number 40) " tea " cash (Some 3) db_bills_100).2
  ∧ amounts_positive (deleteTransaction "tx-1" db_bills_100).2.
Proof.
  destruct (amounts_stay_positive db_bills_100 amounts_positive_db_bills_100)
    as (Hadd & Hdel & _).
  split; [apply Hadd|apply Hdel].
Defined.

(** The edit form accepts what the add form refuses: an amount of -5. *)
Lemma handleSaveChanges_negative_amount :
  (handleAddNewTransaction "tx-2" 2000 (Number (-5)) "" cash (Some 3) db_bills_100).1
  = InvalidAmount
  ∧ (handleSaveChanges (getTransactionById "tx-1" db_bills_100) 2000 (Number (-5)) ""
       gpay (Some 5) db_bills_100).1 = Succeeded
  ∧ tr_amount <$> transactions
      (handleSaveChanges (getTransactionById "tx-1" db_bills_100) 2000 (Number (-5)) ""
         gpay (Some 5) db_bills_100).2 !! "tx-1" = Some (-5).
Proof. vm_compute. done. Qed.

(** ** Deleting and updating, then reading *)

(** X25. A category that exactly one transaction references cannot be
    deleted, and can be deleted right after that transaction has been
    deleted. *)
Theorem deleteCategory_after_last_reference (tid : string) (id : Z) (db : Db)
    (row : TransactionRow) :
  transactions db !! tid = Some row →
  tr_categoryId row = id →
  is_Some (categories db !! id) →
  is_Some (balances db !! tr_paymentMethod row) →
  (∀ tid' row', tid' ≠ tid → transactions db !! tid' = Some row' →
     tr_categoryId row' ≠ id) →
  deleteCategory id db = (false, db)
  ∧ (deleteTransaction tid db).1 = true
  ∧ (deleteCategory id (deleteTransaction tid db).2).1 = true
  ∧ categories (deleteCategory id (deleteTransaction tid db).2).2 !! id = None.
Proof.
  intros Ht Hid [c Hc] [b Hb] Honly. split; [|split].
  - destruct (deleteCategory_cases id db) as [Hf|(_ & Href & _)]; [done|].
    exfalso. apply Href. by exists tid, row.
  - subst id. by rewrite (deleteTransaction_ok _ _ row c b).
  - assert ((deleteCategory id (deleteTransaction tid db).2).1 = true) as Htrue.
    { apply deleteCategory_true_iff. subst id.
      rewrite (deleteTransaction_ok _ _ row c b) by done. simpl.
      split; [eauto|]. intros (tid' & row' & Hrow' & Href). simpl in Href.
      rewrite lookup_delete in Hrow'. case_decide as Hne; [done|].
      by apply (Honly tid' row'). }
    split; [exact Htrue|].
    destruct (deleteCategory_cases id (deleteTransaction tid db).2)
      as [Hf|(_ & _ & ->)]; [rewrite Hf in Htrue; done|].
    simpl. apply lookup_delete_eq.
Qed.

Lemma deleteCategory_after_last_reference_sample :
  deleteCategory 5 db_bills_100 = (false, db_bills_100)
  ∧ (deleteTransaction "tx-1" db_bills_100).1 = true
  ∧ (deleteCategory 5 (deleteTransaction "tx-1" db_bills_100).2).1 = true
  ∧ categories (deleteCategory 5 (deleteTransaction "tx-1" db_bills_100).2).2 !! 5 = None.
Proof.
  apply (deleteCategory_after_last_reference "tx-1" 5 db_bills_100
           (mkTransactionRow 1000 gpay 5 100 None)).
  - vm_compute; reflexivity.
  - reflexivity.
  - vm_compute; eauto.
  - vm_compute; eauto.
  - intros tid' row' Hne Hrow'. apply elem_of_map_to_list in Hrow'.
    vm_compute in Hrow'.
    apply elem_of_cons in Hrow' as [[= -> _]|Hrow']; [done|].
    by apply elem_of_nil in Hrow'.
Defined.

(** X26. After a successful deleteTransaction the id is gone for every
    reader: getTransactionById returns null and no query of
    getAllTransactions lists it, while every other id reads as before. *)
Theorem deleteTransaction_then_read (tz : Z) (tid : string) (db : Db) :
  (deleteTransaction tid db).1 = true →
  getTransactionById tid (deleteTransaction tid db).2 = None
  ∧ (∀ filters t, t ∈ getAllTransactions tz filters (deleteTransaction tid db).2 →
       t_id t ≠ tid)
  ∧ (∀ tid', tid' ≠ tid →
       getTransactionById tid' (deleteTransaction tid db).2 = getTransactionById tid' db).
Proof.
  intros Htrue.
  assert (transactions (deleteTransaction tid db).2 = delete tid (transactions db)
          ∧ categories (deleteTransaction tid db).2 = categories db) as [Htx Hcat].
  { destruct (transactions db !! tid) as [row|] eqn:Ht;
      [|rewrite deleteTransaction_fail in Htrue by (by rewrite Ht); done].
    destruct (categories db !! tr_categoryId row) as [c|] eqn:Hc;
      [|rewrite deleteTransaction_fail in Htrue by (rewrite Ht; auto); done].
    destruct (balances db !! tr_paymentMethod row) as [b|] eqn:Hb;
      [|rewrite deleteTransaction_fail in Htrue by (rewrite Ht; auto); done].
    by rewrite (deleteTransaction_ok _ _ row c b). }
  split; [|split].
  - unfold getTransactionById. by rewrite Htx, lookup_delete_eq.
  - intros filters t [Hjoin _]%elem_of_getAllTransactions Heq.
    apply elem_of_joined_rows in Hjoin as (row & c & Hrow & _).
    rewrite Htx, Heq, lookup_delete_eq in Hrow. done.
  - intros tid' Hne. unfold getTransactionById.
    by rewrite Htx, Hcat, lookup_delete_ne.
Qed.

Lemma deleteTransaction_then_read_sample :
  getTransactionById "tx-1" (deleteTransaction "tx-1" db_three_rows).2 = None
  ∧ (∀ filters t,
       t ∈ getAllTransactions 0 filters (deleteTransaction "tx-1" db_three_rows).2 →
       t_id t ≠ "tx-1")
  ∧ (∀ tid', tid' ≠ "tx-1" →
       getTransactionById tid' (deleteTransaction "tx-1" db_three_rows).2
       = getTransactionById tid' db_three_rows).
Proof.
  apply (deleteTransaction_then_read 0 "tx-1" db_three_rows).
  vm_compute; reflexivity.
Defined.

(** X27. After a successful updateTransaction, getTransactionById returns
    the transaction under the same id with the new payment method, category,
    amount and reason (an empty reason stored as null), the time of the
    update as its time stamp and the name of the new category. *)
Theorem updateTransaction_read_back (tid : string) (now : Z)
    (data : NewTransactionData) (db : Db) (c : CategoryRow) :
  is_Some (transactions db !! tid) →
  categories db !! d_categoryId data = Some c →
  (updateTransaction tid now data db).1 = true
  ∧ getTransactionById tid (updateTransaction tid now data db).2
    = Some (mkTransaction tid now (d_paymentMethod data) (d_categoryId data)
              (d_amount data) (reason_or_null (d_reason data)) (Some (cr_name c)))
  ∧ dom (transactions (updateTransaction tid now data db).2) = dom (transactions db).
Proof.
  intros [old Ht] Hc.
  assert ((updateTransaction tid now data db).1 = true
          ∧ transactions (updateTransaction tid now data db).2
            = <[tid := mkTransactionRow now (d_paymentMethod data) (d_categoryId data)
                         (d_amount data) (reason_or_null (d_reason data))]>
                (transactions db)
          ∧ categories (updateTransaction tid now data db).2 = categories db)
    as (Htrue & Htx & Hcat).
  { unfold updateTransaction, updateTransaction_body. sql_unfold.
    rewrite Ht. simpl. rewrite Hc. simpl.
    case_bool_decide; simpl.
    - destruct (balances db !! tr_paymentMethod old); simpl;
        destruct (_ !! d_paymentMethod data); simpl; rewrite Ht, Hc; done.
    - destruct (balances db !! d_paymentMethod data); simpl; rewrite Ht, Hc; done. }
  split; [exact Htrue|]. split.
  - unfold getTransactionById. rewrite Htx, Hcat, lookup_insert_eq. simpl.
    by rewrite Hc.
  - rewrite Htx, dom_insert_L.
    apply elem_of_dom_2 in Ht. apply set_eq. intros k.
    rewrite elem_of_union, elem_of_singleton.
    split; [intros [->|Hk]; assumption|by right].
Qed.

Lemma updateTransaction_read_back_sample :
  (updateTransaction "tx-1" 2000 bills_as_gain_100 db_bills_100).1 = true
  ∧ getTransactionById "tx-1" (updateTransaction "tx-1" 2000 bills_as_gain_100 db_bills_100).2
    = Some (mkTransaction "tx-1" 2000 gpay 2 100 (reason_or_null None) (Some "Gain"))
  ∧ dom (transactions (updateTransaction "tx-1" 2000 bills_as_gain_100 db_bills_100).2)
    = dom (transactions db_bills_100).
Proof.
  apply (updateTransaction_read_back "tx-1" 2000 bills_as_gain_100 db_bills_100
           (mkCategoryRow "Gain" None)).
  - vm_compute; eauto.
  - vm_compute; reflexivity.
Defined.

(* ================================================================== *)
(** * The ledger in double precision *)

(** ** Whole numbers below 2^53 are added and subtracted exactly *)

Section binary64_arithmetic.
Import SpecFloat.
Import Binary64.

Lemma digits2_pos_log2 p : Z.pos (digits2_pos p) = Z.log2 (Z.pos p) + 1.
Proof.
  assert (digits2_pos p = Pos.size p) as -> by (induction p; simpl; congruence).
  destruct p; simpl; lia.
Qed.

Lemma iter_xO_pow2 m d : Z.pos (Pos.iter xO m d) = Z.pos m * 2 ^ Z.pos d.
Proof.
  induction d as [|d IH] using Pos.peano_ind.
  - simpl. lia.
  - rewrite Pos.iter_succ, Pos2Z.inj_succ, Z.pow_succ_r by lia.
    rewrite Pos2Z.inj_xO, IH. lia.
Qed.

Lemma iter_pos_shr_1 n : ∀ M k : Z,
  0 < M → 0 ≤ k →
  iter_pos shr_1 n (Build_shr_record (M * 2 ^ (k + Z.pos n)) false false)
  = Build_shr_record (M * 2 ^ k) false false.
Proof.
  assert (∀ M k : Z, 0 < M → 0 ≤ k →
    shr_1 (Build_shr_record (M * 2 ^ (k + 1)) false false)
    = Build_shr_record (M * 2 ^ k) false false) as Hstep.
  { intros M k HM Hk. rewrite Z.pow_add_r, Z.pow_1_r by lia.
    assert (0 < M * 2 ^ k) as Hpos by (apply Z.mul_pos_pos; [lia|apply Z.pow_pos_nonneg; lia]).
    destruct (M * 2 ^ k) as [|q|q] eqn:Hq; [lia| |lia].
    replace (M * (2 ^ k * 2)) with (Z.pos q~0) by lia. reflexivity. }
  induction n as [n IH|n IH|]; intros M k HM Hk; cbn [iter_pos].
  - replace (k + Z.pos n~1) with ((k + Z.pos n + Z.pos n) + 1) by lia.
    rewrite Hstep by lia. rewrite IH by lia. apply IH; lia.
  - replace (k + Z.pos n~0) with ((k + Z.pos n) + Z.pos n) by lia.
    rewrite IH by lia. apply IH; lia.
  - apply Hstep; lia.
Qed.

Lemma binary_round_aux_canonical s m e :
  fexp 53 1024 (Z.log2 (Z.pos m) + 1 + e) = e → e ≤ 971 →
  binary_round_aux 53 1024 s (Z.pos m) e loc_Exact = S754_finite s m e.
Proof.
  intros Hfexp He. unfold binary_round_aux, shr_fexp. simpl Zdigits2.
  rewrite digits2_pos_log2, Hfexp, Z.sub_diag. simpl.
  rewrite digits2_pos_log2, Hfexp, Z.sub_diag. simpl.
  change (1024 - 53) with 971. destruct (Z.leb_spec e 971); [done|lia].
Qed.

Lemma binary_round_whole s p e v :
  e ≤ 0 → Z.pos p = v * 2 ^ (- e) → 0 < v < 2 ^ 53 →
  binary_round 53 1024 s p e
  = S754_finite s (Z.to_pos (v * 2 ^ (52 - Z.log2 v))) (Z.log2 v - 52).
Proof.
  intros He Hp Hv.
  assert (0 ≤ Z.log2 v < 53) as Hlog.
  { split; [apply Z.log2_nonneg|]. apply Z.log2_lt_pow2; lia. }
  assert (Z.log2 (Z.pos p) = - e + Z.log2 v) as Hlogp.
  { rewrite Hp. apply Z.log2_mul_pow2; lia. }
  assert (0 < v * 2 ^ (52 - Z.log2 v)) as Hpos.
  { apply Z.mul_pos_pos; [lia|apply Z.pow_pos_nonneg; lia]. }
  assert (Z.log2 (v * 2 ^ (52 - Z.log2 v)) = 52) as Hlogm.
  { rewrite Z.log2_mul_pow2 by lia. lia. }
  set (E := Z.log2 v - 52).
  assert (fexp 53 1024 (Z.log2 (Z.pos p) + 1 + e) = E) as Hfexp.
  { unfold fexp, emin. rewrite Hlogp. subst E. lia. }
  unfold binary_round. rewrite digits2_pos_log2, Hfexp. unfold shl_align.
  destruct (E - e) as [|k|k] eqn:Hk.
  - assert (e = E) as -> by lia.
    rewrite binary_round_aux_canonical by (rewrite ?Hfexp; subst E; lia).
    f_equal. apply Pos2Z.inj. rewrite Z2Pos.id by lia. rewrite Hp. subst E.
    f_equal. f_equal. lia.
  - (* shift right by k bits, all of them zero *)
    unfold binary_round_aux, shr_fexp. simpl Zdigits2.
    rewrite digits2_pos_log2, Hfexp, Hk. unfold shr, shr_record_of_loc.
    replace (Z.pos p) with (v * 2 ^ (52 - Z.log2 v) * 2 ^ (0 + Z.pos k)).
    2:{ rewrite Hp, <- Z.mul_assoc, <- Z.pow_add_r by lia. f_equal. f_equal. subst E. lia. }
    rewrite iter_pos_shr_1 by lia. rewrite Z.pow_0_r, Z.mul_1_r.
    unfold shr_m at 1, loc_of_shr_record, round_nearest_even.
    destruct (v * 2 ^ (52 - Z.log2 v)) as [|m|m] eqn:Hm; [lia| |lia].
    simpl Zdigits2. rewrite digits2_pos_log2, Hlogm.
    replace (fexp 53 1024 (52 + 1 + (e + Z.pos k)) - (e + Z.pos k)) with 0
      by (unfold fexp, emin; subst E; lia).
    simpl. change (1024 - 53) with 971.
    destruct (Z.leb_spec (e + Z.pos k) 971); [|subst E; lia].
    f_equal. subst E. lia.
  - (* shift left by k bits *)
    assert (Z.pos (Pos.iter xO p k) = v * 2 ^ (52 - Z.log2 v)) as Hm.
    { rewrite iter_xO_pow2, Hp, <- Z.mul_assoc, <- Z.pow_add_r by lia.
      f_equal. f_equal. subst E. lia. }
    rewrite binary_round_aux_canonical.
    + f_equal. apply Pos2Z.inj. rewrite Z2Pos.id by lia. done.
    + rewrite Hm, Hlogm. unfold fexp, emin. subst E. lia.
    + subst E. lia.
Qed.

Lemma binary_normalize_whole z e v :
  e ≤ 0 → z = v * 2 ^ (- e) → Z.abs v < 2 ^ 53 →
  binary_normalize 53 1024 z e false = ofZ v.
Proof.
  intros He Hz Hv.
  assert (0 < 2 ^ (- e)) as Hpow by (apply Z.pow_pos_nonneg; lia).
  unfold ofZ, binary_normalize.
  destruct v as [|v|v].
  - by subst z.
  - destruct z as [|p|p]; [lia| |lia].
    rewrite (binary_round_whole false p e (Z.pos v)) by lia.
    rewrite (binary_round_whole false v 0 (Z.pos v)) by (simpl; lia). done.
  - destruct z as [|p|p]; [lia|lia|].
    rewrite (binary_round_whole true p e (Z.pos v)) by lia.
    rewrite (binary_round_whole true v 0 (Z.pos v)) by (simpl; lia). done.
Qed.

Lemma ofZ_0 : ofZ 0 = S754_zero false.
Proof. reflexivity. Qed.

Lemma ofZ_finite z :
  z ≠ 0 → Z.abs z < 2 ^ 53 →
  ∃ m e, ofZ z = S754_finite (z <? 0) m e
         ∧ e ≤ 0 ∧ -1074 ≤ e ∧ Z.pos m = Z.abs z * 2 ^ (- e).
Proof.
  intros Hz Hlt.
  assert (0 ≤ Z.log2 (Z.abs z) < 53) as Hlog.
  { split; [apply Z.log2_nonneg|]. apply Z.log2_lt_pow2; lia. }
  assert (0 < Z.abs z * 2 ^ (52 - Z.log2 (Z.abs z))) as Hpos.
  { apply Z.mul_pos_pos; [lia|apply Z.pow_pos_nonneg; lia]. }
  exists (Z.to_pos (Z.abs z * 2 ^ (52 - Z.log2 (Z.abs z)))), (Z.log2 (Z.abs z) - 52).
  split; [|split; [lia|split; [lia|]]].
  - unfold ofZ, binary_normalize. destruct z as [|p|p]; [done| |].
    + by rewrite (binary_round_whole false p 0 (Z.pos p)) by (simpl; lia).
    + by rewrite (binary_round_whole true p 0 (Z.pos p)) by (simpl; lia).
  - rewrite Z2Pos.id by lia. f_equal. f_equal. lia.
Qed.

Lemma ofZ_opp z : Z.abs z < 2 ^ 53 → z ≠ 0 → ofZ (- z) = fopp (ofZ z).
Proof.
  intros Hlt Hz. unfold ofZ, binary_normalize.
  destruct z as [|p|p]; [done| |].
  - change (binary_round 53 1024 true p 0 = fopp (binary_round 53 1024 false p 0)).
    rewrite (binary_round_whole true p 0 (Z.pos p)) by (simpl; lia).
    by rewrite (binary_round_whole false p 0 (Z.pos p)) by (simpl; lia).
  - change (binary_round 53 1024 false p 0 = fopp (binary_round 53 1024 true p 0)).
    rewrite (binary_round_whole true p 0 (Z.pos p)) by (simpl; lia).
    by rewrite (binary_round_whole false p 0 (Z.pos p)) by (simpl; lia).
Qed.

Lemma whole_ofZ z : Z.abs z < 2 ^ 53 → whole (ofZ z) z.
Proof. intros. split; auto. Qed.

Lemma whole_inv x z :
  whole x z →
  (z = 0 ∧ ∃ s, x = S754_zero s)
  ∨ (z ≠ 0 ∧ ∃ s m e, x = S754_finite s m e ∧ e ≤ 0 ∧ -1074 ≤ e
                       ∧ cond_Zopp s (Z.pos m) = z * 2 ^ (- e)).
Proof.
  intros [Hlt [->|[-> ->]]]; [|left; eauto].
  destruct (decide (z = 0)) as [->|Hz]; [left; eauto|]. right. split; [done|].
  destruct (ofZ_finite z Hz Hlt) as (m & e & -> & He & He' & Hm).
  exists (z <? 0), m, e. split; [done|]. split; [done|]. split; [done|].
  rewrite Hm. destruct (Z.ltb_spec z 0); simpl; lia.
Qed.

Lemma shl_align_fst m e ez :
  ez ≤ e → Z.pos (shl_align m e ez).1 = Z.pos m * 2 ^ (e - ez).
Proof.
  intros Hle. unfold shl_align. destruct (ez - e) as [|d|d] eqn:Hd; simpl.
  - replace (e - ez) with 0 by lia. lia.
  - lia.
  - rewrite iter_xO_pow2. f_equal. f_equal. lia.
Qed.

Lemma aligned_value s m e ez z :
  ez ≤ e → e ≤ 0 → cond_Zopp s (Z.pos m) = z * 2 ^ (- e) →
  cond_Zopp s (Z.pos (shl_align m e ez).1) = z * 2 ^ (- ez).
Proof.
  intros Hle He Hm. rewrite shl_align_fst by done.
  replace (- ez) with (- e + (e - ez)) by lia. rewrite Z.pow_add_r by lia.
  rewrite Z.mul_assoc, <- Hm. destruct s; simpl; lia.
Qed.

Lemma fadd_whole x y a b :
  whole x a → whole y b → Z.abs (a + b) < 2 ^ 53 →
  whole (fadd x y) (a + b) ∧ (x = ofZ a ∨ y = ofZ b → fadd x y = ofZ (a + b)).
Proof.
  intros Hx Hy Hab.
  pose proof Hx as [Ha Hx']. pose proof Hy as [Hb Hy'].
  destruct (whole_inv x a Hx) as [[-> [sx ->]]|(Hna & sx & mx & ex & -> & Hex & _ & Hmx)];
    destruct (whole_inv y b Hy) as [[-> [sy ->]]|(Hnb & sy & my & ey & -> & Hey & _ & Hmy)].
  - destruct sx, sy; unfold fadd; simpl; (split; [split; [done|auto]|]); try done;
      intros [[=]|[=]].
  - rewrite Z.add_0_l. unfold fadd. simpl. split; [done|]. intros _.
    destruct Hy' as [->|[? _]]; done.
  - rewrite Z.add_0_r. unfold fadd. simpl. split; [done|]. intros _.
    destruct Hx' as [->|[? _]]; done.
  - assert (fadd (S754_finite sx mx ex) (S754_finite sy my ey) = ofZ (a + b)) as ->.
    { unfold fadd, SFadd.
      apply binary_normalize_whole; [lia| |done].
      rewrite (aligned_value sx mx ex _ a), (aligned_value sy my ey _ b) by lia.
      lia. }
    split; [by apply whole_ofZ|done].
Qed.

Lemma fsub_whole x y a b :
  whole x a → whole y b → Z.abs (a - b) < 2 ^ 53 →
  whole (fsub x y) (a - b) ∧ (x = ofZ a → fsub x y = ofZ (a - b)).
Proof.
  intros Hx Hy Hab.
  pose proof Hx as [Ha Hx']. pose proof Hy as [Hb Hy'].
  destruct (whole_inv x a Hx) as [[-> [sx ->]]|(Hna & sx & mx & ex & -> & Hex & _ & Hmx)];
    destruct (whole_inv y b Hy) as [[-> [sy ->]]|(Hnb & sy & my & ey & -> & Hey & _ & Hmy)].
  - destruct sx, sy; unfold fsub; simpl; (split; [split; [done|auto]|]); try done;
      intros [=].
  - destruct Hy' as [Hy'|[? _]]; [|done].
    assert (fsub (S754_zero sx) (S754_finite sy my ey) = ofZ (0 - b)) as ->.
    { rewrite Z.sub_0_l, ofZ_opp, <- Hy' by done. done. }
    split; [by apply whole_ofZ|done].
  - rewrite Z.sub_0_r. unfold fsub. simpl. split; [done|]. intros _.
    destruct Hx' as [->|[? _]]; done.
  - assert (fsub (S754_finite sx mx ex) (S754_finite sy my ey) = ofZ (a - b)) as ->.
    { unfold fsub, SFsub.
      apply binary_normalize_whole; [lia| |done].
      rewrite (aligned_value sx mx ex _ a), (aligned_value sy my ey _ b) by lia.
      lia. }
    split; [by apply whole_ofZ|done].
Qed.

Lemma fopp_whole x a : whole x a → whole (fopp x) (- a).
Proof.
  intros [Ha [->|[-> ->]]].
  - split; [lia|]. destruct (decide (a = 0)) as [->|Hz].
    + right. done.
    + left. by rewrite ofZ_opp.
  - split; [done|]. by left.
Qed.

Lemma whole_is_finite x a : whole x a → is_finite x = true.
Proof.
  intros Hx.
  by destruct (whole_inv x a Hx) as [[_ [s ->]]|(_ & s & m & e & -> & _)].
Qed.

Lemma units_whole x a : whole x a → units x = a * 2 ^ 1074.
Proof.
  intros Hx.
  destruct (whole_inv x a Hx) as [[-> [s ->]]|(_ & s & m & e & -> & He & He' & Hm)];
    [done|]. unfold units.
  replace 1074 with (- e + (e + 1074)) at 2 by lia.
  rewrite (Z.pow_add_r 2 (- e) (e + 1074)), Z.mul_assoc, <- Hm by lia.
  generalize (2 ^ (e + 1074)). intros P. clear. destruct s; unfold cond_Zopp; lia.
Qed.

Lemma shr_1_nonneg mrs : 0 ≤ shr_m mrs → 0 ≤ shr_m (shr_1 mrs).
Proof. destruct mrs as [[|[p|p|]|p] r s]; simpl; lia. Qed.

Lemma iter_pos_shr_1_nonneg n : ∀ mrs, 0 ≤ shr_m mrs → 0 ≤ shr_m (iter_pos shr_1 n mrs).
Proof.
  induction n as [n IH|n IH|]; intros mrs Hm; cbn [iter_pos].
  - by apply IH, IH, shr_1_nonneg.
  - by apply IH, IH.
  - by apply shr_1_nonneg.
Qed.

Lemma shr_fexp_nonneg m e l : 0 ≤ m → 0 ≤ shr_m (shr_fexp 53 1024 m e l).1.
Proof.
  intros Hm. unfold shr_fexp, shr.
  assert (0 ≤ shr_m (shr_record_of_loc m l)) by (by destruct l as [|[]]).
  destruct (_ - e); simpl; [done| |done]. by apply iter_pos_shr_1_nonneg.
Qed.

Lemma binary_round_aux_not_nan s m e l :
  0 ≤ m → is_nan (binary_round_aux 53 1024 s m e l) = false.
Proof.
  intros Hm. unfold binary_round_aux.
  pose proof (shr_fexp_nonneg m e l Hm) as H1.
  destruct (shr_fexp 53 1024 m e l) as [mrs' e']. simpl in H1.
  assert (0 ≤ round_nearest_even (shr_m mrs') (loc_of_shr_record mrs')) as H2.
  { unfold round_nearest_even. destruct (loc_of_shr_record mrs') as [|[]]; try done.
    - destruct (Z.even _); lia.
    - lia. }
  pose proof (shr_fexp_nonneg _ e' loc_Exact H2) as H3.
  destruct (shr_fexp 53 1024 _ e' loc_Exact) as [mrs'' e'']. simpl in H3.
  destruct (shr_m mrs''); [done| |lia]. by destruct (_ <=? _).
Qed.

Lemma binary_normalize_not_nan z e : is_nan (binary_normalize 53 1024 z e false) = false.
Proof.
  unfold binary_normalize, binary_round.
  destruct z; [done| |]; destruct (shl_align _ _ _); by apply binary_round_aux_not_nan.
Qed.

Lemma fadd_not_nan x y :
  is_finite x = true → is_finite y = true → is_nan (fadd x y) = false.
Proof.
  destruct x as [[]| | |], y as [[]| | |]; try done; intros _ _;
    apply binary_normalize_not_nan.
Qed.

Lemma fsub_not_nan x y :
  is_finite x = true → is_finite y = true → is_nan (fsub x y) = false.
Proof.
  destruct x as [[]| | |], y as [[]| | |]; try done; intros _ _;
    apply binary_normalize_not_nan.
Qed.

Lemma fadd_fopp x y : fadd x (fopp y) = fsub x y.
Proof.
  destruct x as [[]|[]| |sx mx ex], y as [[]|[]| |sy my ey]; try done.
  unfold fadd, fsub, fopp, SFadd, SFsub, SFopp. f_equal.
  destruct sy; simpl; lia.
Qed.

End binary64_arithmetic.

(** ** The operations on whole numbers compute what the integer model computes *)

Ltac sql64_unfold :=
  unfold mbind, mret, Binary64.Sql_bind, Binary64.Sql_ret, Binary64.throw,
    Binary64.select_category_name, Binary64.select_balance,
    Binary64.select_transaction, Binary64.select_transaction_join,
    Binary64.update_balance, Binary64.insert_transaction,
    Binary64.delete_transaction_row, Binary64.update_transaction_row,
    Binary64.with_balances, Binary64.with_transactions in *;
  simpl in *.

Lemma is_nan_ofZ z : Binary64.is_nan (Binary64.ofZ z) = false.
Proof. apply binary_normalize_not_nan. Qed.

Lemma whole_bounded z B :
  Z.abs z ≤ B → B < 2 ^ 53 → Binary64.whole (Binary64.ofZ z) z.
Proof. intros. apply whole_ofZ. lia. Qed.

Lemma orZero_double (o : option Z) :
  Binary64.orZero (Binary64.ofZ <$> o) = Binary64.ofZ (orZero o).
Proof. by destruct o. Qed.

Lemma fadd_ofZ a b :
  Z.abs a < 2 ^ 53 → Z.abs b < 2 ^ 53 → Z.abs (a + b) < 2 ^ 53 →
  Binary64.fadd (Binary64.ofZ a) (Binary64.ofZ b) = Binary64.ofZ (a + b).
Proof.
  intros Ha Hb Hab.
  apply (fadd_whole _ _ a b); [by apply whole_ofZ..|done|by left].
Qed.

Lemma fsub_ofZ a b :
  Z.abs a < 2 ^ 53 → Z.abs b < 2 ^ 53 → Z.abs (a - b) < 2 ^ 53 →
  Binary64.fsub (Binary64.ofZ a) (Binary64.ofZ b) = Binary64.ofZ (a - b).
Proof.
  intros Ha Hb Hab.
  apply (fsub_whole _ _ a b); [by apply whole_ofZ..|done|done].
Qed.

Lemma double_of_db_insert cats bals txs m v tid row :
  Binary64.mkDb cats (<[m := Binary64.ofZ v]> (Binary64.ofZ <$> bals))
    (<[tid := double_of_row row]> (double_of_row <$> txs))
  = double_of_db (mkDb cats (<[m := v]> bals) (<[tid := row]> txs)).
Proof. unfold double_of_db. simpl. by rewrite !fmap_insert. Qed.

Lemma addTransaction_double B newId timestamp data db :
  within B db → Z.abs (d_amount data) ≤ B → 2 * B < 2 ^ 53 →
  Binary64.addTransaction newId timestamp (double_of_data data) (double_of_db db)
  = (double_of_transaction <$> (addTransaction newId timestamp data db).1,
     double_of_db (addTransaction newId timestamp data db).2).
Proof.
  intros [Hbal Hrows] Hamt HB.
  unfold Binary64.addTransaction, Binary64.addTransaction_body. sql64_unfold.
  destruct (categories db !! d_categoryId data) as [c|] eqn:Hc; simpl;
    [|by rewrite addTransaction_fail by auto].
  rewrite lookup_fmap.
  destruct (balances db !! d_paymentMethod data) as [b|] eqn:Hb; simpl;
    [|by rewrite addTransaction_fail by auto].
  pose proof (Hbal _ _ Hb) as Hb'.
  assert ((if is_gain_name (cr_name c)
           then Binary64.fadd (Binary64.ofZ b) (Binary64.ofZ (d_amount data))
           else Binary64.fsub (Binary64.ofZ b) (Binary64.ofZ (d_amount data)))
          = Binary64.ofZ (if is_gain_name (cr_name c) then b + d_amount data
                          else b - d_amount data)) as ->.
  { destruct (is_gain_name _); [apply fadd_ofZ|apply fsub_ofZ]; lia. }
  rewrite is_nan_ofZ. simpl. rewrite lookup_fmap, Hc.
  destruct (transactions db !! newId) as [row|] eqn:Hfresh; simpl;
    [by rewrite addTransaction_fail by eauto|].
  rewrite is_nan_ofZ. rewrite (addTransaction_ok _ _ _ _ c b) by done. simpl.
  f_equal. apply (double_of_db_insert _ _ _ _ _ _
    (mkTransactionRow timestamp (d_paymentMethod data) (d_categoryId data)
       (d_amount data) (d_reason data))).
Qed.

Lemma deleteTransaction_double B tid db :
  within B db → 2 * B < 2 ^ 53 →
  Binary64.deleteTransaction tid (double_of_db db)
  = ((deleteTransaction tid db).1, double_of_db (deleteTransaction tid db).2).
Proof.
  intros [Hbal Hrows] HB.
  unfold Binary64.deleteTransaction, Binary64.deleteTransaction_body. sql64_unfold.
  rewrite lookup_fmap.
  destruct (transactions db !! tid) as [row|] eqn:Ht; simpl;
    [|by rewrite deleteTransaction_fail by (by rewrite Ht)].
  destruct (categories db !! tr_categoryId row) as [c|] eqn:Hc; simpl.
  2:{ by rewrite deleteTransaction_fail by (rewrite Ht; auto). }
  rewrite !lookup_fmap, Ht. simpl.
  rewrite !(lookup_fmap Binary64.ofZ).
  destruct (balances db !! tr_paymentMethod row) as [b|] eqn:Hb; simpl;
    [|by rewrite deleteTransaction_fail by (rewrite Ht; auto)].
  pose proof (Hbal _ _ Hb) as Hb'. pose proof (Hrows _ _ Ht) as Hrow.
  assert ((if is_gain_name (cr_name c)
           then Binary64.fsub (Binary64.ofZ b) (Binary64.ofZ (tr_amount row))
           else Binary64.fadd (Binary64.ofZ b) (Binary64.ofZ (tr_amount row)))
          = Binary64.ofZ (if is_gain_name (cr_name c) then b - tr_amount row
                          else b + tr_amount row)) as ->.
  { destruct (is_gain_name _); [apply fsub_ofZ|apply fadd_ofZ]; lia. }
  rewrite is_nan_ofZ. simpl.
  rewrite (deleteTransaction_ok _ _ row c b) by done. simpl.
  unfold double_of_db. simpl. by rewrite fmap_insert, fmap_delete.
Qed.

Lemma fadd_ofZ_whole a x b :
  Z.abs a < 2 ^ 53 → Binary64.whole x b → Z.abs (a + b) < 2 ^ 53 →
  Binary64.fadd (Binary64.ofZ a) x = Binary64.ofZ (a + b).
Proof.
  intros Ha Hx Hab.
  apply (fadd_whole _ _ a b); [by apply whole_ofZ|done|done|by left].
Qed.

Lemma signed_whole (g : bool) a :
  Z.abs a < 2 ^ 53 →
  Binary64.whole (if g then Binary64.ofZ a else Binary64.fopp (Binary64.ofZ a))
                 (if g then a else - a).
Proof.
  intros Ha. destruct g; [by apply whole_ofZ|]. by apply fopp_whole, whole_ofZ.
Qed.

Lemma signed_whole' (g : bool) a :
  Z.abs a < 2 ^ 53 →
  Binary64.whole (if g then Binary64.fopp (Binary64.ofZ a) else Binary64.ofZ a)
                 (if g then - a else a).
Proof.
  intros Ha. destruct g; [|by apply whole_ofZ]. by apply fopp_whole, whole_ofZ.
Qed.

Lemma updateTransaction_double B tid now data db :
  within B db → Z.abs (d_amount data) ≤ B → 3 * B < 2 ^ 53 →
  Binary64.updateTransaction tid now (double_of_data data) (double_of_db db)
  = ((updateTransaction tid now data db).1,
     double_of_db (updateTransaction tid now data db).2).
Proof.
  intros [Hbal Hrows] Hamt HB.
  unfold Binary64.updateTransaction, Binary64.updateTransaction_body,
    updateTransaction, updateTransaction_body.
  sql_unfold. sql64_unfold.
  rewrite lookup_fmap.
  destruct (transactions db !! tid) as [old|] eqn:Ht; simpl; [|done].
  pose proof (Hrows _ _ Ht) as Hold.
  destruct (categories db !! d_categoryId data) as [c|] eqn:Hc; simpl; [|done].
  set (wasGain := is_gain_opt (cr_name <$> categories db !! tr_categoryId old)).
  set (isGain := is_gain_name (cr_name c)).
  assert (∀ b (g : bool) a, Z.abs b ≤ B → Z.abs a ≤ B →
            Binary64.fadd (Binary64.ofZ b)
              (if g then Binary64.fopp (Binary64.ofZ a) else Binary64.ofZ a)
            = Binary64.ofZ (b + (if g then - a else a))) as Hrevert.
  { intros b g a Hb Ha. apply fadd_ofZ_whole; [lia|apply signed_whole'; lia|].
    destruct g; lia. }
  assert (∀ b (g : bool) a, Z.abs b ≤ B → Z.abs a ≤ B →
            Binary64.fadd (Binary64.ofZ b)
              (if g then Binary64.ofZ a else Binary64.fopp (Binary64.ofZ a))
            = Binary64.ofZ (b + (if g then a else - a))) as Happly.
  { intros b g a Hb Ha. apply fadd_ofZ_whole; [lia|apply signed_whole; lia|].
    destruct g; lia. }
  assert (∀ b (g g' : bool) a a', Z.abs b ≤ B → Z.abs a ≤ B → Z.abs a' ≤ B →
            Binary64.fadd (Binary64.ofZ b)
              (Binary64.fsub
                 (if g then Binary64.ofZ a else Binary64.fopp (Binary64.ofZ a))
                 (if g' then Binary64.ofZ a' else Binary64.fopp (Binary64.ofZ a')))
            = Binary64.ofZ (b + ((if g then a else - a) - (if g' then a' else - a'))))
    as Hadjust.
  { intros b g g' a a' Hb Ha Ha'. apply fadd_ofZ_whole; [lia| |destruct g, g'; lia].
    apply fsub_whole; [apply signed_whole; lia..|destruct g, g'; lia]. }
  case_bool_decide as Hpm; simpl.
  - rewrite !(lookup_fmap Binary64.ofZ).
    destruct (balances db !! tr_paymentMethod old) as [bo|] eqn:Hbo; simpl.
    + rewrite Hrevert by eauto. rewrite is_nan_ofZ. simpl.
      rewrite !lookup_insert_ne by done. rewrite !(lookup_fmap Binary64.ofZ).
      destruct (balances db !! d_paymentMethod data) as [bn|] eqn:Hbn; simpl.
      * rewrite Happly by eauto. rewrite is_nan_ofZ. simpl.
        rewrite lookup_fmap, Ht, Hc. simpl. rewrite is_nan_ofZ. simpl.
        f_equal. unfold double_of_db. simpl. by rewrite !fmap_insert.
      * rewrite lookup_fmap, Ht, Hc. simpl. rewrite is_nan_ofZ. simpl.
        f_equal. unfold double_of_db. simpl. by rewrite !fmap_insert.
    + rewrite !(lookup_fmap Binary64.ofZ).
      destruct (balances db !! d_paymentMethod data) as [bn|] eqn:Hbn; simpl.
      * rewrite Happly by eauto. rewrite is_nan_ofZ. simpl.
        rewrite lookup_fmap, Ht, Hc. simpl. rewrite is_nan_ofZ. simpl.
        f_equal. unfold double_of_db. simpl. by rewrite !fmap_insert.
      * rewrite lookup_fmap, Ht, Hc. simpl. rewrite is_nan_ofZ. simpl.
        f_equal. unfold double_of_db. simpl. by rewrite !fmap_insert.
  - rewrite !(lookup_fmap Binary64.ofZ).
    destruct (balances db !! d_paymentMethod data) as [bn|] eqn:Hbn; simpl.
    + rewrite Hadjust by eauto. rewrite is_nan_ofZ. simpl.
      rewrite lookup_fmap, Ht, Hc. simpl. rewrite is_nan_ofZ. simpl.
      f_equal. unfold double_of_db. simpl. by rewrite !fmap_insert.
    + rewrite lookup_fmap, Ht, Hc. simpl. rewrite is_nan_ofZ. simpl.
      f_equal. unfold double_of_db. simpl. by rewrite !fmap_insert.
Qed.

(** ** Bounds on whole-number states *)

Lemma sum_rows_delete f (txs : gmap string TransactionRow) i row :
  txs !! i = Some row → sum_rows f txs = f row + sum_rows f (delete i txs).
Proof.
  intros Hi. rewrite <- (insert_delete_id txs i row Hi) at 1.
  apply sum_rows_insert, lookup_delete_eq.
Qed.

Lemma sum_rows_nonneg f (txs : gmap string TransactionRow) :
  (∀ row, 0 ≤ f row) → 0 ≤ sum_rows f txs.
Proof.
  intros Hf. induction txs as [|i row txs Hi IH] using map_ind.
  - by rewrite sum_rows_empty.
  - rewrite sum_rows_insert by done. specialize (Hf row). lia.
Qed.

Lemma sum_rows_lookup_le f (txs : gmap string TransactionRow) i row :
  (∀ row, 0 ≤ f row) → txs !! i = Some row → f row ≤ sum_rows f txs.
Proof.
  intros Hf Hi. rewrite (sum_rows_delete f txs i row Hi).
  pose proof (sum_rows_nonneg f (delete i txs) Hf). lia.
Qed.

Lemma sum_rows_insert_le f (txs : gmap string TransactionRow) i row :
  (∀ row, 0 ≤ f row) → sum_rows f (<[i := row]> txs) ≤ f row + sum_rows f txs.
Proof.
  intros Hf. destruct (txs !! i) as [old|] eqn:Hi.
  - rewrite <- insert_delete_eq, sum_rows_insert by apply lookup_delete_eq.
    rewrite (sum_rows_delete f txs i old Hi). specialize (Hf old). lia.
  - rewrite sum_rows_insert by done. lia.
Qed.

Lemma sum_rows_delete_le f (txs : gmap string TransactionRow) i :
  (∀ row, 0 ≤ f row) → sum_rows f (delete i txs) ≤ sum_rows f txs.
Proof.
  intros Hf. destruct (txs !! i) as [old|] eqn:Hi.
  - rewrite (sum_rows_delete f txs i old Hi). specialize (Hf old). lia.
  - by rewrite delete_id.
Qed.

Lemma sum_rows_abs_le f g (txs : gmap string TransactionRow) :
  (∀ row, Z.abs (f row) ≤ g row) → Z.abs (sum_rows f txs) ≤ sum_rows g txs.
Proof.
  intros Hfg. induction txs as [|i row txs Hi IH] using map_ind.
  - by rewrite !sum_rows_empty.
  - rewrite !sum_rows_insert by done. specialize (Hfg row). lia.
Qed.

Lemma sum_rows_scale f k (txs : gmap string TransactionRow) :
  sum_rows (λ row, f row * k) txs = sum_rows f txs * k.
Proof.
  induction txs as [|i row txs Hi IH] using map_ind.
  - by rewrite !sum_rows_empty.
  - rewrite !sum_rows_insert by done. rewrite IH. lia.
Qed.

Lemma effect_on_abs cats m row : Z.abs (effect_on cats m row) ≤ Z.abs (tr_amount row).
Proof.
  unfold effect_on, effect. case_bool_decide; [|lia].
  destruct (row_is_gain cats row); lia.
Qed.

Lemma within_of_invariant B db :
  ledger_invariant db → total_amount db ≤ B → within B db.
Proof.
  intros Hinv Htot. split.
  - intros m b Hb. specialize (Hinv m). unfold getBalance in Hinv.
    rewrite Hb in Hinv. simpl in Hinv. subst b.
    pose proof (sum_rows_abs_le (effect_on (categories db) m)
                  (λ row, Z.abs (tr_amount row)) (transactions db)
                  (effect_on_abs _ _)) as Hle.
    unfold ledger_sum. rewrite sum_effects_sum_rows. unfold total_amount in Htot. lia.
  - intros tid row Hrow.
    pose proof (sum_rows_lookup_le (λ row, Z.abs (tr_amount row)) _ tid row
                  (λ r, Z.abs_nonneg _) Hrow) as Hle.
    unfold total_amount in Htot. simpl in Hle. lia.
Qed.

Lemma total_amount_apply_op op db :
  total_amount (apply_op op db) ≤ total_amount db + op_amount op.
Proof.
  unfold total_amount.
  destruct op as [newId timestamp data|tid now data|tid]; simpl.
  - destruct (addTransaction_transactions newId timestamp data db) as [->| ->].
    + lia.
    + pose proof (sum_rows_insert_le (λ row, Z.abs (tr_amount row)) (transactions db)
                    newId (mkTransactionRow timestamp (d_paymentMethod data)
                             (d_categoryId data) (d_amount data) (d_reason data))
                    (λ r, Z.abs_nonneg _)) as Hle.
      simpl in Hle. lia.
  - destruct (updateTransaction_transactions tid now data db) as [->| ->].
    + lia.
    + pose proof (sum_rows_insert_le (λ row, Z.abs (tr_amount row)) (transactions db)
                    tid (mkTransactionRow now (d_paymentMethod data)
                           (d_categoryId data) (d_amount data)
                           (reason_or_null (d_reason data)))
                    (λ r, Z.abs_nonneg _)) as Hle.
      simpl in Hle. lia.
  - destruct (deleteTransaction_transactions tid db) as [->| ->].
    + lia.
    + pose proof (sum_rows_delete_le (λ row, Z.abs (tr_amount row)) (transactions db)
                    tid (λ r, Z.abs_nonneg _)). lia.
Qed.

Lemma ops_amount_nonneg ops : 0 ≤ ops_amount ops.
Proof.
  induction ops as [|op ops IH]; simpl; [done|].
  assert (0 ≤ op_amount op) by (destruct op; simpl; lia). lia.
Qed.

(** ** The invariant of a whole-number state, read in doubles *)

Lemma sum_effects_double cats m (txs : gmap string TransactionRow) B :
  (∀ tid row, txs !! tid = Some row → Z.abs (tr_amount row) ≤ B) → B < 2 ^ 53 →
  Binary64.sum_effects cats m (double_of_row <$> txs)
  = sum_effects cats m txs * 2 ^ 1074.
Proof.
  intros Hrows HB. unfold Binary64.sum_effects. rewrite map_fold_fmap.
  rewrite sum_effects_sum_rows, <- sum_rows_scale. unfold sum_rows.
  change (sum_rows (λ row, Binary64.effect_on cats m (double_of_row row)) txs
          = sum_rows (λ row, effect_on cats m row * 2 ^ 1074) txs).
  apply sum_rows_ext. intros tid row Hrow.
  unfold Binary64.effect_on, effect_on, Binary64.effect, effect,
    Binary64.row_is_gain, row_is_gain. cbn [double_of_row Binary64.tr_paymentMethod
    Binary64.tr_categoryId Binary64.tr_amount].
  rewrite (units_whole _ (tr_amount row)) by (apply whole_ofZ; specialize (Hrows _ _ Hrow); lia).
  generalize (2 ^ 1074). intros K.
  case_bool_decide; [|lia]. destruct (is_gain_opt _); lia.
Qed.

Lemma getBalance_double db m :
  Binary64.getBalance (double_of_db db) m = Binary64.ofZ (getBalance db m).
Proof.
  unfold Binary64.getBalance, getBalance, double_of_db. simpl.
  rewrite lookup_fmap. apply orZero_double.
Qed.

Lemma ledger_invariant_double B db :
  ledger_invariant db → within B db → B < 2 ^ 53 →
  Binary64.ledger_invariant (double_of_db db).
Proof.
  intros Hinv [Hbal Hrows] HB. split; [split|].
  - intros m b. unfold double_of_db. simpl. rewrite lookup_fmap.
    intros [z [Hz ->]]%fmap_Some. apply (whole_is_finite _ z), whole_ofZ.
    specialize (Hbal _ _ Hz). lia.
  - intros tid row. unfold double_of_db. simpl. rewrite lookup_fmap.
    intros [r [Hr ->]]%fmap_Some. apply (whole_is_finite _ (tr_amount r)), whole_ofZ.
    specialize (Hrows _ _ Hr). lia.
  - intros m. rewrite getBalance_double.
    unfold Binary64.ledger_sum, double_of_db. simpl.
    rewrite (sum_effects_double _ _ _ B) by done.
    rewrite (units_whole _ (getBalance db m)).
    + by rewrite (Hinv m).
    + apply whole_ofZ. unfold getBalance.
      destruct (balances db !! m) as [b|] eqn:Hb; simpl;
        [specialize (Hbal _ _ Hb); lia|done].
Qed.

Lemma apply_op_double B op db :
  within B db → op_amount op ≤ B → 3 * B < 2 ^ 53 →
  Binary64.apply_op (double_of_op op) (double_of_db db) = double_of_db (apply_op op db).
Proof.
  intros Hw Hop HB.
  assert (0 ≤ B).
  { destruct op; simpl in Hop; lia. }
  destruct op as [newId timestamp data|tid now data|tid]; simpl in *.
  - by rewrite (addTransaction_double B) by (done || lia).
  - by rewrite (updateTransaction_double B) by (done || lia).
  - by rewrite (deleteTransaction_double B) by (done || lia).
Qed.

(** C1, amended. A state whose balances and amounts are whole numbers, in
    which every balance equals the sum of the effects of the transactions
    on its payment method and both balance rows exist, and a sequence of
    addTransaction / updateTransaction / deleteTransaction calls with whole
    amounts, such that the absolute amounts stored and entered add up to at
    most 2^51: the code's double arithmetic makes no rounding error, it
    computes the states of the integer model, and after each operation
    every balance is exactly the sum of the effects. *)
Theorem ledger_invariant_whole_amounts (ops : list LedgerOp) (db : Db) :
  balances_initialised db →
  ledger_invariant db →
  total_amount db + ops_amount ops ≤ 2 ^ 51 →
  Binary64.ledger_invariant (double_of_db db)
  ∧ Binary64.ledger_trace (double_of_op <$> ops) (double_of_db db)
    = double_of_db <$> ledger_trace ops db
  ∧ Forall Binary64.ledger_invariant
      (Binary64.ledger_trace (double_of_op <$> ops) (double_of_db db)).
Proof.
  intros Hinit Hinv Hpot.
  assert (∀ db ops, ledger_invariant db → total_amount db + ops_amount ops ≤ 2 ^ 51 →
            within (2 ^ 51) db) as Hwithin.
  { intros db0 ops0 Hinv0 Hpot0. apply within_of_invariant; [done|].
    pose proof (ops_amount_nonneg ops0). lia. }
  split.
  { apply (ledger_invariant_double (2 ^ 51)); [done|by eapply Hwithin|lia]. }
  revert db Hinit Hinv Hpot.
  induction ops as [|op ops IH]; intros db Hinit Hinv Hpot; [by split|].
  cbn [fmap list_fmap Binary64.ledger_trace ledger_trace].
  pose proof (Hwithin db (op :: ops) Hinv Hpot) as Hw.
  cbn [ops_amount foldr] in Hpot. fold (ops_amount ops) in Hpot.
  pose proof (ops_amount_nonneg ops) as Hops.
  assert (0 ≤ total_amount db) as Htot
    by (apply sum_rows_nonneg; intros; apply Z.abs_nonneg).
  rewrite (apply_op_double (2 ^ 51)) by (done || lia).
  destruct (apply_op_preserves op db Hinit Hinv) as [Hinit' Hinv'].
  pose proof (total_amount_apply_op op db) as Hstep.
  destruct (IH (apply_op op db)) as [Htrace Hall]; [done|done|lia|].
  split; [by rewrite Htrace|].
  constructor; [|done].
  apply (ledger_invariant_double (2 ^ 51)); [done| |lia].
  apply (Hwithin _ ops); [done|lia].
Qed.

(** ** The invariant in double precision *)

Lemma ledger_invariant_initial_db : ledger_invariant initial_db.
Proof. intros []; vm_compute; reflexivity. Qed.

Lemma ledger_invariant_sample :
  balances_initialised initial_db
  ∧ ledger_invariant initial_db
  ∧ total_amount initial_db + ops_amount sample_ops ≤ 2 ^ 51
  ∧ Binary64.ledger_invariant (double_of_db initial_db)
  ∧ Binary64.ledger_trace (double_of_op <$> sample_ops) (double_of_db initial_db)
    = double_of_db <$> ledger_trace sample_ops initial_db
  ∧ Forall Binary64.ledger_invariant
      (Binary64.ledger_trace (double_of_op <$> sample_ops) (double_of_db initial_db)).
Proof.
  assert (balances_initialised initial_db) as Hinit
    by (intros []; vm_compute; eauto).
  assert (ledger_invariant initial_db) as Hinv
    by (intros []; vm_compute; reflexivity).
  assert (total_amount initial_db + ops_amount sample_ops ≤ 2 ^ 51) as Hpot
    by (vm_compute; discriminate).
  split; [exact Hinit|]. split; [exact Hinv|]. split; [exact Hpot|].
  exact (ledger_invariant_whole_amounts sample_ops initial_db Hinit Hinv Hpot).
Defined.

(** C1, counterexample. Starting from the freshly initialised database, in
    which the invariant holds, add an expense of 0.1 on gpay, add an expense
    of 0.2 on gpay and delete the first: the balance is
    -0.20000000000000004, the only transaction left has the effect -0.2, and
    the two differ. With fractional amounts the invariant does not hold
    after every operation. *)
Lemma ledger_invariant_broken_by_rounding :
  Binary64.balances_initialised (double_of_db initial_db)
  ∧ Binary64.ledger_invariant (double_of_db initial_db)
  ∧ Binary64.ledger_trace fraction_ops (double_of_db initial_db) !! 2%nat
    = Some fraction_final
  ∧ Binary64.getBalance fraction_final gpay
    = SpecFloat.S754_finite true 7205759403792795 (-55)
  ∧ Binary64.decimal (-2) 1 = SpecFloat.S754_finite true 7205759403792794 (-55)
  ∧ Binary64.ledger_sum fraction_final gpay = Binary64.units (Binary64.decimal (-2) 1)
  ∧ Binary64.units (Binary64.getBalance fraction_final gpay)
    ≠ Binary64.ledger_sum fraction_final gpay
  ∧ ¬ Forall Binary64.ledger_invariant
        (Binary64.ledger_trace fraction_ops (double_of_db initial_db)).
Proof.
  assert (Binary64.ledger_trace fraction_ops (double_of_db initial_db) !! 2%nat
          = Some fraction_final) as Hlast by (vm_compute; reflexivity).
  assert (Binary64.units (Binary64.getBalance fraction_final gpay)
          ≠ Binary64.ledger_sum fraction_final gpay) as Hne
    by (vm_compute; discriminate).
  split; [intros []; vm_compute; eauto|].
  split.
  { apply (ledger_invariant_double 0); [apply ledger_invariant_initial_db| |done].
    apply within_of_invariant; [apply ledger_invariant_initial_db|].
    vm_compute. discriminate. }
  split; [exact Hlast|].
  split; [vm_compute; reflexivity|].
  split; [vm_compute; reflexivity|].
  split; [vm_compute; reflexivity|].
  split; [exact Hne|].
  intros Hall. rewrite Forall_lookup in Hall.
  destruct (Hall _ _ Hlast) as [_ Hsum]. by apply Hne.
Qed.

(** ** The method switch in double precision *)

Lemma getBalance64_insert cats bals txs m v m' :
  Binary64.getBalance (Binary64.mkDb cats (<[m := v]> bals) txs) m'
  = if bool_decide (m = m') then v else Binary64.orZero (bals !! m').
Proof.
  unfold Binary64.getBalance. simpl. case_bool_decide as H.
  - subst. by rewrite lookup_insert_eq.
  - by rewrite lookup_insert_ne.
Qed.

Lemma units_ofZ z :
  Z.abs z < 2 ^ 53 → Binary64.units (Binary64.ofZ z) = z * 2 ^ 1074.
Proof. intros Hz. by apply units_whole, whole_ofZ. Qed.

(** C4, amended. An existing expense of amount 50 on payment method A, with
    finite balances, updated so that only its payment method changes, to B:
    updateTransaction returns true, the balance of A becomes the double
    nearest to [balance(A) + 50] and the balance of B the double nearest to
    [balance(B) - 50]. When both balances are whole numbers (with
    [|balance| + 50 < 2^53]) the two changes are exactly +50 and -50 and the
    sum of the two balances is unchanged. *)
Theorem method_switch_in_doubles (tid : string) (now : Z)
    (data : Binary64.NewTransactionData) (db : Binary64.Db)
    (old : Binary64.TransactionRow) (c : CategoryRow) (A B : Binary64.number) :
  Binary64.transactions db !! tid = Some old →
  Binary64.tr_amount old = Binary64.ofZ 50 →
  Binary64.categories db !! Binary64.tr_categoryId old = Some c →
  is_gain_name (cr_name c) = false →
  Binary64.d_categoryId data = Binary64.tr_categoryId old →
  Binary64.d_amount data = Binary64.ofZ 50 →
  Binary64.d_paymentMethod data ≠ Binary64.tr_paymentMethod old →
  Binary64.balances db !! Binary64.tr_paymentMethod old = Some A →
  Binary64.balances db !! Binary64.d_paymentMethod data = Some B →
  Binary64.is_finite A = true →
  Binary64.is_finite B = true →
  (Binary64.updateTransaction tid now data db).1 = true
  ∧ Binary64.getBalance (Binary64.updateTransaction tid now data db).2
      (Binary64.tr_paymentMethod old)
    = Binary64.fadd A (Binary64.ofZ 50)
  ∧ Binary64.getBalance (Binary64.updateTransaction tid now data db).2
      (Binary64.d_paymentMethod data)
    = Binary64.fsub B (Binary64.ofZ 50)
  ∧ ∀ a b : Z,
      A = Binary64.ofZ a → B = Binary64.ofZ b →
      Z.abs a + 50 < 2 ^ 53 → Z.abs b + 50 < 2 ^ 53 →
      Binary64.getBalance (Binary64.updateTransaction tid now data db).2
        (Binary64.tr_paymentMethod old) = Binary64.ofZ (a + 50)
      ∧ Binary64.getBalance (Binary64.updateTransaction tid now data db).2
          (Binary64.d_paymentMethod data) = Binary64.ofZ (b - 50)
      ∧ Binary64.units (Binary64.getBalance (Binary64.updateTransaction tid now data db).2
                          (Binary64.tr_paymentMethod old))
        + Binary64.units (Binary64.getBalance (Binary64.updateTransaction tid now data db).2
                            (Binary64.d_paymentMethod data))
        = Binary64.units A + Binary64.units B.
Proof.
  intros Ht Hamt Hc Hexp Hcid Hnew Hpm HA HB HfA HfB.
  assert (Binary64.is_finite (Binary64.ofZ 50) = true) as H50 by reflexivity.
  assert (Binary64.updateTransaction tid now data db
          = (true,
             Binary64.mkDb (Binary64.categories db)
               (<[Binary64.d_paymentMethod data := Binary64.fsub B (Binary64.ofZ 50)]>
                  (<[Binary64.tr_paymentMethod old := Binary64.fadd A (Binary64.ofZ 50)]>
                     (Binary64.balances db)))
               (<[tid := Binary64.mkTransactionRow now (Binary64.d_paymentMethod data)
                           (Binary64.d_categoryId data) (Binary64.d_amount data)
                           (reason_or_null (Binary64.d_reason data))]>
                  (Binary64.transactions db)))) as ->.
  { unfold Binary64.updateTransaction, Binary64.updateTransaction_body. sql64_unfold.
    rewrite Ht. simpl. rewrite Hcid, Hc. simpl. rewrite Hexp.
    rewrite bool_decide_eq_true_2 by done. simpl.
    rewrite HA, Hamt, Hnew. simpl.
    rewrite fadd_not_nan by done. simpl.
    rewrite lookup_insert_ne by done. rewrite HB. simpl.
    rewrite fadd_fopp, fsub_not_nan by done. simpl.
    rewrite Ht, Hc. simpl. done. }
  simpl. split; [done|].
  rewrite !getBalance64_insert.
  rewrite (bool_decide_eq_false_2 (Binary64.d_paymentMethod data = Binary64.tr_paymentMethod old))
    by done.
  rewrite (bool_decide_eq_true_2 (Binary64.d_paymentMethod data = Binary64.d_paymentMethod data))
    by done.
  rewrite lookup_insert_eq. simpl.
  split; [done|]. split; [done|].
  intros a b -> -> Ha Hb.
  rewrite (fadd_ofZ a 50), (fsub_ofZ b 50) by lia.
  split; [done|]. split; [done|].
  rewrite !units_ofZ by lia.
  generalize (2 ^ 1074). intros K. lia.
Qed.

Lemma method_switch_in_doubles_sample :
  (Binary64.updateTransaction "tx-1" 2000 (double_of_data bills_50_gpay)
     (double_of_db db_bills_50)).1 = true
  ∧ Binary64.getBalance (Binary64.updateTransaction "tx-1" 2000
        (double_of_data bills_50_gpay) (double_of_db db_bills_50)).2 cash
    = Binary64.fadd (Binary64.ofZ (-50)) (Binary64.ofZ 50)
  ∧ Binary64.getBalance (Binary64.updateTransaction "tx-1" 2000
        (double_of_data bills_50_gpay) (double_of_db db_bills_50)).2 gpay
    = Binary64.fsub (Binary64.ofZ 0) (Binary64.ofZ 50)
  ∧ ∀ a b : Z,
      Binary64.ofZ (-50) = Binary64.ofZ a → Binary64.ofZ 0 = Binary64.ofZ b →
      Z.abs a + 50 < 2 ^ 53 → Z.abs b + 50 < 2 ^ 53 →
      Binary64.getBalance (Binary64.updateTransaction "tx-1" 2000
          (double_of_data bills_50_gpay) (double_of_db db_bills_50)).2 cash
      = Binary64.ofZ (a + 50)
      ∧ Binary64.getBalance (Binary64.updateTransaction "tx-1" 2000
            (double_of_data bills_50_gpay) (double_of_db db_bills_50)).2 gpay
        = Binary64.ofZ (b - 50)
      ∧ Binary64.units (Binary64.getBalance (Binary64.updateTransaction "tx-1" 2000
            (double_of_data bills_50_gpay) (double_of_db db_bills_50)).2 cash)
        + Binary64.units (Binary64.getBalance (Binary64.updateTransaction "tx-1" 2000
              (double_of_data bills_50_gpay) (double_of_db db_bills_50)).2 gpay)
        = Binary64.units (Binary64.ofZ (-50)) + Binary64.units (Binary64.ofZ 0).
Proof.
  apply (method_switch_in_doubles "tx-1" 2000 (double_of_data bills_50_gpay)
           (double_of_db db_bills_50)
           (double_of_row (mkTransactionRow 1000 cash 5 50 None))
           (mkCategoryRow "Bills" None)).
  - vm_compute; reflexivity.
  - reflexivity.
  - vm_compute; reflexivity.
  - reflexivity.
  - reflexivity.
  - reflexivity.
  - discriminate.
  - vm_compute; reflexivity.
  - vm_compute; reflexivity.
  - reflexivity.
  - reflexivity.
Defined.

(** C4, counterexample. Balances of 50.1 on cash and 0.2 on gpay and an
    expense of 50 on cash, which leaves 0.10000000000000142 on cash. Moving
    the expense to gpay sets cash to 50.1 and gpay to -49.8: the sum of the
    two balances changes, exactly and as the doubles add up, and the balance
    of gpay has not gone down by exactly 50. *)
Lemma method_switch_sum_changed_by_rounding :
  Binary64.transactions db_fraction_balances !! "tx-1"
  = Some (Binary64.mkTransactionRow 1000 cash 5 (Binary64.ofZ 50) None)
  ∧ Binary64.getBalance db_fraction_balances cash
    = Binary64.fsub (Binary64.decimal 501 1) (Binary64.ofZ 50)
  ∧ Binary64.getBalance db_fraction_balances gpay = Binary64.decimal 2 1
  ∧ (Binary64.updateTransaction "tx-1" 2000 bills_50_to_gpay db_fraction_balances).1 = true
  ∧ Binary64.getBalance
      (Binary64.updateTransaction "tx-1" 2000 bills_50_to_gpay db_fraction_balances).2 cash
    = Binary64.decimal 501 1
  ∧ Binary64.getBalance
      (Binary64.updateTransaction "tx-1" 2000 bills_50_to_gpay db_fraction_balances).2 gpay
    = Binary64.decimal (-498) 1
  ∧ Binary64.units (Binary64.decimal 501 1) + Binary64.units (Binary64.decimal (-498) 1)
    ≠ Binary64.units (Binary64.fsub (Binary64.decimal 501 1) (Binary64.ofZ 50))
      + Binary64.units (Binary64.decimal 2 1)
  ∧ Binary64.fadd (Binary64.decimal 501 1) (Binary64.decimal (-498) 1)
    ≠ Binary64.fadd (Binary64.fsub (Binary64.decimal 501 1) (Binary64.ofZ 50))
        (Binary64.decimal 2 1)
  ∧ Binary64.units (Binary64.decimal (-498) 1)
    ≠ Binary64.units (Binary64.decimal 2 1) - Binary64.units (Binary64.ofZ 50).
Proof.
  repeat split; try (vm_compute; reflexivity); vm_compute; discriminate.
Qed.

(** ** Undoing an operation in double precision *)

Lemma within_mono B B' db : B ≤ B' → within B db → within B' db.
Proof.
  intros HB [Hbal Hrows]. split.
  - intros m b Hb. specialize (Hbal _ _ Hb). lia.
  - intros tid row Hrow. specialize (Hrows _ _ Hrow). lia.
Qed.

Lemma within_addTransaction B newId timestamp data db :
  0 ≤ B → within B db → Z.abs (d_amount data) ≤ B →
  within (2 * B) (addTransaction newId timestamp data db).2.
Proof.
  intros HB Hw Hamt.
  destruct (categories db !! d_categoryId data) as [c|] eqn:Hc;
    [|rewrite addTransaction_fail by auto; apply (within_mono B); [lia|done]].
  destruct (balances db !! d_paymentMethod data) as [b|] eqn:Hb;
    [|rewrite addTransaction_fail by auto; apply (within_mono B); [lia|done]].
  destruct (transactions db !! newId) as [row|] eqn:Hfresh;
    [rewrite addTransaction_fail by eauto; apply (within_mono B); [lia|done]|].
  rewrite (addTransaction_ok _ _ _ _ c b) by done.
  destruct Hw as [Hbal Hrows]. pose proof (Hbal _ _ Hb) as Hb'. split; simpl.
  - intros m v. rewrite lookup_insert. case_decide.
    + intros [= <-]. destruct (is_gain_name _); lia.
    + intros Hv. specialize (Hbal _ _ Hv). lia.
  - apply (rows_insert (λ r, Z.abs (tr_amount r) ≤ 2 * B)); [simpl; lia|].
    intros i r Hr. specialize (Hrows _ _ Hr). lia.
Qed.

Lemma effect_abs cats row : Z.abs (effect cats row) = Z.abs (tr_amount row).
Proof. unfold effect. destruct (row_is_gain cats row); lia. Qed.

Lemma within_updateTransaction B tid now data db :
  0 ≤ B → balances_initialised db → within B db → Z.abs (d_amount data) ≤ B →
  within (3 * B) (updateTransaction tid now data db).2.
Proof.
  intros HB Hinit Hw Hamt.
  destruct (transactions db !! tid) as [old|] eqn:Ht;
    [|rewrite updateTransaction_fail by auto; apply (within_mono B); [lia|done]].
  destruct (categories db !! d_categoryId data) as [c|] eqn:Hc;
    [|rewrite updateTransaction_fail by auto; apply (within_mono B); [lia|done]].
  rewrite (updateTransaction_ok _ _ _ _ old c) by done.
  destruct Hw as [Hbal Hrows]. pose proof (Hrows _ _ Ht) as Hold.
  set (new := mkTransactionRow _ _ _ _ _).
  assert (Z.abs (tr_amount new) ≤ B) as Hnew by done.
  pose proof (effect_abs (categories db) old) as Heo.
  pose proof (effect_abs (categories db) new) as Hen.
  assert (∀ m, Z.abs (orZero (balances db !! m)) ≤ B) as Hget.
  { intros m. destruct (balances db !! m) as [b|] eqn:Hb; simpl; [by eapply Hbal|lia]. }
  split; simpl.
  - intros m v. unfold updated_balances.
    revert Heo Hen.
    generalize (effect (categories db) old) (effect (categories db) new).
    intros eo en Heo Hen. subst new. simpl in *.
    case_bool_decide.
    + rewrite lookup_insert. case_decide.
      * intros [= <-]. rewrite lookup_insert_ne by done.
        pose proof (Hget (d_paymentMethod data)). lia.
      * rewrite lookup_insert. case_decide.
        -- intros [= <-]. pose proof (Hget (tr_paymentMethod old)). lia.
        -- intros Hv. specialize (Hbal _ _ Hv). lia.
    + rewrite lookup_insert. case_decide.
      * intros [= <-]. pose proof (Hget (d_paymentMethod data)). lia.
      * intros Hv. specialize (Hbal _ _ Hv). lia.
  - apply (rows_insert (λ r, Z.abs (tr_amount r) ≤ 3 * B)); [lia|].
    intros i r Hr. specialize (Hrows _ _ Hr). lia.
Qed.

(** X1. With whole-number amounts (the balances and stored amounts at most
    2^50 in absolute value, as the amount added), deleting a transaction
    right after adding it restores the database exactly, in the double
    arithmetic of the code. *)
Theorem add_then_delete_whole_amounts (newId : string) (timestamp : Z)
    (data : NewTransactionData) (db : Db) :
  within (2 ^ 50) db →
  Z.abs (d_amount data) ≤ 2 ^ 50 →
  is_Some (categories db !! d_categoryId data) →
  is_Some (balances db !! d_paymentMethod data) →
  transactions db !! newId = None →
  Binary64.deleteTransaction newId
    (Binary64.addTransaction newId timestamp (double_of_data data) (double_of_db db)).2
  = (true, double_of_db db).
Proof.
  intros Hw Hamt Hc Hb Hfresh.
  rewrite (addTransaction_double (2 ^ 50)) by (done || lia). simpl.
  rewrite (deleteTransaction_double (2 * 2 ^ 50))
    by (by apply within_addTransaction || lia).
  by rewrite addTransaction_undone_by_delete.
Qed.

Lemma add_then_delete_whole_amounts_sample :
  Binary64.deleteTransaction "tx-9"
    (Binary64.addTransaction "tx-9" 7000 (double_of_data groceries_200)
       (double_of_db initial_db)).2
  = (true, double_of_db initial_db).
Proof.
  apply (add_then_delete_whole_amounts "tx-9" 7000 groceries_200 initial_db).
  - apply within_of_invariant; [intros []; vm_compute; reflexivity|].
    vm_compute. discriminate.
  - vm_compute. discriminate.
  - vm_compute; eauto.
  - vm_compute; eauto.
  - vm_compute; reflexivity.
Defined.

(** With fractional amounts the balance need not come back: a balance of
    0.3 and a Gain of 0.1, added and deleted, leave 0.30000000000000004. *)
Lemma add_then_delete_fraction :
  Binary64.getBalance db_three_tenths gpay = Binary64.decimal 3 1
  ∧ (Binary64.deleteTransaction "tx-9"
       (Binary64.addTransaction "tx-9" 7000 gain_tenth db_three_tenths).2).1 = true
  ∧ Binary64.getBalance
      (Binary64.deleteTransaction "tx-9"
         (Binary64.addTransaction "tx-9" 7000 gain_tenth db_three_tenths).2).2 gpay
    = SpecFloat.S754_finite false 5404319552844596 (-54)
  ∧ Binary64.decimal 3 1 = SpecFloat.S754_finite false 5404319552844595 (-54).
Proof. repeat split; vm_compute; reflexivity. Qed.

(** X5. With whole-number amounts (at most 2^49 in absolute value), an
    update followed by an update back to the old payment method, category
    and amount returns true both times and restores every balance, in the
    double arithmetic of the code; the row keeps its id and gets its old
    fields back, with a refreshed timestamp. *)
Theorem update_then_update_back_whole_amounts (tid : string) (now now' : Z)
    (data : NewTransactionData) (db : Db) (old : TransactionRow) :
  balances_initialised db →
  within (2 ^ 49) db →
  Z.abs (d_amount data) ≤ 2 ^ 49 →
  transactions db !! tid = Some old →
  is_Some (categories db !! tr_categoryId old) →
  is_Some (categories db !! d_categoryId data) →
  (Binary64.updateTransaction tid now (double_of_data data) (double_of_db db)).1 = true
  ∧ (Binary64.updateTransaction tid now'
       (double_of_data (mkNewTransactionData (tr_paymentMethod old) (tr_categoryId old)
                          (tr_amount old) (tr_reason old)))
       (Binary64.updateTransaction tid now (double_of_data data) (double_of_db db)).2).1
    = true
  ∧ Binary64.balances
      (Binary64.updateTransaction tid now'
         (double_of_data (mkNewTransactionData (tr_paymentMethod old) (tr_categoryId old)
                            (tr_amount old) (tr_reason old)))
         (Binary64.updateTransaction tid now (double_of_data data) (double_of_db db)).2).2
    = Binary64.balances (double_of_db db)
  ∧ Binary64.transactions
      (Binary64.updateTransaction tid now'
         (double_of_data (mkNewTransactionData (tr_paymentMethod old) (tr_categoryId old)
                            (tr_amount old) (tr_reason old)))
         (Binary64.updateTransaction tid now (double_of_data data) (double_of_db db)).2).2
    = <[tid := double_of_row
                 (mkTransactionRow now' (tr_paymentMethod old) (tr_categoryId old)
                    (tr_amount old) (reason_or_null (tr_reason old)))]>
        (Binary64.transactions (double_of_db db)).
Proof.
  intros Hinit Hw Hamt Ht Hco Hcn.
  pose proof (proj2 Hw _ _ Ht) as Hold.
  destruct (updateTransaction_undone_by_update tid now now' data db old Hinit Ht Hco Hcn)
    as (H1 & H2 & H3 & H4).
  rewrite (updateTransaction_double (2 ^ 49)) by (done || lia). simpl.
  rewrite (updateTransaction_double (3 * 2 ^ 49));
    [|apply within_updateTransaction; (done || lia)|simpl; lia|lia].
  simpl. split; [done|]. split; [done|]. split.
  - by rewrite H3.
  - rewrite H4. by rewrite fmap_insert.
Qed.

Lemma update_then_update_back_whole_amounts_sample :
  (Binary64.updateTransaction "tx-1" 2000 (double_of_data bills_as_gain_100)
     (double_of_db db_bills_100)).1 = true
  ∧ (Binary64.updateTransaction "tx-1" 3000
       (double_of_data (mkNewTransactionData gpay 5 100 None))
       (Binary64.updateTransaction "tx-1" 2000 (double_of_data bills_as_gain_100)
          (double_of_db db_bills_100)).2).1 = true
  ∧ Binary64.balances
      (Binary64.updateTransaction "tx-1" 3000
         (double_of_data (mkNewTransactionData gpay 5 100 None))
         (Binary64.updateTransaction "tx-1" 2000 (double_of_data bills_as_gain_100)
            (double_of_db db_bills_100)).2).2
    = Binary64.balances (double_of_db db_bills_100)
  ∧ Binary64.transactions
      (Binary64.updateTransaction "tx-1" 3000
         (double_of_data (mkNewTransactionData gpay 5 100 None))
         (Binary64.updateTransaction "tx-1" 2000 (double_of_data bills_as_gain_100)
            (double_of_db db_bills_100)).2).2
    = <[ "tx-1" := double_of_row (mkTransactionRow 3000 gpay 5 100 None)]>
        (Binary64.transactions (double_of_db db_bills_100)).
Proof.
  apply (update_then_update_back_whole_amounts "tx-1" 2000 3000 bills_as_gain_100
           db_bills_100 (mkTransactionRow 1000 gpay 5 100 None)).
  - apply balances_initialised_after_add, balances_initialised_initial_db.
  - apply within_of_invariant; [apply ledger_invariant_db_bills_100|].
    vm_compute. discriminate.
  - vm_compute. discriminate.
  - vm_compute; reflexivity.
  - vm_compute; eauto.
  - vm_compute; eauto.
Defined.

(** With fractional amounts the balance need not come back: an expense of
    0.1 that brought the balance to -0.1, changed to 0.7 and back to 0.1,
    leaves -0.09999999999999998. *)
Lemma update_then_update_back_fraction :
  Binary64.getBalance
    (Binary64.addTransaction "tx-1" 1000 (bills_tenths gpay 1) (double_of_db initial_db)).2
    gpay = Binary64.decimal (-1) 1
  ∧ Binary64.decimal (-1) 1 = SpecFloat.S754_finite true 7205759403792794 (-56)
  ∧ Binary64.getBalance
      (Binary64.updateTransaction "tx-1" 3000 (bills_tenths gpay 1)
         (Binary64.updateTransaction "tx-1" 2000 (bills_tenths gpay 7)
            (Binary64.addTransaction "tx-1" 1000 (bills_tenths gpay 1)
               (double_of_db initial_db)).2).2).2 gpay
    = SpecFloat.S754_finite true 7205759403792792 (-56).
Proof. repeat split; vm_compute; reflexivity. Qed.

(** ** The two loops of the test data generation *)

Lemma insert_test_transactions_seed_steps db0 uuids l :
  (∀ i j : nat, uuids i = uuids j → i = j) →
  ∀ (insertedCount : nat) db,
    categories db = categories db0 →
    balances_initialised db →
    (∀ i, (insertedCount ≤ i)%nat → transactions db !! uuids i = None) →
    Forall (λ transData, is_Some (categories db0 !! tt_categoryId transData)) l →
    ∃ n db',
      insert_test_transactions (getAllCategories db0) uuids insertedCount l db
      = Some (n, db')
      ∧ seed_steps uuids insertedCount l db db'.
Proof.
  intros Hinj. induction l as [|transData l IH]; intros n db Hcat Hinit Hfresh Hcats.
  - eexists _, _. split; [done|constructor].
  - apply Forall_cons in Hcats as [Hc Hcats].
    destruct (Hinit (tt_paymentMethod transData)) as [b Hb].
    assert (∀ v,
      let db1 := mkDb (categories db) (<[tt_paymentMethod transData := v]> (balances db))
                   (<[uuids n := test_row transData]> (transactions db)) in
      categories db1 = categories db0 ∧ balances_initialised db1
      ∧ ∀ i, (S n ≤ i)%nat → transactions db1 !! uuids i = None) as Hnext.
    { intros v. simpl. split; [done|]. split.
      - intros m. simpl. by apply is_Some_insert_balance.
      - intros i Hi. rewrite lookup_insert_ne; [apply Hfresh; lia|].
        intros Heq%Hinj. lia. }
    pose proof (find_category_snapshot db0 (tt_categoryId transData)) as Hsnap.
    rewrite <- Hcat in Hc.
    cbn [insert_test_transactions]. unfold mbind at 1, Sql_bind at 1.
    destruct (is_gain_opt (cr_name <$> categories db !! tt_categoryId transData))
      eqn:Hgain.
    + rewrite (insert_test_gain_inserted _ _ _ db b)
        by (rewrite ?Hsnap, <- ?Hcat; auto).
      destruct (Hnext (b + tt_amount transData)) as (Hcat1 & Hinit1 & Hfresh1).
      destruct (IH (S n) _ Hcat1 Hinit1 Hfresh1 Hcats) as (n' & db' & Hrun & Hsteps).
      exists n', db'. split; [exact Hrun|].
      eapply (seed_next _ _ _ _ _ true); [by apply seed_gain|exact Hsteps].
    + destruct (decide (tt_amount transData ≤ b)) as [Hle|Hlt].
      * rewrite (insert_test_expense_inserted _ _ _ db b)
          by (rewrite ?Hsnap, <- ?Hcat; auto).
        destruct (Hnext (b - tt_amount transData)) as (Hcat1 & Hinit1 & Hfresh1).
        destruct (IH (S n) _ Hcat1 Hinit1 Hfresh1 Hcats) as (n' & db' & Hrun & Hsteps).
        exists n', db'. split; [exact Hrun|].
        eapply (seed_next _ _ _ _ _ true); [by apply seed_expense|exact Hsteps].
      * assert (getBalance db (tt_paymentMethod transData) < tt_amount transData) as Hlow.
        { unfold getBalance. rewrite Hb. simpl. lia. }
        rewrite (insert_test_expense_skipped _ _ _ db)
          by (rewrite ?Hsnap, <- ?Hcat; auto).
        rewrite Hcat in Hc.
        destruct (IH n db Hcat Hinit Hfresh Hcats) as (n' & db' & Hrun & Hsteps).
        exists n', db'. split; [exact Hrun|].
        eapply (seed_next _ _ _ _ _ false); [by apply seed_skip|exact Hsteps].
Qed.

Lemma pick_test_transaction_kind rng gainCategory expenseCategories first range
    k transData k' :
  pick_test_transaction rng gainCategory expenseCategories first range k
  = Some (Some transData, k') →
  if (choose_gain rng gainCategory k).1
  then ∃ g, gainCategory = Some g ∧ tt_categoryId transData = c_id g
  else ∃ c, c ∈ expenseCategories ∧ tt_categoryId transData = c_id c.
Proof.
  unfold pick_test_transaction, choose_category.
  assert (∀ k0,
            (if bool_decide (0 < length expenseCategories)%nat then
               randomCategory ← random_element rng k0 expenseCategories;
               Some (Some (c_id randomCategory,
                           floor_times (random rng (S k0)) (3000 - 50 + 1) + 50),
                     S (S k0))
             else Some (None, k0))
            ≫= (λ chosen : option (Z * Z) * nat,
                  match chosen with
                  | (None, k1) => Some (None, k1)
                  | (Some (categoryId, amount), k1) =>
                      paymentMethod ← random_element rng k1 paymentMethods;
                      reason ← random_element rng (S k1) reasons;
                      Some (Some (mkTestTransaction paymentMethod categoryId amount
                                    (reason +:+ " (Test)")
                                    (first + floor_times (random rng (S (S k1))) range)),
                            S (S (S k1)))
                  end) = Some (Some transData, k') →
            ∃ c, c ∈ expenseCategories ∧ tt_categoryId transData = c_id c) as Hexp.
  { intros k0. case_bool_decide; [|done].
    destruct (random_element rng k0 expenseCategories) as [c|] eqn:Hc; [|done].
    simpl. intros (Hcid & _)%pick_test_transaction_tail.
    exists c. split; [by eapply random_element_elem_of|done]. }
  unfold choose_gain. destruct gainCategory as [g|]; simpl; [|apply Hexp].
  destruct (below_tenth (random rng k)); simpl; [|apply Hexp].
  intros (Hcid & _)%pick_test_transaction_tail. eauto.
Qed.

Lemma pick_test_transaction_pushes rng gainCategory expenseCategories first range
    k picked k' :
  expenseCategories ≠ [] →
  pick_test_transaction rng gainCategory expenseCategories first range k
  = Some (picked, k') →
  is_Some picked.
Proof.
  intros Hne. unfold pick_test_transaction, choose_category.
  assert (bool_decide (0 < length expenseCategories)%nat = true) as Hlen.
  { apply bool_decide_eq_true. destruct expenseCategories; [done|simpl; lia]. }
  rewrite Hlen.
  generalize (choose_gain rng gainCategory k). intros [isGain k0]. simpl.
  assert (∀ cid amount k1,
            (paymentMethod ← random_element rng k1 paymentMethods;
             reason ← random_element rng (S k1) reasons;
             Some (Some (mkTestTransaction paymentMethod cid amount
                           (reason +:+ " (Test)")
                           (first + floor_times (random rng (S (S k1))) range)),
                   S (S (S k1)))) = Some (picked, k') → is_Some picked) as Htail.
  { intros cid amount k1.
    destruct (random_element rng k1 paymentMethods); [|done].
    destruct (random_element rng (S k1) reasons); [|done].
    simpl. intros [= <- _]. eauto. }
  destruct isGain, gainCategory as [g|]; simpl;
    try (by apply Htail);
    (destruct (random_element rng k0 expenseCategories); [|done]); simpl;
    apply Htail.
Qed.

Lemma pick_test_transactions_length rng gainCategory expenseCategories first range
    count :
  expenseCategories ≠ [] →
  ∀ k l,
    pick_test_transactions rng gainCategory expenseCategories first range count k = Some l →
    length l = count.
Proof.
  intros Hne. induction count as [|count IH]; intros k l; simpl.
  - by intros [= <-].
  - destruct (pick_test_transaction _ _ _ _ _ k) as [[picked k']|] eqn:Hpick; [|done].
    simpl.
    destruct (pick_test_transactions _ _ _ _ _ count k') as [rest|] eqn:Hrest; [|done].
    simpl. intros [= <-].
    destruct (pick_test_transaction_pushes _ _ _ _ _ _ _ _ Hne Hpick) as [t ->].
    simpl. f_equal. by eapply IH.
Qed.

(** C8. In generateTestDataForMonth an expense is inserted, and its debit
    applied, only when the current balance of its payment method is at least
    its amount; otherwise that one transaction is skipped and the loop goes
    on with the database as it was. A gain insertion always applies its
    credit. A gain is chosen exactly when a Gain category exists and the
    draw is below 0.1, which is the case for 900719925474100 of the 2^53
    values of the draw, and the transaction pushed is then in the Gain
    category, otherwise in an expense category. With at least one category,
    both balance rows and fresh generated ids the call returns true and the
    database it leaves is the one reached by taking the picked transactions
    in order, each by this rule ([seed_steps]); with an expense category
    [count] transactions are picked. *)
Theorem generateTestData_balance_rule :
  (∀ snapshot newId transData db,
     is_gain_opt (c_name <$> find_category snapshot (tt_categoryId transData)) = false →
     (getBalance db (tt_paymentMethod transData) < tt_amount transData →
      insert_test_transaction snapshot newId transData db = Some (false, db))
     ∧ (∀ db', insert_test_transaction snapshot newId transData db = Some (true, db') →
               tt_amount transData ≤ getBalance db (tt_paymentMethod transData))
     ∧ (∀ b, balances db !! tt_paymentMethod transData = Some b →
             tt_amount transData ≤ b →
             transactions db !! newId = None →
             is_Some (categories db !! tt_categoryId transData) →
             insert_test_transaction snapshot newId transData db
             = Some (true,
                     mkDb (categories db)
                       (<[tt_paymentMethod transData := b - tt_amount transData]> (balances db))
                       (<[newId := mkTransactionRow (tt_timestamp transData)
                                     (tt_paymentMethod transData) (tt_categoryId transData)
                                     (tt_amount transData)
                                     (reason_or_null (Some (tt_reason transData)))]>
                          (transactions db)))))
  ∧ (∀ snapshot newId transData db b,
       is_gain_opt (c_name <$> find_category snapshot (tt_categoryId transData)) = true →
       balances db !! tt_paymentMethod transData = Some b →
       transactions db !! newId = None →
       is_Some (categories db !! tt_categoryId transData) →
       insert_test_transaction snapshot newId transData db
       = Some (true,
               mkDb (categories db)
                 (<[tt_paymentMethod transData := b + tt_amount transData]> (balances db))
                 (<[newId := mkTransactionRow (tt_timestamp transData)
                               (tt_paymentMethod transData) (tt_categoryId transData)
                               (tt_amount transData)
                               (reason_or_null (Some (tt_reason transData)))]>
                    (transactions db))))
  ∧ (∀ rng gainCategory k,
       (choose_gain rng gainCategory k).1 = true
       ↔ is_Some gainCategory ∧ rng k mod two53 < 900719925474100)
  ∧ (∀ rng gainCategory expenseCategories first range k transData k',
       pick_test_transaction rng gainCategory expenseCategories first range k
       = Some (Some transData, k') →
       if (choose_gain rng gainCategory k).1
       then ∃ g, gainCategory = Some g ∧ tt_categoryId transData = c_id g
       else ∃ c, c ∈ expenseCategories ∧ tt_categoryId transData = c_id c)
  ∧ (∀ tz rng uuids year month count db,
       categories db ≠ ∅ →
       balances_initialised db →
       (∀ i, transactions db !! uuids i = None) →
       (∀ i j : nat, uuids i = uuids j → i = j) →
       ∃ l db',
         pick_test_transactions rng
           (List.find (λ c, is_gain_name (c_name c)) (getAllCategories db))
           (List.filter (λ c, negb (is_gain_name (c_name c))) (getAllCategories db))
           (newDate tz year (month - 1) 1)
           (newDate tz year month 1 - newDate tz year (month - 1) 1) count 0 = Some l
         ∧ (List.filter (λ c, negb (is_gain_name (c_name c))) (getAllCategories db) ≠ [] →
            length l = count)
         ∧ generateTestDataForMonth tz rng uuids year month count db = (true, db')
         ∧ seed_steps uuids 0 l db db').
Proof.
  split; [|split; [|split; [|split]]].
  - intros snapshot newId transData db Hexp. split; [|split].
    + by apply insert_test_expense_skipped.
    + intros db'. by apply insert_test_expense_only_if_covered.
    + intros b. by apply insert_test_expense_inserted.
  - intros snapshot newId transData db b. by apply insert_test_gain_inserted.
  - apply choose_gain_iff.
  - apply pick_test_transaction_kind.
  - intros tz rng uuids year month count db Hcats Hinit Hfresh Hinj.
    unfold generateTestDataForMonth.
    set (snapshot := getAllCategories db).
    set (expenseCategories := List.filter _ snapshot).
    set (gainCategory := List.find _ snapshot).
    assert (bool_decide (length expenseCategories = 0%nat)
            && bool_decide (gainCategory = None) = false) as ->.
    { apply some_category_kind. by apply getAllCategories_nonempty. }
    destruct (pick_test_transactions_total rng gainCategory expenseCategories
                (newDate tz year (month - 1) 1)
                (newDate tz year month 1 - newDate tz year (month - 1) 1) count 0%nat)
      as (l & Hpick & Hl).
    rewrite Hpick.
    destruct (insert_test_transactions_seed_steps db uuids l Hinj 0%nat db)
      as (n & db' & Hrun & Hsteps); [done|done|intros i _; apply Hfresh| |].
    { eapply Forall_impl; [exact Hl|].
      intros transData Hfrom. by eapply snapshot_category_exists. }
    fold snapshot in Hrun. rewrite Hrun.
    exists l, db'. split; [done|]. split; [|done].
    intros Hne. by eapply pick_test_transactions_length.
Qed.

Lemma generateTestData_balance_rule_sample :
  insert_test_transaction (getAllCategories initial_db) "test-0" coffee_expense initial_db
  = Some (false, initial_db)
  ∧ insert_test_transaction (getAllCategories initial_db) "test-0" salary_gain initial_db
    = Some (true,
            mkDb (categories initial_db)
              (<[gpay := 0 + 9000]> (balances initial_db))
              (<[ "test-0" := mkTransactionRow 1709300000000 gpay 2 9000
                                (Some "Salary (Test)")]> (transactions initial_db)))
  ∧ ∃ l db',
      pick_test_transactions sample_rng
        (List.find (λ c, is_gain_name (c_name c)) (getAllCategories initial_db))
        (List.filter (λ c, negb (is_gain_name (c_name c))) (getAllCategories initial_db))
        (newDate 0 2024 (3 - 1) 1)
        (newDate 0 2024 3 1 - newDate 0 2024 (3 - 1) 1) 6 0 = Some l
      ∧ (List.filter (λ c, negb (is_gain_name (c_name c))) (getAllCategories initial_db) ≠ [] →
         length l = 6%nat)
      ∧ generateTestDataForMonth 0 sample_rng sample_uuids 2024 3 6 initial_db = (true, db')
      ∧ seed_steps sample_uuids 0 l initial_db db'.
Proof.
  destruct generateTestData_balance_rule as (Hexpense & Hgain & _ & _ & Hbatch).
  split; [|split].
  - apply (Hexpense (getAllCategories initial_db) "test-0" coffee_expense initial_db).
    + vm_compute; reflexivity.
    + vm_compute; reflexivity.
  - apply (Hgain (getAllCategories initial_db) "test-0" salary_gain initial_db 0).
    + vm_compute; reflexivity.
    + vm_compute; reflexivity.
    + apply lookup_empty.
    + vm_compute; eauto.
  - apply Hbatch.
    + apply categories_initial_db_nonempty.
    + apply balances_initialised_initial_db.
    + intros i. apply lookup_empty.
    + apply sample_uuids_inj.
Defined.
